(** * CarnotAgents: the document-state refinement loop

    A shallow embedding of the solver prototypes of the repository and the
    properties of their step functions:

    - [V4]        [References/Document-Generation/code/rj_copy_document_gen_v4.txt]
                  ([format_state], [UniversalSolver.solve],
                  [UniversalSolver._apply_changes]);
    - [V4Nested]  [format_state] of the same file on the declared type of
                  [cells], where an entry may be a nested state;
    - [V10]       "Final code v10 self improving"
                  ([UniversalSolver.solve] with its correction and fallback
                  prompts);
    - [Functional] "Final code functional including other libraries
                  capabilities" ([parse_state]), with the tasks of a
                  state in [FunctionalTasks] ([SystemState.get_tasks],
                  [SystemState.get_next_tasks], [list_tasks]);
    - [LangGraph] [References/Document-Generation/code/rj_copy_document_gen_langgraph_v2.txt]
                  ([SystemState.get_path_to_current] and the graph nodes of
                  [ProjectSystem]).

    Python strings are modelled by [string]; a character stands for a code
    point below 256.  Dictionaries are association lists in insertion
    order.  Exceptions are values of [exn]; a loop that Python runs
    without a bound ([while True], [while node_id]) is run with a fuel
    argument and reports [OutOfFuel] when the fuel does not suffice.  The
    language model and [uuid.uuid4] are parameters of the solvers: a
    model is a state with a function from a state and a prompt to an
    answer and a next state, and the identifiers are a sequence.

    [_apply_changes] of v4 is modelled twice: on values ([V4]), and on a
    store of objects with [deepcopy] and assignment ([V4Store]);
    [V4Refinement] shows that the two agree.

    The modules of definitions come first, the modules of facts about
    them second. *)

From Stdlib Require Import String Ascii List Bool Arith ZArith Lia.
Import ListNotations.

Local Open Scope string_scope.
Local Open Scope list_scope.
Local Open Scope nat_scope.

(** String concatenation, written apart from list concatenation. *)
Infix "+:+" := String.append (at level 60, right associativity).

Set Implicit Arguments.

(* ===================================================================== *)
(** * Python values shared by all modules                                  *)
(* ===================================================================== *)

(** The exceptions the modelled code can raise. *)
Inductive exn : Type :=
| IndexError
| KeyError (key : string)
| UnboundLocalError (name : string)
| ValueError
| AttributeError (attribute : string).

(** [UnboundLocalError] is a subclass of [NameError]. *)
Definition is_NameError (e : exn) : bool :=
  match e with UnboundLocalError _ => true | _ => false end.

(** The result of a call: a value or a raised exception. *)
Inductive result (A : Type) : Type :=
| Ok (a : A)
| Raise (e : exn).
Arguments Ok {A} a.
Arguments Raise {A} e.

Definition bind {A B : Type} (r : result A) (k : A -> result B) : result B :=
  match r with
  | Ok a => k a
  | Raise e => Raise e
  end.

Notation "'do' x <- r ; k" := (bind r (fun x => k))
  (at level 10, x pattern, r at level 100, k at level 200).

(** The outcome of a loop run with fuel. *)
Inductive outcome (A : Type) : Type :=
| Returned (a : A)
| Raised (e : exn)
| OutOfFuel.
Arguments Returned {A} a.
Arguments Raised {A} e.
Arguments OutOfFuel {A}.

(* ===================================================================== *)
(** * Python [str] methods                                                 *)
(* ===================================================================== *)

Module Py.

Definition nl : string := String "010" "".
Definition dquote : string := String "034" "".

(** [str.isspace] on one code point below 256. *)
Definition isspace (c : ascii) : bool :=
  let n := nat_of_ascii c in
  ((9 <=? n) && (n <=? 13)) || ((28 <=? n) && (n <=? 32))
  || (n =? 133) || (n =? 160).

(** [s.lstrip()] *)
Fixpoint lstrip (s : string) : string :=
  match s with
  | String c s' => if isspace c then lstrip s' else s
  | EmptyString => EmptyString
  end.

(** [s.rstrip()] *)
Fixpoint rstrip (s : string) : string :=
  match s with
  | String c s' =>
      match rstrip s' with
      | EmptyString => if isspace c then EmptyString else String c EmptyString
      | r => String c r
      end
  | EmptyString => EmptyString
  end.

(** [s.strip()] *)
Definition strip (s : string) : string := rstrip (lstrip s).

(** [s.startswith(p)] *)
Definition startswith (s p : string) : bool := prefix p s.

(** [s[n:]] *)
Fixpoint drop (n : nat) (s : string) : string :=
  match n, s with
  | S n', String _ s' => drop n' s'
  | _, _ => s
  end.

(** [s.split(sep, 1)] for a non-empty [sep]: the text before the first
    occurrence of [sep] and, when there is one, the text after it. *)
Fixpoint split1 (sep s : string) : string * option string :=
  if prefix sep s then (EmptyString, Some (drop (String.length sep) s))
  else match s with
       | EmptyString => (EmptyString, None)
       | String c s' =>
           let (before, after) := split1 sep s' in (String c before, after)
       end.

(** [s.split(sep, 1)[0]] *)
Definition split1_0 (sep s : string) : string := fst (split1 sep s).

(** [s.split(sep, 1)[1]]: [IndexError] when [sep] does not occur. *)
Definition split1_1 (sep s : string) : result string :=
  match snd (split1 sep s) with
  | Some after => Ok after
  | None => Raise IndexError
  end.

(** [sub in s] for a non-empty [sub]. *)
Definition contains (sub s : string) : bool :=
  match snd (split1 sub s) with Some _ => true | None => false end.

(** [s.split(c)] for a one-character separator: every occurrence splits. *)
Fixpoint split_char (c : ascii) (s : string) : list string :=
  match s with
  | EmptyString => [EmptyString]
  | String a s' =>
      if Ascii.eqb a c then EmptyString :: split_char c s'
      else match split_char c s' with
           | w :: ws => String a w :: ws
           | [] => [String a EmptyString]
           end
  end.

(** [s.split()]: the maximal runs of non-space characters. *)
Fixpoint split_ws_aux (cur : option string) (s : string) : list string :=
  match s with
  | EmptyString =>
      match cur with Some w => [w] | None => [] end
  | String a s' =>
      if isspace a then
        match cur with
        | Some w => w :: split_ws_aux None s'
        | None => split_ws_aux None s'
        end
      else
        match cur with
        | Some w => split_ws_aux (Some (w +:+ String a EmptyString)) s'
        | None => split_ws_aux (Some (String a EmptyString)) s'
        end
  end.

Definition split_ws (s : string) : list string := split_ws_aux None s.

(** [l[i]] on a list. *)
Definition index {A : Type} (l : list A) (i : nat) : result A :=
  match nth_error l i with
  | Some a => Ok a
  | None => Raise IndexError
  end.

(** [sep.join(l)] *)
Fixpoint join (sep : string) (l : list string) : string :=
  match l with
  | [] => EmptyString
  | [s] => s
  | s :: l' => s +:+ sep +:+ join sep l'
  end.

(** [s.upper()] on code points below 256.  The sharp s becomes two
    letters; the micro sign and y with diaeresis have their capitals
    above 255 and stay in place here (no marker of the solvers contains
    them or their capitals). *)
Definition upper_char (c : ascii) : string :=
  let n := nat_of_ascii c in
  if (97 <=? n) && (n <=? 122) then String (ascii_of_nat (n - 32)) EmptyString
  else if n =? 223 then "SS"
  else if (224 <=? n) && (n <=? 254) && negb (n =? 247)
       then String (ascii_of_nat (n - 32)) EmptyString
  else String c EmptyString.

Fixpoint upper (s : string) : string :=
  match s with
  | EmptyString => EmptyString
  | String c s' => upper_char c +:+ upper s'
  end.

End Py.

(** Python dictionaries keep their keys in insertion order. *)
Module Dict.

Definition t (V : Type) : Type := list (string * V).

(** [d.get(k)] *)
Fixpoint get {V : Type} (d : t V) (k : string) : option V :=
  match d with
  | [] => None
  | (k', v) :: d' => if String.eqb k' k then Some v else get d' k
  end.

(** [k in d] *)
Definition mem {V : Type} (d : t V) (k : string) : bool :=
  match get d k with Some _ => true | None => false end.

(** [d[k]] *)
Definition getitem {V : Type} (d : t V) (k : string) : result V :=
  match get d k with
  | Some v => Ok v
  | None => Raise (KeyError k)
  end.

(** [d[k] = v]: an existing key keeps its position, a new key goes last. *)
Fixpoint set {V : Type} (d : t V) (k : string) (v : V) : t V :=
  match d with
  | [] => [(k, v)]
  | (k', v') :: d' =>
      if String.eqb k' k then (k', v) :: d' else (k', v') :: set d' k v
  end.

End Dict.

(* ===================================================================== *)
(** * Final code v4: [format_state], [solve] and [_apply_changes]          *)
(* ===================================================================== *)

Module V4.

(** [@dataclass class Cell].  [solve] and [_apply_changes] only ever store
    [Cell] values in [SystemState.cells]. *)
Record Cell : Type := mkCell {
  id : string;
  content : string;
  references : list string;
  metadata : Dict.t string
}.

(** [@dataclass class SystemState] *)
Record SystemState : Type := mkSystemState {
  cells : Dict.t Cell;
  current_cell_id : option string;
  state_metadata : Dict.t string
}.

(** A configuration dictionary.  A template is modelled by the function
    that [str.format] computes from it, applied to the keyword arguments
    in the order the source passes them. *)
Record Config : Type := mkConfig {
  process_prompt : string;
  state_format_template : string -> string -> string;
  solution_prompt : string -> string;
  current_focus_template : string -> string -> string;
  cell_format_template : string -> string -> string
}.

Definition DEFAULT_SOLVER_CONFIG : Config := {|
  process_prompt := Py.join Py.nl [
    "";
    "        You are a universal problem solver. Here's our suggested process:";
    "";
    "        1. Analyze the problem and break into subproblems if needed";
    "        2. Plan and document your approach";
    "        3. Execute one clear step at a time";
    "        4. Verify results and maintain organization";
    "";
    "        Based on the current state, please:";
    "        1. Analyze the situation";
    "        2. Decide the next step";
    "        3. Specify EXACT changes to make to the system";
    "";
    "        Format your response as:";
    "        REASONING: Your analysis and decision-making process";
    "        CHANGES: List each change in this format:";
    "        - NEW CELL: <content>";
    "        - MODIFY CELL <id>: <new_content>";
    "        - SET CURRENT: <cell_id>";
    "        STATUS: Either " +:+ Py.dquote +:+ "CONTINUE" +:+ Py.dquote
      +:+ " or " +:+ Py.dquote +:+ "SOLVED" +:+ Py.dquote;
    "";
    "        Be precise - your changes will be applied exactly as specified.";
    "    " ];
  state_format_template := fun current_focus all_cells => Py.join Py.nl [
    "";
    "        CURRENT SYSTEM STATE";
    "        ===================";
    "        " +:+ current_focus;
    "        ";
    "        ALL CELLS:";
    "        " +:+ all_cells;
    "    " ];
  solution_prompt := fun state => Py.join Py.nl [
    "";
    "        Based on the final state:";
    "        " +:+ state;
    "        ";
    "        Please provide the complete solution in a clear format.";
    "    " ];
  current_focus_template := fun cell_id content => Py.join Py.nl [
    "";
    "        CURRENT FOCUS:";
    "        Cell " +:+ cell_id +:+ ":";
    "        " +:+ content;
    "    " ];
  cell_format_template := fun cell_id content => Py.join Py.nl [
    "";
    "        Cell " +:+ cell_id +:+ ":";
    "        " +:+ content;
    "    " ]
|}.

(** The truth value of an [Optional[str]]. *)
Definition truthy (o : option string) : bool :=
  match o with
  | Some s => negb (String.eqb s "")
  | None => false
  end.

(** [cell_id != state.current_cell_id] *)
Definition differs (cell_id : string) (o : option string) : bool :=
  match o with
  | Some s => negb (String.eqb cell_id s)
  | None => true
  end.

Definition format_state (state : SystemState) (config : Config) : string :=
  let current_focus :=
    match current_cell_id state with
    | Some cid =>
        if truthy (Some cid) then
          match Dict.get (cells state) cid with
          | Some current => current_focus_template config cid (content current)
          | None => ""
          end
        else ""
    | None => ""
    end in
  let all_cells :=
    map (fun kv => cell_format_template config (fst kv) (content (snd kv)))
        (filter (fun kv => differs (fst kv) (current_cell_id state))
                (cells state)) in
  state_format_template config current_focus (Py.join Py.nl all_cells).

Definition set_content (c : Cell) (new_content : string) : Cell :=
  mkCell (id c) new_content (references c) (metadata c).

Definition set_cells (s : SystemState) (d : Dict.t Cell) : SystemState :=
  mkSystemState d (current_cell_id s) (state_metadata s).

Definition set_current (s : SystemState) (cell_id : string) : SystemState :=
  mkSystemState (cells s) (Some cell_id) (state_metadata s).

(** The lines of a response that [_apply_changes] looks at. *)
Definition is_change (line : string) : bool :=
  Py.startswith (Py.strip line) "-" || Py.startswith (Py.strip line) "SET".

Definition changes_of (response : string) : list string :=
  map Py.strip (filter is_change (Py.split_char "010" response)).

(** A change that names a cell the state does not have: a well-formed
    [- MODIFY CELL] line or a [SET CURRENT:] line whose id is no key of
    [cells]. *)
Definition names_missing_id (state : SystemState) (change : string) : bool :=
  if Py.startswith change "- NEW CELL:" then false
  else if Py.startswith change "- MODIFY CELL" then
    match Py.index (Py.split_ws change) 3, Py.split1_1 ":" change with
    | Ok cell_id, Ok _ => negb (Dict.mem (cells state) cell_id)
    | _, _ => false
    end
  else if Py.startswith change "SET CURRENT:" then
    match Py.split1_1 ":" change with
    | Ok after => negb (Dict.mem (cells state) (Py.strip after))
    | Raise _ => false
    end
  else false.

(** A [- MODIFY CELL] line on which [_apply_changes] has nothing to index:
    fewer than four words, or no colon. *)
Definition malformed (change : string) : bool :=
  negb (Py.startswith change "- NEW CELL:")
  && Py.startswith change "- MODIFY CELL"
  && match Py.index (Py.split_ws change) 3, Py.split1_1 ":" change with
     | Ok _, Ok _ => false
     | _, _ => true
     end.

(** The focus, when there is one, is the id of a cell. *)
Definition valid (state : SystemState) : bool :=
  match current_cell_id state with
  | Some cell_id => Dict.mem (cells state) cell_id
  | None => true
  end.

(** The naming policy [CaseInsensitiveNormalize] of the specification:
    letters in lower case, spaces and underscores dropped.  No function
    of the code computes it. *)
Definition lower_char (c : ascii) : ascii :=
  let n := nat_of_ascii c in
  if (65 <=? n) && (n <=? 90) then ascii_of_nat (n + 32) else c.

Fixpoint normalize (name : string) : string :=
  match name with
  | EmptyString => EmptyString
  | String c rest =>
      if Ascii.eqb c " " || Ascii.eqb c "_" then normalize rest
      else String (lower_char c) (normalize rest)
  end.

(** The number of cells whose text is [name] up to normalization. *)
Definition count_named (name : string) (state : SystemState) : nat :=
  length (filter (fun kv => String.eqb (normalize (content (snd kv)))
                                       (normalize name))
                 (cells state)).

(** A change that creates a cell. *)
Definition is_new_cell (change : string) : bool :=
  Py.startswith change "- NEW CELL:".

(** The keys of [state.cells], in the order of the dictionary. *)
Definition keys (state : SystemState) : list string := map fst (cells state).

(** Every cell is stored under its own [id]. *)
Definition ids_match (state : SystemState) : bool :=
  forallb (fun kv => String.eqb (fst kv) (id (snd kv))) (cells state).

(** An id without white space and without a colon, as [solve] and
    [uuid4] make them. *)
Fixpoint plain_id (s : string) : bool :=
  match s with
  | EmptyString => true
  | String c s' => negb (Py.isspace c) && negb (Ascii.eqb c ":") && plain_id s'
  end.

Section Solver.

(** The language model: an external collaborator with a state of its
    own, asked through [get_completion]. *)
Variable LLM : Type.
Variable get_completion : LLM -> string -> string * LLM.

(** [str(uuid.uuid4())]: the [n]-th identifier drawn in a run. *)
Variable uuid4 : nat -> string.

Variable config : Config.

(** What a run of the solver carries besides the document: the model
    and the number of identifiers drawn so far. *)
Record World : Type := mkWorld {
  llm : LLM;
  drawn : nat
}.

(** The body of the loop of [_apply_changes] on one change line; [acc]
    is the number of identifiers drawn and [new_state]. *)
Definition apply_change (acc : nat * SystemState) (change : string)
  : result (nat * SystemState) :=
  let (n, new_state) := acc in
  if Py.startswith change "- NEW CELL:" then
    let cell_id := uuid4 n in
    do after <- Py.split1_1 ":" change;
    let content := Py.strip after in
    Ok (S n, set_cells new_state
               (Dict.set (cells new_state) cell_id
                  (mkCell cell_id content [] [])))
  else if Py.startswith change "- MODIFY CELL" then
    do cell_id <- Py.index (Py.split_ws change) 3;
    do after <- Py.split1_1 ":" change;
    let content := Py.strip after in
    match Dict.get (cells new_state) cell_id with
    | Some c =>
        Ok (n, set_cells new_state
                 (Dict.set (cells new_state) cell_id (set_content c content)))
    | None => Ok (n, new_state)
    end
  else if Py.startswith change "SET CURRENT:" then
    do after <- Py.split1_1 ":" change;
    let cell_id := Py.strip after in
    if Dict.mem (cells new_state) cell_id
    then Ok (n, set_current new_state cell_id)
    else Ok (n, new_state)
  else Ok (n, new_state).

(** [for change in changes: ...] *)
Fixpoint apply_loop (changes : list string) (acc : nat * SystemState)
  : result (nat * SystemState) :=
  match changes with
  | [] => Ok acc
  | change :: rest =>
      do acc' <- apply_change acc change;
      apply_loop rest acc'
  end.

(** [_apply_changes]: on values, [deepcopy(state)] is [state]. *)
Definition _apply_changes (n : nat) (state : SystemState) (response : string)
  : result (nat * SystemState) :=
  apply_loop (changes_of response) (n, state).

Definition _get_solution (w : World) (state : SystemState) : string * World :=
  let state_description := format_state state config in
  let (answer, l) :=
    get_completion (llm w) (solution_prompt config state_description) in
  (answer, mkWorld l (drawn w)).

(** The state [solve] starts from. *)
Definition initial_state (query : string) : SystemState :=
  mkSystemState [("initial", mkCell "initial" query [] [])]
                (Some "initial") [].

(** The prompt of one iteration. *)
Definition iteration_prompt (state : SystemState) : string :=
  process_prompt config +:+ Py.nl +:+ Py.nl +:+ "Current State:" +:+ Py.nl
  +:+ format_state state config.

(** One pass through the body of [while True]. *)
Inductive step : Type :=
| Break (w : World) (state : SystemState)
| Continue (w : World) (state : SystemState)
| Fail (e : exn).

Definition solve_step (w : World) (state : SystemState) : step :=
  let (response, l) := get_completion (llm w) (iteration_prompt state) in
  if Py.contains "STATUS: SOLVED" response then
    Break (mkWorld l (drawn w)) state
  else
    match _apply_changes (drawn w) state response with
    | Ok (n, state') => Continue (mkWorld l n) state'
    | Raise e => Fail e
    end.

Fixpoint solve_loop (fuel : nat) (w : World) (state : SystemState)
  : outcome (string * World) :=
  match fuel with
  | 0 => OutOfFuel
  | S fuel' =>
      match solve_step w state with
      | Break w' state' => Returned (_get_solution w' state')
      | Continue w' state' => solve_loop fuel' w' state'
      | Fail e => Raised e
      end
  end.

Definition solve (fuel : nat) (w : World) (query : string)
  : outcome (string * World) :=
  solve_loop fuel w (initial_state query).

(** Where the loop stands after [k] passes that all continue. *)
Fixpoint iterate (k : nat) (w : World) (state : SystemState)
  : option (World * SystemState) :=
  match k with
  | 0 => Some (w, state)
  | S k' =>
      match solve_step w state with
      | Continue w' state' => iterate k' w' state'
      | _ => None
      end
  end.

End Solver.

End V4.

(* ===================================================================== *)
(** * Final code v4: [format_state] on cells and nested states             *)
(* ===================================================================== *)

(** [SystemState.cells] is declared [Dict[str, Union[Cell, 'SystemState']]].
    [solve] and [_apply_changes] store [Cell] objects only, and [V4] has
    the states they build; [format_state] also provides for an entry
    that is a nested state, and is modelled here on the declared type. *)
Module V4Nested.
Import V4.

Local Unset Elimination Schemes.
Inductive SystemState : Type :=
  mkSystemState (cells : list (string * (Cell + SystemState)))
                (current_cell_id : option string)
                (metadata : Dict.t string).
Local Set Elimination Schemes.

Definition cells (s : SystemState) : Dict.t (Cell + SystemState) :=
  match s with mkSystemState c _ _ => c end.
Definition current_cell_id (s : SystemState) : option string :=
  match s with mkSystemState _ f _ => f end.
Definition state_metadata (s : SystemState) : Dict.t string :=
  match s with mkSystemState _ _ m => m end.

(** [cell.content if isinstance(cell, Cell) else "[Subsystem]"] *)
Definition shown (entry : Cell + SystemState) : string :=
  match entry with
  | inl cell => content cell
  | inr _ => "[Subsystem]"
  end.

(** [format_state].  In the block of the focus, [current.content] is
    read whatever [current] is: a nested state has no such attribute. *)
Definition format_state (state : SystemState) (config : Config)
  : result string :=
  do current_focus <-
    match current_cell_id state with
    | Some cid =>
        if truthy (Some cid) then
          match Dict.get (cells state) cid with
          | Some (inl current) =>
              Ok (current_focus_template config cid (content current))
          | Some (inr _) => Raise (AttributeError "content")
          | None => Ok ""
          end
        else Ok ""
    | None => Ok ""
    end;
  let all_cells :=
    map (fun kv => cell_format_template config (fst kv) (shown (snd kv)))
        (filter (fun kv => differs (fst kv) (current_cell_id state))
                (cells state)) in
  Ok (state_format_template config current_focus (Py.join Py.nl all_cells)).


(** A state of [V4], all of whose entries are [Cell] objects. *)
Definition of_cells (s : V4.SystemState) : SystemState :=
  mkSystemState (map (fun kv => (fst kv, inl (snd kv))) (V4.cells s))
                (V4.current_cell_id s) (V4.state_metadata s).

End V4Nested.

(* ===================================================================== *)
(** * [_apply_changes] of v4 on a store of objects                         *)
(* ===================================================================== *)

(** [_apply_changes] copies its argument with [deepcopy] and then assigns
    to attributes and dictionary entries of the copy.  Here the objects
    live in a store and a state is a reference into it, so that "the
    object the caller holds" and "the object that is returned" can be told
    apart.  The lists and dictionaries inside a [Cell] ([references],
    [metadata]) and [SystemState.metadata] are never written by this code
    and are kept by value inside their owner. *)
Module V4Store.
Import V4.

Definition loc : Type := nat.

Inductive obj : Type :=
| OCell (c : Cell)
| OCells (entries : Dict.t loc)
| OState (cells_ref : loc) (current : option string) (meta : Dict.t string).

Definition store : Type := list obj.

(** A new object goes to the end of the store. *)
Definition alloc (h : store) (o : obj) : store * loc :=
  (h ++ [o], length h).

(** Assignment to an object that exists. *)
Fixpoint write (h : store) (l : loc) (o : obj) : store :=
  match h, l with
  | [], _ => []
  | _ :: h', 0 => o :: h'
  | x :: h', S l' => x :: write h' l' o
  end.

(** The memo dictionary of [deepcopy]: an object is copied once. *)
Fixpoint memo_get (memo : list (loc * loc)) (l : loc) : option loc :=
  match memo with
  | [] => None
  | (old, new) :: memo' => if old =? l then Some new else memo_get memo' l
  end.

(** [deepcopy] of the entries of [state.cells].  [None] stands for a
    store that holds no [Cell] where the dictionary refers to one, which
    a Python heap cannot do. *)
Fixpoint deepcopy_cells (h : store) (memo : list (loc * loc))
         (entries : Dict.t loc)
  : option (store * list (loc * loc) * Dict.t loc) :=
  match entries with
  | [] => Some (h, memo, [])
  | (k, l) :: rest =>
      match memo_get memo l with
      | Some l' =>
          match deepcopy_cells h memo rest with
          | Some (h', memo', rest') => Some (h', memo', (k, l') :: rest')
          | None => None
          end
      | None =>
          match nth_error h l with
          | Some (OCell c) =>
              let (h1, l') := alloc h (OCell c) in
              match deepcopy_cells h1 ((l, l') :: memo) rest with
              | Some (h', memo', rest') => Some (h', memo', (k, l') :: rest')
              | None => None
              end
          | _ => None
          end
      end
  end.

(** [deepcopy(state)] *)
Definition deepcopy (h : store) (state : loc) : option (store * loc) :=
  match nth_error h state with
  | Some (OState d current meta) =>
      match nth_error h d with
      | Some (OCells entries) =>
          match deepcopy_cells h [] entries with
          | Some (h1, _, entries') =>
              let (h2, d') := alloc h1 (OCells entries') in
              let (h3, state') := alloc h2 (OState d' current meta) in
              Some (h3, state')
          | None => None
          end
      | _ => None
      end
  | _ => None
  end.

Section Apply.

Variable uuid4 : nat -> string.

(** The body of the loop of [_apply_changes]; [new_state] is the
    reference held in the local variable of that name. *)
Definition apply_change (h : store) (n : nat) (new_state : loc)
           (change : string) : option (store * result nat) :=
  match nth_error h new_state with
  | Some (OState d current meta) =>
      match nth_error h d with
      | Some (OCells entries) =>
          if Py.startswith change "- NEW CELL:" then
            let cell_id := uuid4 n in
            match Py.split1_1 ":" change with
            | Raise e => Some (h, Raise e)
            | Ok after =>
                let content := Py.strip after in
                let (h1, c) := alloc h (OCell (mkCell cell_id content [] [])) in
                Some (write h1 d (OCells (Dict.set entries cell_id c)),
                      Ok (S n))
            end
          else if Py.startswith change "- MODIFY CELL" then
            match Py.index (Py.split_ws change) 3 with
            | Raise e => Some (h, Raise e)
            | Ok cell_id =>
                match Py.split1_1 ":" change with
                | Raise e => Some (h, Raise e)
                | Ok after =>
                    let content := Py.strip after in
                    match Dict.get entries cell_id with
                    | Some c =>
                        match nth_error h c with
                        | Some (OCell cell) =>
                            Some (write h c (OCell (set_content cell content)),
                                  Ok n)
                        | _ => None
                        end
                    | None => Some (h, Ok n)
                    end
                end
            end
          else if Py.startswith change "SET CURRENT:" then
            match Py.split1_1 ":" change with
            | Raise e => Some (h, Raise e)
            | Ok after =>
                let cell_id := Py.strip after in
                if Dict.mem entries cell_id
                then Some (write h new_state (OState d (Some cell_id) meta),
                           Ok n)
                else Some (h, Ok n)
            end
          else Some (h, Ok n)
      | _ => None
      end
  | _ => None
  end.

Fixpoint apply_loop (h : store) (n : nat) (new_state : loc)
         (changes : list string) : option (store * result nat) :=
  match changes with
  | [] => Some (h, Ok n)
  | change :: rest =>
      match apply_change h n new_state change with
      | Some (h', Ok n') => apply_loop h' n' new_state rest
      | other => other
      end
  end.

(** [_apply_changes(state, response)]: the store afterwards, and the
    returned reference or the exception. *)
Definition _apply_changes (h : store) (n : nat) (state : loc)
           (response : string) : option (store * result (nat * loc)) :=
  match deepcopy h state with
  | Some (h1, new_state) =>
      match apply_loop h1 n new_state (changes_of response) with
      | Some (h2, Ok n') => Some (h2, Ok (n', new_state))
      | Some (h2, Raise e) => Some (h2, Raise e)
      | None => None
      end
  | None => None
  end.

End Apply.

(** The value an object graph stands for. *)
Fixpoint view_cells (h : store) (entries : Dict.t loc) : option (Dict.t Cell) :=
  match entries with
  | [] => Some []
  | (k, l) :: rest =>
      match nth_error h l, view_cells h rest with
      | Some (OCell c), Some rest' => Some ((k, c) :: rest')
      | _, _ => None
      end
  end.

Definition view (h : store) (state : loc) : option SystemState :=
  match nth_error h state with
  | Some (OState d current meta) =>
      match nth_error h d with
      | Some (OCells entries) =>
          match view_cells h entries with
          | Some cs => Some (mkSystemState cs current meta)
          | None => None
          end
      | _ => None
      end
  | _ => None
  end.

(** The references a state reaches: itself, its dictionary, its cells. *)
Definition reachable (h : store) (state : loc) : list loc :=
  match nth_error h state with
  | Some (OState d _ _) =>
      match nth_error h d with
      | Some (OCells entries) => state :: d :: map snd entries
      | _ => [state; d]
      end
  | _ => [state]
  end.



(** [h'] holds every object of [h], unchanged, and maybe more. *)
Definition extends (h h' : store) : Prop := exists ext, h' = h ++ ext.

(** Every reference in [entries] was allocated after [h0]. *)
Definition new_in (h0 : store) (entries : Dict.t loc) : Prop :=
  Forall (fun e => length h0 <= snd e) entries.

(** What the memo dictionary holds while [deepcopy] runs: for every
    object met so far, a copy of it allocated after [h0]. *)
Definition memo_ok (h0 h : store) (memo : list (loc * loc)) : Prop :=
  forall l l', memo_get memo l = Some l' ->
    length h0 <= l' /\
    exists c, nth_error h l = Some (OCell c) /\ nth_error h l' = Some (OCell c).

(** [state] is a well-formed state of [h] all of whose objects were
    allocated after [h0]. *)
Definition owned (h0 h : store) (state : loc) : Prop :=
  exists d current meta entries cs,
    nth_error h state = Some (OState d current meta) /\
    nth_error h d = Some (OCells entries) /\
    view_cells h entries = Some cs /\
    length h0 <= state /\ length h0 <= d /\ new_in h0 entries.

(** The store holds the value [st] at [state], every cell under a
    reference of its own. *)
Definition holds (h : store) (state : loc) (st : SystemState) : Prop :=
  exists d entries,
    nth_error h state = Some (OState d (current_cell_id st) (state_metadata st)) /\
    nth_error h d = Some (OCells entries) /\
    view_cells h entries = Some (cells st) /\
    NoDup (map snd entries).

(** The store in which [solve] holds its first state. *)
Definition initial_store (query : string) : store :=
  [OCell (mkCell "initial" query [] []);
   OCells [("initial", 0)];
   OState 1 (Some "initial") []].

End V4Store.

(* ===================================================================== *)
(** * Final code v10: [solve] with its correction and fallback prompts     *)
(* ===================================================================== *)

Module V10.

(** [@dataclass class SystemState]: "Simple container for cells and
    current focus". *)
Record SystemState : Type := mkSystemState {
  cells : Dict.t string;
  current_cell_id : option string
}.

(** The configuration dictionary: its four keys.  A template is modelled
    by the function [str.format] computes from it. *)
Record Config : Type := mkConfig {
  main_prompt : string;
  correction_prompt : string -> string -> string;
  fallback_prompt : string;
  solution_prompt : string -> string
}.

Definition DEFAULT_SOLVER_CONFIG : Config := {|
  main_prompt := Py.join Py.nl [
    "";
    "        You are a universal problem solver. Examine the current state and either:";
    "        1. Say 'SOLVED' and give the solution if the problem is solved";
    "        2. Specify the exact next state needed to make progress";
    "";
    "        When specifying a state:";
    "        - Start with 'NEXT STATE:'";
    "        - List each cell as 'CELL: <content>'";
    "        - Mark the current focus with 'CURRENT CELL: <content>'";
    "        - End with 'END STATE'";
    "";
    "        Include your reasoning before specifying the state.";
    "    " ];
  correction_prompt := fun response issues => Py.join Py.nl [
    "";
    "        I couldn't understand the state specification in your response:";
    "        " +:+ response;
    "        Please provide the next state using this exact format:";
    "        NEXT STATE:";
    "        CELL: <first cell content>";
    "        CELL: <second cell content>";
    "        CURRENT CELL: <current focus content>";
    "        END STATE";
    "        Previous response formatting issues: " +:+ issues;
    "    " ];
  fallback_prompt := Py.join Py.nl [
    "";
    "        Please just list the cells for the next state, one per line, ";
    "        and mark one as current. Nothing else.";
    "    " ];
  solution_prompt := fun state => Py.join Py.nl [
    "";
    "        Based on the final state:";
    "        " +:+ state;
    "        Please provide the complete solution in a clear format.";
    "    " ]
|}.

(** What [_try_parse_state] returns: [(True, state)] or
    [(False, issues)]. *)
Inductive parse_result : Type :=
| Parsed (state : SystemState)
| Unparsed (issues : string).

(** [cid == state.current_cell_id] *)
Definition is_current (cid : string) (o : option string) : bool :=
  match o with
  | Some s => String.eqb cid s
  | None => false
  end.

Definition _format_state (state : SystemState) : string :=
  Py.join Py.nl
    (map (fun kv =>
            Py.nl +:+ "Cell " +:+ fst kv
            +:+ (if is_current (fst kv) (current_cell_id state)
                 then " (CURRENT)" else "")
            +:+ ":" +:+ Py.nl +:+ snd kv)
         (cells state)).

Section Solver.

Variable LLM : Type.
Variable get_completion : LLM -> string -> string * LLM.
Variable config : Config.

(** The two methods the listing of the class leaves out
    ("rest of UniversalSolver implementation"). *)
Variable _try_parse_state : string -> parse_result.
Variable _create_fallback_state : SystemState -> string -> SystemState.

Definition initial_state (query : string) : SystemState :=
  mkSystemState [("initial", query)] (Some "initial").

Definition iteration_prompt (state : SystemState) : string :=
  main_prompt config +:+ Py.nl +:+ "Current state:" +:+ Py.nl
  +:+ _format_state state.

(** One pass through the body of [while True]. *)
Inductive step : Type :=
| Return (response : string) (l : LLM)
| Continue (l : LLM) (state : SystemState).

Definition solve_step (l : LLM) (state : SystemState) : step :=
  let (response, l1) := get_completion l (iteration_prompt state) in
  if Py.contains "SOLVED" (Py.upper response) then Return response l1
  else
    match _try_parse_state response with
    | Parsed result => Continue l1 result
    | Unparsed result =>
        let (correction_response, l2) :=
          get_completion l1 (correction_prompt config response result) in
        match _try_parse_state correction_response with
        | Parsed result => Continue l2 result
        | Unparsed _ =>
            let (final_response, l3) :=
              get_completion l2 (fallback_prompt config) in
            match _try_parse_state final_response with
            | Parsed result => Continue l3 result
            | Unparsed _ =>
                Continue l3 (_create_fallback_state state response)
            end
        end
    end.

Fixpoint solve_loop (fuel : nat) (l : LLM) (state : SystemState)
  : outcome (string * LLM) :=
  match fuel with
  | 0 => OutOfFuel
  | S fuel' =>
      match solve_step l state with
      | Return response l' => Returned (response, l')
      | Continue l' state' => solve_loop fuel' l' state'
      end
  end.

Definition solve (fuel : nat) (l : LLM) (query : string)
  : outcome (string * LLM) :=
  solve_loop fuel l (initial_state query).

(** The state a pass continues with after the fallback prompt. *)
Definition after_fallback (state : SystemState)
           (response final_response : string) : SystemState :=
  match _try_parse_state final_response with
  | Parsed result => result
  | Unparsed _ => _create_fallback_state state response
  end.

End Solver.

(** The focus, when there is one, is the id of a cell. *)
Definition valid (state : SystemState) : bool :=
  match current_cell_id state with
  | Some cell_id => Dict.mem (cells state) cell_id
  | None => true
  end.

(** Modelled from the spec: [_create_fallback_state] is not in the listing
    of the class.  The give-up tier of the specification appends the raw
    unparseable response as a section named [Unparsed_Response] and leaves
    the focus unchanged. *)
Definition give_up_state (state : SystemState) (response : string)
  : SystemState :=
  mkSystemState (Dict.set (cells state) "Unparsed_Response" response)
                (current_cell_id state).

(** The option [max_correction_attempts] of the specification, "default
    2": the number of correction prompts before the fallback prompt.
    The configuration dictionary of the code has no such key. *)
Definition spec_max_correction_attempts : nat := 2.

End V10.

(** A model together with the list of the prompts it has been sent. *)
Definition logged {LLM : Type} (get_completion : LLM -> string -> string * LLM)
  : LLM * list string -> string -> string * (LLM * list string) :=
  fun st prompt =>
    let (answer, l) := get_completion (fst st) prompt in
    (answer, (l, snd st ++ [prompt])).

(* ===================================================================== *)
(** * Final code functional: [parse_state]                                 *)
(* ===================================================================== *)

Module Functional.

Inductive TaskStatus : Type := PENDING | IN_PROGRESS | COMPLETED | BLOCKED.

(** [@dataclass(frozen=True) class Task] *)
Record Task : Type := mkTask {
  description : string;
  priority : Z;
  status : TaskStatus;
  dependencies : list string;
  created_at : string
}.

Section Parser.

(** The values [json.loads] returns. *)
Variable Json : Type.

(** [json.loads]: the value, or the text of the [JSONDecodeError]. *)
Variable json_loads : string -> string + Json.

(** The three statements that build the task from the parsed
    arguments ([tools["create_task"](args)],
    [json.loads(result)["task"]], the call of [Task] on that dictionary):
    the task and
    the tool's result, or the text [str(e)] of the [Exception] they
    raise. *)
Variable create_task : Json -> string + (Task * string).

(** [str(uuid.uuid4())]: the [n]-th identifier drawn. *)
Variable uuid4 : nat -> string.

(** [@dataclass(frozen=True) class ToolCall] *)
Record ToolCall : Type := mkToolCall {
  tool_name : string;
  arguments : Dict.t Json
}.

Inductive Content : Type :=
| Text (s : string)
| Tool (t : ToolCall)
| ATask (t : Task).

(** [@dataclass(frozen=True) class CellContent] *)
Record CellContent : Type := mkCellContent {
  content : Content;
  result_text : option string
}.

(** The local variables of [parse_state] that its loop assigns:
    [cells], and [cell_id], which is unbound ([None]) until a [TASK:]
    line binds it; [drawn] counts the identifiers drawn. *)
Record locals : Type := mkLocals {
  cells : Dict.t CellContent;
  cell_id : option string;
  drawn : nat
}.

Definition error_cell (message : string) : CellContent :=
  mkCellContent (Text ("Error creating task: " +:+ message)) None.

(** [except Exception as e: cells[cell_id] = CellContent(...)] *)
Definition handler (st : locals) (message : string) : result locals :=
  match cell_id st with
  | Some k =>
      Ok (mkLocals (Dict.set (cells st) k (error_cell message))
                   (cell_id st) (drawn st))
  | None => Raise (UnboundLocalError "cell_id")
  end.

(** The [try] statement of the [TASK:] branch. *)
Definition task_line (st : locals) (line : string) : result locals :=
  match Py.split1_1 "{" line with
  | Raise _ => handler st "list index out of range"
  | Ok after =>
      let args_str := "{" +:+ after in
      match json_loads args_str with
      | inl message => handler st message
      | inr args =>
          let k := uuid4 (drawn st) in
          let st1 := mkLocals (cells st) (Some k) (S (drawn st)) in
          match create_task args with
          | inl message => handler st1 message
          | inr (task, result) =>
              Ok (mkLocals
                    (Dict.set (cells st1) k
                       (mkCellContent (ATask task) (Some result)))
                    (cell_id st1) (drawn st1))
          end
      end
  end.

(** The body of [for line in state_text.split('\n')]. *)
Definition parse_line (st : locals) (line : string) : result locals :=
  if String.eqb (Py.strip line) "" then Ok st
  else
    let line := Py.strip line in
    if Py.startswith line "TASK:" then task_line st line
    else if Py.startswith line "TOOL:" then Ok st
    else if Py.startswith line "CELL:" || Py.startswith line "CURRENT CELL:"
         then Ok st
    else Ok st.

Fixpoint parse_lines (lines : list string) (st : locals) : result locals :=
  match lines with
  | [] => Ok st
  | line :: rest =>
      do st' <- parse_line st line;
      parse_lines rest st'
  end.

(** [parts[0]] of [response.split("NEXT STATE:", 1)[1].split("END STATE", 1)] *)
Definition state_text_of (response : string) : result string :=
  do after <- Py.split1_1 "NEXT STATE:" response;
  Ok (Py.split1_0 "END STATE" after).

(** [parse_state].  Its argument [current_state] only reaches
    [get_available_tools], which builds a dictionary of functions and
    cannot fail; it is left out. *)

(** How [parse_state] leaves its listed part: by the early [return] of
    a [Left], or by reaching, after the loop, the part the listing
    leaves out ("Rest of parsing logic remains the same"). *)
Inductive parse_exit : Type :=
| ReturnedLeft (message : string)
| LoopDone (st : locals).

Definition parse_state (n : nat) (response : string) : result parse_exit :=
  if negb (Py.contains "NEXT STATE:" response) then
    Ok (ReturnedLeft "Missing 'NEXT STATE:' marker")
  else
    do state_text <- state_text_of response;
    do st <- parse_lines (Py.split_char "010" state_text) (mkLocals [] None n);
    Ok (LoopDone st).

(** The stripped non-blank lines the loop looks at. *)
Definition is_task_line (line : string) : bool :=
  negb (String.eqb (Py.strip line) "")
  && Py.startswith (Py.strip line) "TASK:".

(** A [TASK:] line whose text after the first brace is not JSON, or
    that has no brace. *)
Definition json_fails (line : string) : bool :=
  match Py.split1_1 "{" (Py.strip line) with
  | Raise _ => true
  | Ok after =>
      match json_loads ("{" +:+ after) with
      | inl _ => true
      | inr _ => false
      end
  end.

End Parser.

End Functional.

(* ===================================================================== *)
(** * LangGraph and LangChain v2: [SystemState] and the graph nodes        *)
(* ===================================================================== *)

Module LangGraph.

Section Graph.

(** The values [json.loads] returns, with [json.loads] itself ([None]
    for a [JSONDecodeError]), their truth value, and
    [content.update(v)] for such a value. *)
Variable Json : Type.
Variable json_loads : string -> option Json.
Variable json_truthy : Json -> bool.
Variable dict_update : Dict.t Json -> Json -> result (Dict.t Json).

(** [@dataclass class ProjectNode].  The nodes in [children] are kept
    by value. *)
Local Unset Elimination Schemes.
Inductive ProjectNode : Type :=
  mkProjectNode (id goal : string) (content : Dict.t Json)
                (summary : string) (children : list (string * ProjectNode))
                (parent_id : option string).
Local Set Elimination Schemes.

Definition id (n : ProjectNode) : string :=
  match n with mkProjectNode i _ _ _ _ _ => i end.
Definition goal (n : ProjectNode) : string :=
  match n with mkProjectNode _ g _ _ _ _ => g end.
Definition content (n : ProjectNode) : Dict.t Json :=
  match n with mkProjectNode _ _ c _ _ _ => c end.
Definition summary (n : ProjectNode) : string :=
  match n with mkProjectNode _ _ _ s _ _ => s end.
Definition children (n : ProjectNode) : list (string * ProjectNode) :=
  match n with mkProjectNode _ _ _ _ ch _ => ch end.
Definition parent_id (n : ProjectNode) : option string :=
  match n with mkProjectNode _ _ _ _ _ p => p end.

Definition set_summary (n : ProjectNode) (s : string) : ProjectNode :=
  mkProjectNode (id n) (goal n) (content n) s (children n) (parent_id n).
Definition set_content (n : ProjectNode) (c : Dict.t Json) : ProjectNode :=
  mkProjectNode (id n) (goal n) c (summary n) (children n) (parent_id n).

(** The value under ["content"] of a ["parsing"] entry: the parsed
    JSON, or the text the model answered to the recovery prompt. *)
Inductive PyValue : Type :=
| Str (s : string)
| Loaded (v : Json).

(** The dictionaries the nodes append to [history]. *)
Inductive HistoryEntry : Type :=
| Analysis (content : string)
| Generation (content : string)
| Parsing (status : string) (content : PyValue).

(** [@dataclass class SystemState] *)
Record SystemState : Type := mkSystemState {
  nodes : Dict.t ProjectNode;
  current_focus_id : string;
  history : list HistoryEntry
}.

(** What a prompt is built from; its text is a function of these. *)
Inductive Prompt : Type :=
| AnalysisPrompt (context : list (string * string)) (goal : string)
                 (content : Dict.t Json)
| GenerationPrompt (goal : string) (content : Dict.t Json)
| RecoveryPrompt (last_generation : string)
| SummaryPrompt (goal : string) (content : Dict.t Json)
                (child_summaries : list string)
| ParentSummaryPrompt (goal : string) (content : Dict.t Json)
                      (child_summaries : list string).

Variable LLM : Type.
Variable predict : LLM -> Prompt -> string * LLM.

(** The truth value of a node id. *)
Definition truthy (node_id : option string) : bool :=
  match node_id with
  | Some s => negb (String.eqb s "")
  | None => false
  end.

Definition get_current_node (state : SystemState) : result ProjectNode :=
  Dict.getitem (nodes state) (current_focus_id state).

(** [while node_id: ...] of [get_path_to_current]; one unit of fuel
    per test of the loop condition. *)
Fixpoint path_loop (fuel : nat) (nds : Dict.t ProjectNode)
         (node_id : option string) (path : list ProjectNode)
  : outcome (list ProjectNode) :=
  match fuel with
  | 0 => OutOfFuel
  | S fuel' =>
      match node_id with
      | Some k =>
          if truthy (Some k) then
            match Dict.get nds k with
            | Some node => path_loop fuel' nds (parent_id node) (path ++ [node])
            | None => Raised (KeyError k)
            end
          else Returned (rev path)
      | None => Returned (rev path)
      end
  end.

Definition get_path_to_current (fuel : nat) (state : SystemState)
  : outcome (list ProjectNode) :=
  path_loop fuel (nodes state) (Some (current_focus_id state)) [].

Definition append_history (state : SystemState) (h : HistoryEntry)
  : SystemState :=
  mkSystemState (nodes state) (current_focus_id state) (history state ++ [h]).

Definition set_nodes (state : SystemState) (nds : Dict.t ProjectNode)
  : SystemState :=
  mkSystemState nds (current_focus_id state) (history state).

Definition _analyze_current_state (fuel : nat) (l : LLM) (state : SystemState)
  : outcome (LLM * SystemState) :=
  match get_current_node state with
  | Raise e => Raised e
  | Ok current =>
      match get_path_to_current fuel state with
      | OutOfFuel => OutOfFuel
      | Raised e => Raised e
      | Returned path =>
          let context := map (fun node => (goal node, summary node)) path in
          let (analysis, l') :=
            predict l (AnalysisPrompt context (goal current) (content current)) in
          Returned (l', append_history state (Analysis analysis))
      end
  end.

Definition _generate_content (l : LLM) (state : SystemState)
  : result (LLM * SystemState) :=
  do current <- get_current_node state;
  let (text, l') :=
    predict l (GenerationPrompt (goal current) (content current)) in
  Ok (l', append_history state (Generation text)).

(** [next((h["content"] for h in reversed(history) if h["type"] == "generation"), None)] *)
Fixpoint last_generation_of (reversed : list HistoryEntry) : option string :=
  match reversed with
  | [] => None
  | Generation text :: _ => Some text
  | _ :: rest => last_generation_of rest
  end.

Fixpoint last_parsed_of (reversed : list HistoryEntry) : option PyValue :=
  match reversed with
  | [] => None
  | Parsing _ v :: _ => Some v
  | _ :: rest => last_parsed_of rest
  end.

Definition _parse_content (l : LLM) (state : SystemState) : LLM * SystemState :=
  match last_generation_of (rev (history state)) with
  | None => (l, state)
  | Some last_generation =>
      if String.eqb last_generation "" then (l, state)
      else
        match json_loads last_generation with
        | Some parsed =>
            (l, append_history state (Parsing "success" (Loaded parsed)))
        | None =>
            let (recovery, l') := predict l (RecoveryPrompt last_generation) in
            (l', append_history state (Parsing "recovered" (Str recovery)))
        end
  end.

Definition value_truthy (v : PyValue) : bool :=
  match v with
  | Str s => negb (String.eqb s "")
  | Loaded j => json_truthy j
  end.

(** [current.content.update(last_parsed)]: a non-empty [str] is not a
    sequence of pairs. *)
Definition update (c : Dict.t Json) (v : PyValue) : result (Dict.t Json) :=
  match v with
  | Str EmptyString => Ok c
  | Str _ => Raise ValueError
  | Loaded j => dict_update c j
  end.

Definition _update_structure (state : SystemState) : result SystemState :=
  match last_parsed_of (rev (history state)) with
  | Some last_parsed =>
      if value_truthy last_parsed then
        do current <- get_current_node state;
        do c <- update (content current) last_parsed;
        Ok (set_nodes state
              (Dict.set (nodes state) (current_focus_id state)
                 (set_content current c)))
      else Ok state
  | None => Ok state
  end.

Definition child_summaries (n : ProjectNode) : list string :=
  map (fun c => summary (snd c)) (children n).

(** [while node_id: ...] of [_propagate_summaries]. *)
Fixpoint propagate_loop (fuel : nat) (l : LLM) (nds : Dict.t ProjectNode)
         (node_id : option string) : outcome (LLM * Dict.t ProjectNode) :=
  match fuel with
  | 0 => OutOfFuel
  | S fuel' =>
      match node_id with
      | Some k =>
          if truthy (Some k) then
            match Dict.get nds k with
            | Some parent =>
                let (parent_summary, l') :=
                  predict l (ParentSummaryPrompt (goal parent) (content parent)
                               (child_summaries parent)) in
                propagate_loop fuel' l'
                  (Dict.set nds k (set_summary parent parent_summary))
                  (parent_id parent)
            | None => Raised (KeyError k)
            end
          else Returned (l, nds)
      | None => Returned (l, nds)
      end
  end.

Definition _propagate_summaries (fuel : nat) (l : LLM) (state : SystemState)
  : outcome (LLM * SystemState) :=
  match get_current_node state with
  | Raise e => Raised e
  | Ok current =>
      let (s, l') :=
        predict l (SummaryPrompt (goal current) (content current)
                     (child_summaries current)) in
      let nds :=
        Dict.set (nodes state) (current_focus_id state) (set_summary current s) in
      match propagate_loop fuel l' nds (parent_id current) with
      | Returned (l'', nds') => Returned (l'', set_nodes state nds')
      | Raised e => Raised e
      | OutOfFuel => OutOfFuel
      end
  end.

(** One pass along the edges of [_create_graph]: analyze_state,
    generate_content, parse_content, update_structure,
    propagate_summaries. *)
Definition iteration (fuel : nat) (l : LLM) (state : SystemState)
  : outcome (LLM * SystemState) :=
  match _analyze_current_state fuel l state with
  | Returned (l1, s1) =>
      match _generate_content l1 s1 with
      | Ok (l2, s2) =>
          let (l3, s3) := _parse_content l2 s2 in
          match _update_structure s3 with
          | Ok s4 => _propagate_summaries fuel l3 s4
          | Raise e => Raised e
          end
      | Raise e => Raised e
      end
  | Raised e => Raised e
  | OutOfFuel => OutOfFuel
  end.

Definition create_project (goal : string) : SystemState :=
  mkSystemState [("root", mkProjectNode "root" goal [] "" [] None)] "root" [].

(** The node id the walk of [get_path_to_current] holds after [n]
    passes through its loop, all of them on nodes that exist. *)
Fixpoint walk (nds : Dict.t ProjectNode) (start : option string) (n : nat)
  : option string :=
  match n with
  | 0 => if truthy start then start else None
  | S n' =>
      match walk nds start n' with
      | Some k =>
          match Dict.get nds k with
          | Some node => if truthy (parent_id node) then parent_id node else None
          | None => None
          end
      | None => None
      end
  end.

(** The chain of parents from [start] comes back to a node it has
    been at. *)
Definition cyclic (nds : Dict.t ProjectNode) (start : option string) : Prop :=
  exists i j k, i < j /\ walk nds start i = Some k /\ walk nds start j = Some k.

(** [visited] lists the nodes met from [node_id] upwards along
    [parent_id], up to a node that has no parent. *)
Fixpoint chain (nds : Dict.t ProjectNode) (node_id : option string)
         (visited : list ProjectNode) : Prop :=
  match visited with
  | [] => truthy node_id = false
  | node :: rest =>
      exists k, node_id = Some k /\ truthy (Some k) = true /\
                Dict.get nds k = Some node /\
                chain nds (parent_id node) rest
  end.

(** Two nodes with the same id, goal and parent. *)
Definition same_place (a b : ProjectNode) : Prop :=
  id a = id b /\ goal a = goal b /\ parent_id a = parent_id b.

(** [nds'] has the keys of [nds], in the same order, and each of its
    nodes has the id, the goal and the parent of the node [nds] holds
    under that key. *)
Definition same_tree (nds nds' : Dict.t ProjectNode) : Prop :=
  map fst nds' = map fst nds /\
  forall k n',
    Dict.get nds' k = Some n' ->
    exists n, Dict.get nds k = Some n /\ same_place n n'.

End Graph.

End LangGraph.

(* ===================================================================== *)
(** * Final code functional: the tasks of a state                          *)
(* ===================================================================== *)

Module FunctionalTasks.
Import Functional.

(** [@dataclass(frozen=True) class CellRelations] *)
Record CellRelations : Type := mkCellRelations {
  parent_id : option string;
  child_ids : list string;
  reference_ids : list string
}.

(** [a == b] on [TaskStatus]. *)
Definition status_eqb (a b : TaskStatus) : bool :=
  match a, b with
  | PENDING, PENDING | IN_PROGRESS, IN_PROGRESS
  | COMPLETED, COMPLETED | BLOCKED, BLOCKED => true
  | _, _ => false
  end.

Section State.

Variable Json : Type.

(** [@dataclass(frozen=True) class SystemState] *)
Record SystemState : Type := mkSystemState {
  cells : Dict.t (CellContent Json);
  relations : Dict.t CellRelations;
  current_cell_id : option string
}.

(** The dictionary comprehension of [get_tasks]. *)
Fixpoint tasks_of (cs : Dict.t (CellContent Json)) : Dict.t Task :=
  match cs with
  | [] => []
  | (cell_id, cell) :: rest =>
      match content cell with
      | ATask _ t => (cell_id, t) :: tasks_of rest
      | _ => tasks_of rest
      end
  end.

Definition get_tasks (state : SystemState) : Dict.t Task :=
  tasks_of (cells state).

(** [dep in tasks and tasks[dep].status == TaskStatus.COMPLETED] *)
Definition dependency_met (tasks : Dict.t Task) (dep : string) : bool :=
  match Dict.get tasks dep with
  | Some t => status_eqb (status t) COMPLETED
  | None => false
  end.

Definition get_next_tasks (state : SystemState) : list (string * Task) :=
  let tasks := get_tasks state in
  filter (fun kv =>
            status_eqb (status (snd kv)) PENDING
            && forallb (dependency_met tasks) (dependencies (snd kv)))
         tasks.

(** The dictionary that [list_tasks] hands to [json.dumps]. *)
Record TaskReport : Type := mkTaskReport {
  pending : nat;
  in_progress : nat;
  completed : nat;
  next_up : list string
}.

Definition count_status (s : TaskStatus) (tasks : Dict.t Task) : nat :=
  length (filter (fun kv => status_eqb (status (snd kv)) s) tasks).

Definition list_tasks (state : SystemState) : TaskReport :=
  let tasks := get_tasks state in
  mkTaskReport (count_status PENDING tasks)
               (count_status IN_PROGRESS tasks)
               (count_status COMPLETED tasks)
               (map (fun kv => description (snd kv)) (get_next_tasks state)).

End State.

End FunctionalTasks.

(* ===================================================================== *)
(** * Models and inputs used in the examples                               *)
(* ===================================================================== *)

Module Demo.

(** The sixteen hexadecimal digits. *)
Definition hex_digit (n : nat) : string :=
  String (ascii_of_nat (if n <? 10 then 48 + n else 87 + n)) EmptyString.

Fixpoint hex (digits n : nat) : string :=
  match digits with
  | 0 => EmptyString
  | S d => hex d (n / 16) +:+ hex_digit (n mod 16)
  end.

(** A sequence of version 4 identifiers, pairwise different. *)
Definition uuid4 (n : nat) : string :=
  "3f2b8c1e-7a4d-4e5f-9b6a-" +:+ hex 12 n.

(** A model that reads its answers from a list, and answers with the
    empty text when the list is used up; [P] is the type of the prompts. *)
Definition script (P : Type) (answers : list string) (prompt : P)
  : string * list string :=
  match answers with
  | a :: rest => (a, rest)
  | [] => (EmptyString, [])
  end.

Definition scripted : list string -> string -> string * list string :=
  @script string.

(** A model that gives the same answer to every prompt. *)
Definition constant (answer : string) (l : unit) (prompt : string)
  : string * unit :=
  (answer, l).

(** A parser for [_try_parse_state] of v10 that understands nothing. *)
Definition never_parses (response : string) : V10.parse_result :=
  V10.Unparsed "no state found".

(** A stand-in for [json.loads] that accepts exactly the texts that end
    with a closing brace; the value it returns is the text. *)
Fixpoint ends_with_brace (s : string) : bool :=
  match s with
  | EmptyString => false
  | String c EmptyString => Ascii.eqb c "}"
  | String _ s' => ends_with_brace s'
  end.

Definition loads (s : string) : string + string :=
  if ends_with_brace s then inr s else inl "Expecting property name".

Definition loads_opt (s : string) : option string :=
  if ends_with_brace s then Some s else None.

(** A stand-in for the task-building statements.  With [create_task]
    of the listing they fail on every argument: without a description
    by the [KeyError] of [args["description"]], and with one when
    [json.dumps] meets the [TaskStatus] in [task.__dict__].  The
    message is [str(e)]. *)
Definition build_task (args : string) : string + (Functional.Task * string) :=
  if Py.contains (Py.dquote +:+ "description" +:+ Py.dquote) args
  then inl "Object of type TaskStatus is not JSON serializable"
  else inl "'description'".

(** Stand-ins for the truth value of a parsed text and for
    [content.update]: only the empty object is false, and an update
    stores the text under one key. *)
Definition truthy_text (j : string) : bool := negb (String.eqb j "{}").

Definition update_raw (c : Dict.t string) (j : string) : result (Dict.t string) :=
  Ok (Dict.set c "raw" j).

(** Two nodes that name each other as parent. *)
Definition looped : LangGraph.SystemState string :=
  LangGraph.mkSystemState
    [("a", LangGraph.mkProjectNode "a" "first" [] "" [] (Some "b"));
     ("b", LangGraph.mkProjectNode "b" "second" [] "" [] (Some "a"))]
    "a" [].

(** A project with two sections under the root, the focus on the
    first. *)
Definition family : LangGraph.SystemState string :=
  let intro :=
    LangGraph.mkProjectNode "intro" "introduction" [] "" [] (Some "root") in
  let method :=
    LangGraph.mkProjectNode "method" "method" [] "" [] (Some "root") in
  LangGraph.mkSystemState
    [("root", LangGraph.mkProjectNode "root" "report" [] ""
                [("intro", intro); ("method", method)] None);
     ("intro", intro);
     ("method", method)]
    "intro" [].

(** A section whose parent is not in the project. *)
Definition orphan : LangGraph.SystemState string :=
  LangGraph.mkSystemState
    [("intro", LangGraph.mkProjectNode "intro" "introduction" [] "" []
                 (Some "gone"))]
    "intro" [].

End Demo.

(* ===================================================================== *)
(** * Facts about the string and dictionary operations                     *)
(* ===================================================================== *)

Module PyFacts.
Import Py.

Lemma prefix_app (p s : string) : prefix p (p +:+ s) = true.
Proof.
  induction p as [|c p IH]; simpl.
  - now destruct s.
  - destruct (ascii_dec c c); [assumption | congruence].
Qed.

Lemma prefix_drop (p s : string) :
  prefix p s = true -> s = p +:+ drop (String.length p) s.
Proof.
  revert s; induction p as [|c p IH]; intros s H; simpl.
  - now destruct s.
  - destruct s as [|a s]; simpl in H; [discriminate|].
    destruct (ascii_dec c a) as [->|]; [|discriminate].
    simpl. f_equal. now apply IH.
Qed.

Lemma split1_cons (sep : string) (c : ascii) (s : string) :
  split1 sep (String c s) =
  if prefix sep (String c s)
  then (EmptyString, Some (drop (String.length sep) (String c s)))
  else let (before, after) := split1 sep s in (String c before, after).
Proof. reflexivity. Qed.

Lemma split1_prefix (sep s : string) :
  prefix sep s = true ->
  split1 sep s = (EmptyString, Some (drop (String.length sep) s)).
Proof.
  intros H. destruct s as [|c s].
  - simpl. destruct sep; [reflexivity | discriminate].
  - now rewrite split1_cons, H.
Qed.

(** A text that occurs is found. *)
Lemma contains_app (sub a b : string) : contains sub (a +:+ sub +:+ b) = true.
Proof.
  unfold contains.
  induction a as [|c a IH].
  - change (EmptyString +:+ sub +:+ b) with (sub +:+ b).
    now rewrite split1_prefix by apply prefix_app.
  - change (String c a +:+ sub +:+ b) with (String c (a +:+ sub +:+ b)).
    rewrite split1_cons.
    destruct (prefix sub (String c (a +:+ sub +:+ b))); [reflexivity|].
    destruct (split1 sub (a +:+ sub +:+ b)) as [before after]; exact IH.
Qed.

Lemma split1_1_New (text : string) :
  split1_1 ":" ("- NEW CELL:" +:+ text) = Ok text.
Proof. unfold split1_1; simpl. now destruct text. Qed.

Lemma startswith_app (p s : string) : startswith (p +:+ s) p = true.
Proof. apply prefix_app. Qed.

Lemma split1_1_Set (text : string) :
  split1_1 ":" ("SET CURRENT:" +:+ text) = Ok text.
Proof. unfold split1_1; simpl. now destruct text. Qed.

(** The operations on the inputs the solvers give them. *)
Example strip_a_line :
  strip ("   - NEW CELL: a b  " +:+ nl) = "- NEW CELL: a b".
Proof. reflexivity. Qed.

Example split_into_lines :
  split_char "010" ("a" +:+ nl +:+ nl +:+ "b" +:+ nl) = ["a"; ""; "b"; ""].
Proof. reflexivity. Qed.

Example split_at_first_colon :
  split1 ":" "- MODIFY CELL 7: at 10:30" = ("- MODIFY CELL 7", Some " at 10:30").
Proof. reflexivity. Qed.

Example split_without_separator :
  split1_1 ":" "- MODIFY CELL 7 new text" = Raise IndexError.
Proof. reflexivity. Qed.

Example split_into_words :
  split_ws "- MODIFY CELL  7:  new text " = ["-"; "MODIFY"; "CELL"; "7:"; "new"; "text"].
Proof. reflexivity. Qed.

Example fourth_word_missing :
  index (split_ws "- MODIFY CELL") 3 = Raise IndexError.
Proof. reflexivity. Qed.

Example upper_finds_solved :
  contains "SOLVED" (upper "This is still unsolved.") = true.
Proof. reflexivity. Qed.

Example join_lines : join nl ["a"; "b"; "c"] = "a" +:+ nl +:+ "b" +:+ nl +:+ "c".
Proof. reflexivity. Qed.

End PyFacts.

Module DictFacts.
Import Dict.

Lemma set_fresh {V : Type} (d : t V) (k : string) (v : V) :
  get d k = None -> set d k v = d ++ [(k, v)].
Proof.
  induction d as [|[k' v'] d IH]; simpl; intros H; [reflexivity|].
  destruct (String.eqb k' k); [discriminate|].
  now rewrite IH.
Qed.

Lemma get_set_same {V : Type} (d : t V) (k : string) (v : V) :
  get (set d k v) k = Some v.
Proof.
  induction d as [|[k' v'] d IH]; simpl.
  - now rewrite String.eqb_refl.
  - destruct (String.eqb k' k) eqn:E; simpl; rewrite E; auto.
Qed.

Lemma get_set_other {V : Type} (d : t V) (k k' : string) (v : V) :
  k <> k' -> get (set d k v) k' = get d k'.
Proof.
  intros Hne.
  induction d as [|[k0 v0] d IH]; simpl.
  - destruct (String.eqb k k') eqn:E; [|reflexivity].
    apply String.eqb_eq in E; contradiction.
  - destruct (String.eqb k0 k) eqn:E; simpl.
    + apply String.eqb_eq in E; subst k0.
      destruct (String.eqb k k') eqn:E'; [|reflexivity].
      apply String.eqb_eq in E'; contradiction.
    + now rewrite IH.
Qed.

Lemma mem_set {V : Type} (d : t V) (k k' : string) (v : V) :
  mem d k' = true -> mem (set d k v) k' = true.
Proof.
  unfold mem. intros H.
  destruct (String.eqb k k') eqn:E.
  - apply String.eqb_eq in E; subst. now rewrite get_set_same.
  - apply String.eqb_neq in E. now rewrite get_set_other.
Qed.

End DictFacts.

(* ===================================================================== *)
(** * Final code v4: what [_apply_changes] and [solve] do                  *)
(* ===================================================================== *)

Module V4Facts.
Import V4.

Section Solver.

Variable LLM : Type.
Variable get_completion : LLM -> string -> string * LLM.
Variable uuid4 : nat -> string.
Variable config : Config.

Lemma apply_loop_app (l1 l2 : list string) (acc : nat * SystemState) :
  apply_loop uuid4 (l1 ++ l2) acc =
  (do acc' <- apply_loop uuid4 l1 acc; apply_loop uuid4 l2 acc').
Proof.
  revert acc; induction l1 as [|c l1 IH]; intros acc; simpl.
  - reflexivity.
  - destruct (apply_change uuid4 acc c) as [acc'|e]; simpl; auto.
Qed.

(** The guards [if cell_id in new_state.cells] make a change that
    names a missing cell a step that does nothing. *)
Lemma apply_change_missing_id (n : nat) (state : SystemState) (change : string) :
  names_missing_id state change = true ->
  apply_change uuid4 (n, state) change = Ok (n, state).
Proof.
  unfold names_missing_id, V4.apply_change, Dict.mem.
  destruct (Py.startswith change "- NEW CELL:"); [discriminate|].
  destruct (Py.startswith change "- MODIFY CELL").
  - destruct (Py.index (Py.split_ws change) 3) as [cell_id|]; [|discriminate].
    destruct (Py.split1_1 ":" change) as [after|]; [|discriminate].
    simpl. destruct (Dict.get (cells state) cell_id); [discriminate|reflexivity].
  - destruct (Py.startswith change "SET CURRENT:"); [|discriminate].
    destruct (Py.split1_1 ":" change) as [after|]; [|discriminate].
    simpl. destruct (Dict.get (cells state) (Py.strip after)); [discriminate|reflexivity].
Qed.

(** C1 (amended): [_apply_changes] is not atomic and rejects nothing.
    A change that names a cell the working state does not have is
    skipped, and the changes before and after it are applied as if it
    were not there. *)
Theorem invalid_directive_is_skipped
        (pre post : list string) (change : string)
        (n n1 : nat) (state state1 : SystemState) :
  apply_loop uuid4 pre (n, state) = Ok (n1, state1) ->
  names_missing_id state1 change = true ->
  apply_change uuid4 (n1, state1) change = Ok (n1, state1) /\
  apply_loop uuid4 (pre ++ change :: post) (n, state) =
  apply_loop uuid4 (pre ++ post) (n, state).
Proof.
  intros Hpre Hmiss.
  pose proof (apply_change_missing_id n1 state1 change Hmiss) as Hskip.
  split; [exact Hskip|].
  rewrite !apply_loop_app, Hpre.
  cbn [bind V4.apply_loop]. now rewrite Hskip.
Qed.

Lemma apply_change_new_cell (n : nat) (state : SystemState) (text : string) :
  apply_change uuid4 (n, state) ("- NEW CELL:" +:+ text) =
  Ok (S n, set_cells state
             (Dict.set (cells state) (uuid4 n)
                (mkCell (uuid4 n) (Py.strip text) [] []))).
Proof.
  unfold V4.apply_change.
  rewrite PyFacts.startswith_app, PyFacts.split1_1_New.
  reflexivity.
Qed.

(** C3 (amended): a [- NEW CELL:] change is never rejected and never
    merged with another one.  Every such change stores its text under
    an identifier of its own, whatever the text is: two of them in a
    row leave the document with two more cells. *)
Theorem new_cells_are_never_merged
        (n : nat) (state : SystemState) (t1 t2 : string) :
  Dict.get (cells state) (uuid4 n) = None ->
  Dict.get (cells state) (uuid4 (S n)) = None ->
  uuid4 n <> uuid4 (S n) ->
  apply_loop uuid4 ["- NEW CELL:" +:+ t1; "- NEW CELL:" +:+ t2] (n, state) =
  Ok (S (S n),
      set_cells state
        (cells state ++
           [(uuid4 n, mkCell (uuid4 n) (Py.strip t1) [] []);
            (uuid4 (S n), mkCell (uuid4 (S n)) (Py.strip t2) [] [])])).
Proof.
  intros H1 H2 Hne.
  cbn [V4.apply_loop].
  rewrite apply_change_new_cell. cbn [bind].
  rewrite apply_change_new_cell. cbn [bind].
  do 2 f_equal. unfold set_cells; cbn [V4.cells current_cell_id state_metadata].
  f_equal.
  rewrite (DictFacts.set_fresh _ _ _ H1).
  rewrite DictFacts.set_fresh.
  - now rewrite <- app_assoc.
  - rewrite <- (DictFacts.set_fresh _ _ (mkCell (uuid4 n) (Py.strip t1) [] []) H1).
    rewrite DictFacts.get_set_other; assumption.
Qed.

(** Apart from a malformed [- MODIFY CELL] line, a change is applied
    without an exception and keeps the focus on a cell. *)
Lemma apply_change_total (n : nat) (state : SystemState) (change : string) :
  malformed change = false ->
  exists n' state',
    apply_change uuid4 (n, state) change = Ok (n', state') /\
    (valid state = true -> valid state' = true).
Proof.
  unfold malformed, V4.apply_change. intros H.
  destruct (Py.startswith change "- NEW CELL:") eqn:Hnew.
  - assert (Hc : exists after, Py.split1_1 ":" change = Ok after).
    { apply PyFacts.prefix_drop in Hnew. rewrite Hnew.
      change ("- NEW CELL:" +:+ Py.drop (String.length "- NEW CELL:") change)
        with ("- NEW CELL:" +:+ Py.drop 11 change).
      rewrite PyFacts.split1_1_New. eauto. }
    destruct Hc as [after ->]. cbn [bind].
    do 2 eexists. split; [reflexivity|].
    unfold valid, set_cells; cbn [current_cell_id cells].
    destruct (current_cell_id state); [apply DictFacts.mem_set | auto].
  - cbn [negb andb] in H.
    destruct (Py.startswith change "- MODIFY CELL").
    + cbn [andb] in H.
      destruct (Py.index (Py.split_ws change) 3) as [cell_id|]; [|discriminate].
      destruct (Py.split1_1 ":" change) as [after|]; [|discriminate].
      cbn [bind].
      destruct (Dict.get (cells state) cell_id) as [c|]; [|eauto].
      do 2 eexists. split; [reflexivity|].
      unfold valid, set_cells; cbn [current_cell_id cells].
      destruct (current_cell_id state); [apply DictFacts.mem_set | auto].
    + destruct (Py.startswith change "SET CURRENT:") eqn:Hset; [|eauto].
      assert (Hc : exists after, Py.split1_1 ":" change = Ok after).
      { apply PyFacts.prefix_drop in Hset. rewrite Hset.
        change ("SET CURRENT:" +:+ Py.drop (String.length "SET CURRENT:") change)
          with ("SET CURRENT:" +:+ Py.drop 12 change).
        rewrite PyFacts.split1_1_Set. eauto. }
      destruct Hc as [after ->]. cbn [bind].
      destruct (Dict.mem (cells state) (Py.strip after)) eqn:Hm; [|eauto].
      do 2 eexists. split; [reflexivity|].
      intros _. unfold valid, set_current; cbn [current_cell_id cells]. exact Hm.
Qed.

Lemma apply_change_raises (n : nat) (state : SystemState) (change : string) :
  malformed change = true ->
  apply_change uuid4 (n, state) change = Raise IndexError.
Proof.
  unfold malformed, V4.apply_change. intros H.
  destruct (Py.startswith change "- NEW CELL:"); [discriminate|].
  destruct (Py.startswith change "- MODIFY CELL"); [|discriminate].
  cbn [negb andb] in H. unfold Py.index, Py.split1_1 in *.
  destruct (nth_error (Py.split_ws change) 3); cbn [bind]; [|reflexivity].
  destruct (snd (Py.split1 ":" change)); [discriminate | reflexivity].
Qed.

(** Without such a line, [_apply_changes] returns, and what it returns is
    a valid state when it was given one. *)
Lemma apply_changes_total (response : string) :
  forallb (fun c => negb (malformed c)) (changes_of response) = true ->
  forall n state,
  exists n' state',
    _apply_changes uuid4 n state response = Ok (n', state') /\
    (valid state = true -> valid state' = true).
Proof.
  unfold _apply_changes.
  induction (changes_of response) as [|c cs IH]; intros H n state.
  - cbn. eauto.
  - cbn [forallb] in H. apply andb_true_iff in H as [Hc Hcs].
    apply negb_true_iff in Hc.
    destruct (@apply_change_total n state c Hc) as (n1 & s1 & Hstep & Hv).
    cbn [V4.apply_loop]. rewrite Hstep. cbn [bind].
    destruct (IH Hcs n1 s1) as (n2 & s2 & Hrest & Hv').
    exists n2, s2. split; [assumption | auto].
Qed.

(** A pass that breaks leaves the state as it was. *)
Lemma break_keeps_state (w w' : World LLM) (state state' : SystemState) :
  solve_step get_completion uuid4 config w state = Break w' state' ->
  state' = state /\ drawn w' = drawn w.
Proof.
  unfold V4.solve_step.
  destruct (get_completion (llm w) _) as [response l].
  destruct (Py.contains "STATUS: SOLVED" response).
  - intros [= <- <-]. now split.
  - destruct (_apply_changes uuid4 (drawn w) state response) as [[n s]|e];
      discriminate.
Qed.

Lemma solve_loop_returned (fuel : nat) (w : World LLM) (state : SystemState)
      (r : string * World LLM) :
  solve_loop get_completion uuid4 config fuel w state = Returned r <->
  exists k w' state' w'' state'',
    k < fuel /\ iterate get_completion uuid4 config k w state = Some (w', state') /\
    solve_step get_completion uuid4 config w' state' = Break w'' state'' /\
    r = _get_solution get_completion config w'' state''.
Proof.
  revert w state; induction fuel as [|fuel IH]; intros w state.
  - split; [discriminate|]. intros (k & _ & _ & _ & _ & Hk & _). lia.
  - cbn [V4.solve_loop]. split.
    + destruct (solve_step get_completion uuid4 config w state) as [w1 s1|w1 s1|e] eqn:Hstep.
      * intros [= <-]. exists 0, w, state, w1, s1. repeat split; auto; lia.
      * intros H. apply IH in H as (k & w' & s' & w'' & s'' & Hk & Hit & Hb & ->).
        exists (S k), w', s', w'', s''. repeat split; auto; try lia.
        cbn [V4.iterate]. now rewrite Hstep.
      * discriminate.
    + intros (k & w' & s' & w'' & s'' & Hk & Hit & Hb & ->).
      destruct k as [|k].
      * cbn [V4.iterate] in Hit. injection Hit as <- <-. now rewrite Hb.
      * cbn [V4.iterate] in Hit.
        destruct (solve_step get_completion uuid4 config w state) as [w1 s1|w1 s1|e]; try discriminate.
        apply IH. exists k, w', s', w'', s''. repeat split; auto; lia.
Qed.

Lemma step_without_marker (w : World LLM) (state : SystemState) :
  Py.contains "STATUS: SOLVED"
    (fst (get_completion (llm w) (iteration_prompt config state))) = false ->
  forall w' state', solve_step get_completion uuid4 config w state <> Break w' state'.
Proof.
  unfold V4.solve_step. intros H w' state'.
  destruct (get_completion (llm w) _) as [response l]; simpl in H.
  rewrite H.
  destruct (_apply_changes uuid4 (drawn w) state response) as [[n s]|e];
    discriminate.
Qed.

(** On a model that never answers with the marker and never with a
    malformed [- MODIFY CELL] line, every pass continues. *)
Lemma solve_loop_never_ends :
  (forall l prompt,
      Py.contains "STATUS: SOLVED" (fst (get_completion l prompt)) = false /\
      forallb (fun c => negb (malformed c))
              (changes_of (fst (get_completion l prompt))) = true) ->
  forall fuel w state,
    solve_loop get_completion uuid4 config fuel w state = OutOfFuel.
Proof.
  intros Hmodel fuel; induction fuel as [|fuel IH]; intros w state;
    [reflexivity|].
  cbn [V4.solve_loop]. unfold V4.solve_step.
  destruct (Hmodel (llm w) (iteration_prompt config state)) as [Hno Hwell].
  destruct (get_completion (llm w) (iteration_prompt config state))
    as [response l]. cbn [fst] in Hno, Hwell. rewrite Hno.
  destruct (@apply_changes_total response Hwell (drawn w) state)
    as (n' & state' & -> & _).
  apply IH.
Qed.

(** C4 (amended): [solve] has no iteration budget.  It returns in the
    pass in which a response contains the marker, however many passes
    that takes; on a model that never answers with the marker it does not
    return, whatever the number of passes it is given; and if that model
    never answers with a malformed [- MODIFY CELL] line either, the loop
    just goes on. *)
Theorem solve_ends_only_on_the_marker (w : World LLM) (state : SystemState) :
  (forall k w' state' w'' state'',
      iterate get_completion uuid4 config k w state = Some (w', state') ->
      solve_step get_completion uuid4 config w' state' = Break w'' state'' ->
      forall fuel, k < fuel ->
        solve_loop get_completion uuid4 config fuel w state
        = Returned (_get_solution get_completion config w'' state''))
  /\
  ((forall l prompt,
       Py.contains "STATUS: SOLVED" (fst (get_completion l prompt)) = false) ->
   forall fuel r,
     solve_loop get_completion uuid4 config fuel w state <> Returned r)
  /\
  ((forall l prompt,
       Py.contains "STATUS: SOLVED" (fst (get_completion l prompt)) = false /\
       forallb (fun c => negb (malformed c))
               (changes_of (fst (get_completion l prompt))) = true) ->
   forall fuel,
     solve_loop get_completion uuid4 config fuel w state = OutOfFuel).
Proof.
  split; [|split].
  - intros k w' s' w'' s'' Hit Hb fuel Hk.
    apply solve_loop_returned. exists k, w', s', w'', s''. now repeat split.
  - intros Hnever fuel r H.
    apply solve_loop_returned in H as (k & w' & s' & w'' & s'' & _ & _ & Hb & _).
    exact (@step_without_marker w' s' (Hnever _ _) _ _ Hb).
  - intros Hmodel fuel. now apply solve_loop_never_ends.
Qed.

(** C5 (amended): a response that contains the marker ends the loop
    with the state as it is.  None of the changes the response lists
    is applied and no identifier is drawn; what follows is the one
    call of [_get_solution] on that state.  Nothing else is recorded. *)
Theorem solved_marker_discards_the_edits
        (fuel : nat) (w : World LLM) (state : SystemState) :
  Py.contains "STATUS: SOLVED"
    (fst (get_completion (llm w) (iteration_prompt config state))) = true ->
  let w' := mkWorld (snd (get_completion (llm w) (iteration_prompt config state)))
                    (drawn w) in
  solve_step get_completion uuid4 config w state = Break w' state /\
  solve_loop get_completion uuid4 config (S fuel) w state = Returned (_get_solution get_completion config w' state).
Proof.
  intros H w'. subst w'.
  assert (Hs : solve_step get_completion uuid4 config w state =
               Break (mkWorld (snd (get_completion (llm w) (iteration_prompt config state)))
                              (drawn w)) state).
  { unfold V4.solve_step.
    destruct (get_completion (llm w) _) as [response l]; simpl in *.
    now rewrite H. }
  split; [exact Hs|].
  cbn [V4.solve_loop]. now rewrite Hs.
Qed.

End Solver.

(** C2: the pass is not total.  A response whose change is [- MODIFY CELL]
    without an id makes [_apply_changes] raise [IndexError] at
    [change.split()[3]], and one with an id but no colon makes it raise at
    [change.split(":", 1)[1]]; [solve] catches neither. *)
Theorem modify_without_id_raises
        (config : Config) (fuel : nat) (w : World unit) (query : string) :
  solve (Demo.constant "- MODIFY CELL") Demo.uuid4 config (S fuel) w query
  = Raised IndexError /\
  solve (Demo.constant "- MODIFY CELL 7 new text") Demo.uuid4 config (S fuel) w query
  = Raised IndexError.
Proof.
  split.
  - unfold solve. cbn [solve_loop].
    replace (solve_step (Demo.constant "- MODIFY CELL") Demo.uuid4 config w
               (initial_state query))
      with (@Fail unit IndexError); reflexivity.
  - unfold solve. cbn [solve_loop].
    replace (solve_step (Demo.constant "- MODIFY CELL 7 new text") Demo.uuid4
               config w (initial_state query))
      with (@Fail unit IndexError); reflexivity.
Qed.

(** C1, as stated, fails: the batch below holds a [SET CURRENT:] that
    names no cell, and still its [- NEW CELL:] is applied; the state
    returned is not the state passed in. *)
Lemma batch_with_invalid_directive_is_applied :
  let state := initial_state "q" in
  let response := "- NEW CELL: draft" +:+ Py.nl +:+ "SET CURRENT: ghost" in
  existsb (names_missing_id state) (changes_of response) = true /\
  exists state',
    _apply_changes Demo.uuid4 0 state response = Ok (1, state') /\
    length (cells state') = 2 /\ state' <> state.
Proof.
  split; [reflexivity|].
  eexists. split; [reflexivity|]. split; [reflexivity|].
  discriminate.
Qed.

Lemma invalid_directive_is_skipped_witness :
  apply_loop Demo.uuid4 ["- NEW CELL: draft"] (0, initial_state "q")
  = Ok (1, set_cells (initial_state "q")
             (Dict.set (cells (initial_state "q")) (Demo.uuid4 0)
                (mkCell (Demo.uuid4 0) "draft" [] []))) /\
  apply_loop Demo.uuid4
    (["- NEW CELL: draft"] ++ "SET CURRENT: ghost" :: ["- NEW CELL: more"])
    (0, initial_state "q") =
  apply_loop Demo.uuid4 (["- NEW CELL: draft"] ++ ["- NEW CELL: more"])
    (0, initial_state "q").
Proof.
  split; [reflexivity|].
  refine (proj2 (@invalid_directive_is_skipped Demo.uuid4
                   ["- NEW CELL: draft"] ["- NEW CELL: more"]
                   "SET CURRENT: ghost" 0 _ (initial_state "q") _ _ _));
    reflexivity.
Defined.

(** C3, as stated, fails: two [- NEW CELL:] changes whose texts differ
    only in case, spaces and underscores leave two cells of that
    name. *)
Lemma near_identical_cells_are_both_kept :
  let response := "- NEW CELL: Initial Analysis Plan" +:+ Py.nl
                  +:+ "- NEW CELL: Initial_Analysis_Plan" in
  normalize "Initial Analysis Plan" = normalize "Initial_Analysis_Plan" /\
  exists state',
    _apply_changes Demo.uuid4 0 (initial_state "q") response = Ok (2, state') /\
    count_named "Initial Analysis Plan" state' = 2.
Proof.
  split; [reflexivity|]. eexists. split; reflexivity.
Qed.

Lemma new_cells_are_never_merged_witness :
  Dict.get (cells (initial_state "q")) (Demo.uuid4 0) = None /\
  Dict.get (cells (initial_state "q")) (Demo.uuid4 1) = None /\
  Demo.uuid4 0 <> Demo.uuid4 1 /\
  apply_loop Demo.uuid4 ["- NEW CELL:" +:+ " Plan"; "- NEW CELL:" +:+ " plan"]
    (0, initial_state "q") =
  Ok (2, set_cells (initial_state "q")
           (cells (initial_state "q") ++
              [(Demo.uuid4 0, mkCell (Demo.uuid4 0) (Py.strip " Plan") [] []);
               (Demo.uuid4 1, mkCell (Demo.uuid4 1) (Py.strip " plan") [] [])])).
Proof.
  assert (H1 : Dict.get (cells (initial_state "q")) (Demo.uuid4 0) = None)
    by reflexivity.
  assert (H2 : Dict.get (cells (initial_state "q")) (Demo.uuid4 1) = None)
    by reflexivity.
  assert (H3 : Demo.uuid4 0 <> Demo.uuid4 1) by (vm_compute; discriminate).
  split; [exact H1|]. split; [exact H2|]. split; [exact H3|].
  exact (@new_cells_are_never_merged Demo.uuid4 0 (initial_state "q")
           " Plan" " plan" H1 H2 H3).
Defined.

(** C4, as stated, fails: on a model that answers [STATUS: CONTINUE] to
    every prompt, no number of passes makes [solve] end. *)
Lemma solve_runs_forever_without_marker :
  ~ exists fuel,
      solve (Demo.constant "STATUS: CONTINUE") Demo.uuid4 DEFAULT_SOLVER_CONFIG
            fuel (mkWorld tt 0) "What is 2+2?" <> OutOfFuel.
Proof.
  intros [fuel H]. apply H. clear H. unfold solve.
  induction fuel as [|fuel IH]; [reflexivity|].
  cbn [solve_loop].
  replace (solve_step (Demo.constant "STATUS: CONTINUE") Demo.uuid4
             DEFAULT_SOLVER_CONFIG (mkWorld tt 0) (initial_state "What is 2+2?"))
    with (Continue (mkWorld tt 0) (initial_state "What is 2+2?"))
    by reflexivity.
  exact IH.
Qed.

Lemma solve_ends_only_on_the_marker_witness :
  (forall l prompt,
      Py.contains "STATUS: SOLVED"
        (fst (Demo.constant "STATUS: CONTINUE" l prompt)) = false /\
      forallb (fun c => negb (malformed c))
              (changes_of (fst (Demo.constant "STATUS: CONTINUE" l prompt)))
      = true) /\
  forall fuel,
    solve_loop (Demo.constant "STATUS: CONTINUE") Demo.uuid4
               DEFAULT_SOLVER_CONFIG fuel (mkWorld tt 0) (initial_state "q")
    = OutOfFuel.
Proof.
  assert (H : forall l prompt,
             Py.contains "STATUS: SOLVED"
               (fst (Demo.constant "STATUS: CONTINUE" l prompt)) = false /\
             forallb (fun c => negb (malformed c))
                     (changes_of (fst (Demo.constant "STATUS: CONTINUE" l prompt)))
             = true)
    by (intros; split; reflexivity).
  split; [exact H|].
  exact (proj2 (proj2 (@solve_ends_only_on_the_marker unit
                  (Demo.constant "STATUS: CONTINUE") Demo.uuid4
                  DEFAULT_SOLVER_CONFIG (mkWorld tt 0) (initial_state "q"))) H).
Defined.

(** C5, as stated, fails in its last part: the run whose response lists
    a change next to the marker leaves behind exactly what the run
    without the change leaves behind -- the same answer, the same two
    prompts sent, no identifier drawn.  No warning is recorded. *)
Lemma discarded_edit_leaves_no_trace :
  let run response :=
    solve (logged (@Demo.scripted)) Demo.uuid4 DEFAULT_SOLVER_CONFIG 2
          (mkWorld ([response; "4"], []) 0) "What is 2+2?" in
  run ("- NEW CELL: note" +:+ Py.nl +:+ "STATUS: SOLVED") = run "STATUS: SOLVED"
  /\ exists prompts,
      run ("- NEW CELL: note" +:+ Py.nl +:+ "STATUS: SOLVED")
      = Returned ("4", mkWorld ([], prompts) 0) /\ length prompts = 2.
Proof.
  split; [reflexivity|]. eexists. split; reflexivity.
Qed.

Lemma solved_marker_discards_the_edits_witness :
  let w := mkWorld ["- NEW CELL: note" +:+ Py.nl +:+ "STATUS: SOLVED"; "4"] 0 in
  let state := initial_state "q" in
  Py.contains "STATUS: SOLVED"
    (fst (Demo.scripted (llm w) (iteration_prompt DEFAULT_SOLVER_CONFIG state)))
  = true /\
  solve_step (@Demo.scripted) Demo.uuid4 DEFAULT_SOLVER_CONFIG w state
  = Break (mkWorld ["4"] 0) state.
Proof.
  split; [reflexivity|].
  exact (proj1 (@solved_marker_discards_the_edits (list string)
                  Demo.scripted Demo.uuid4 DEFAULT_SOLVER_CONFIG 0
                  (mkWorld ["- NEW CELL: note" +:+ Py.nl +:+ "STATUS: SOLVED"; "4"] 0)
                  (initial_state "q") eq_refl)).
Defined.

End V4Facts.

(* ===================================================================== *)
(** * Final code v10: the order of the prompts in one pass                 *)
(* ===================================================================== *)

Module V10Facts.
Import V10.

Section Solver.

Variable LLM : Type.
Variable get_completion : LLM -> string -> string * LLM.
Variable config : Config.
Variable _try_parse_state : string -> parse_result.
Variable _create_fallback_state : SystemState -> string -> SystemState.

(** C6 (amended): after a response that does not parse, a pass sends
    the correction prompt once, filled with that response and the
    issues found in it.  When the answer to it parses, the pass ends
    there.  When it does not, the next and last prompt is the
    fallback prompt: it is sent after exactly one failed correction,
    and no number of attempts is configured anywhere. *)
Theorem one_correction_then_fallback
        (l : LLM) (log : list string) (state : SystemState) (issues : string) :
  let prompt := iteration_prompt config state in
  let response := fst (get_completion l prompt) in
  let l1 := snd (get_completion l prompt) in
  let correction := correction_prompt config response issues in
  let correction_response := fst (get_completion l1 correction) in
  let l2 := snd (get_completion l1 correction) in
  let final_response := fst (get_completion l2 (fallback_prompt config)) in
  let l3 := snd (get_completion l2 (fallback_prompt config)) in
  Py.contains "SOLVED" (Py.upper response) = false ->
  _try_parse_state response = Unparsed issues ->
  solve_step (logged get_completion) config _try_parse_state
             _create_fallback_state (l, log) state =
  match _try_parse_state correction_response with
  | Parsed result => Continue (l2, log ++ [prompt; correction]) result
  | Unparsed _ =>
      Continue (l3, log ++ [prompt; correction; fallback_prompt config])
               (after_fallback _try_parse_state _create_fallback_state
                  state response final_response)
  end.
Proof.
  intros prompt response l1 correction correction_response l2
         final_response l3 Hnot Hfail.
  subst prompt response l1 correction correction_response l2 final_response l3.
  unfold solve_step, logged, after_fallback. cbn [fst snd].
  destruct (get_completion l (iteration_prompt config state))
    as [response l1]. cbn [fst snd] in *.
  rewrite Hnot, Hfail.
  destruct (get_completion l1 (correction_prompt config response issues))
    as [correction_response l2]. cbn [fst snd].
  destruct (_try_parse_state correction_response) as [result|issues'].
  - now rewrite <- app_assoc.
  - destruct (get_completion l2 (fallback_prompt config))
      as [final_response l3]. cbn [fst snd].
    rewrite <- !app_assoc. cbn [app].
    destruct (_try_parse_state final_response); reflexivity.
Qed.

(** A response with the letters SOLVED in it, in any case, ends
    [solve]: the response itself is returned and nothing is parsed. *)
Lemma solved_returns_the_response (l : LLM) (state : SystemState) :
  let response := fst (get_completion l (iteration_prompt config state)) in
  Py.contains "SOLVED" (Py.upper response) = true ->
  solve_step get_completion config _try_parse_state _create_fallback_state
             l state =
  Return response (snd (get_completion l (iteration_prompt config state))).
Proof.
  intros response H. subst response. unfold solve_step.
  destruct (get_completion l (iteration_prompt config state)) as [r l1].
  cbn [fst snd] in *. now rewrite H.
Qed.

Lemma step_continues_without_solved (l : LLM) (state : SystemState) :
  Py.contains "SOLVED"
    (Py.upper (fst (get_completion l (iteration_prompt config state)))) = false ->
  exists l' state',
    solve_step get_completion config _try_parse_state _create_fallback_state
               l state = Continue l' state'.
Proof.
  intros H. unfold solve_step.
  destruct (get_completion l (iteration_prompt config state)) as [r l1].
  cbn [fst] in H. rewrite H.
  destruct (_try_parse_state r); [eauto|].
  destruct (get_completion l1 _) as [r2 l2].
  destruct (_try_parse_state r2); [eauto|].
  destruct (get_completion l2 _) as [r3 l3].
  destruct (_try_parse_state r3); eauto.
Qed.

(** A pass raises nothing, and it keeps the focus on a cell as far as the
    parser and the fallback do. *)
Lemma pass_ends_in_a_valid_state (l : LLM) (state : SystemState) :
  (forall response st, _try_parse_state response = Parsed st -> valid st = true) ->
  (forall st response,
      valid st = true -> valid (_create_fallback_state st response) = true) ->
  valid state = true ->
  forall l' state',
    solve_step get_completion config _try_parse_state _create_fallback_state
               l state = Continue l' state' ->
    valid state' = true.
Proof.
  intros Hparse Hfall Hvalid l' state'. unfold solve_step.
  destruct (get_completion l (iteration_prompt config state)) as [r l1].
  destruct (Py.contains "SOLVED" (Py.upper r)); [discriminate|].
  destruct (_try_parse_state r) as [s1|i1] eqn:E1.
  { intros [= _ <-]. eapply Hparse; eauto. }
  destruct (get_completion l1 _) as [r2 l2].
  destruct (_try_parse_state r2) as [s2|i2] eqn:E2.
  { intros [= _ <-]. eapply Hparse; eauto. }
  destruct (get_completion l2 _) as [r3 l3].
  destruct (_try_parse_state r3) as [s3|i3] eqn:E3.
  { intros [= _ <-]. eapply Hparse; eauto. }
  intros [= _ <-]. now apply Hfall.
Qed.

(** This loop has no budget either. *)
Lemma solve_loop_without_solved :
  (forall l prompt,
      Py.contains "SOLVED" (Py.upper (fst (get_completion l prompt))) = false) ->
  forall fuel l state,
    solve_loop get_completion config _try_parse_state _create_fallback_state
               fuel l state = OutOfFuel.
Proof.
  intros Hnever fuel; induction fuel as [|fuel IH]; intros l state.
  - reflexivity.
  - cbn [solve_loop].
    destruct (step_continues_without_solved l state (Hnever _ _))
      as (l' & state' & ->).
    apply IH.
Qed.

End Solver.

(** The give-up state of the specification keeps the focus on a cell. *)
Lemma give_up_state_is_valid (state : SystemState) (response : string) :
  valid state = true -> valid (give_up_state state response) = true.
Proof.
  unfold valid, give_up_state; cbn [current_cell_id cells].
  destruct (current_cell_id state); [apply DictFacts.mem_set | auto].
Qed.

(** The correction prompt of the default configuration carries the
    response it complains about. *)
Lemma default_correction_prompt_quotes_the_response (response issues : string) :
  Py.contains response
    (correction_prompt DEFAULT_SOLVER_CONFIG response issues) = true.
Proof.
  cbn [correction_prompt DEFAULT_SOLVER_CONFIG Py.join].
  match goal with
  | |- Py.contains _ (?a +:+ ?n1 +:+ ?b +:+ ?n2 +:+ (?c +:+ _) +:+ ?rest) = true =>
      replace (a +:+ n1 +:+ b +:+ n2 +:+ (c +:+ response) +:+ rest)
        with ((a +:+ n1 +:+ b +:+ n2 +:+ c) +:+ response +:+ rest)
  end.
  - apply PyFacts.contains_app.
  - reflexivity.
Qed.

(** C6, as stated, fails: with a parser that understands none of the
    three answers, the pass sends the main prompt, one correction
    prompt and then the fallback prompt -- three prompts, not the four
    that two correction attempts would make. *)
Lemma fallback_follows_a_single_correction :
  let state := initial_state "What is 2+2?" in
  let answers := ["four"; "it is four"; "4"] in
  solve_step (logged (@Demo.scripted)) DEFAULT_SOLVER_CONFIG
             Demo.never_parses give_up_state (answers, []) state
  = Continue ([], [iteration_prompt DEFAULT_SOLVER_CONFIG state;
                   correction_prompt DEFAULT_SOLVER_CONFIG "four" "no state found";
                   fallback_prompt DEFAULT_SOLVER_CONFIG])
             (give_up_state state "four")
  /\ 3 <> 1 + spec_max_correction_attempts + 1.
Proof.
  split; [reflexivity | discriminate].
Qed.

Lemma one_correction_then_fallback_witness :
  let state := initial_state "What is 2+2?" in
  let answers := ["four"; "it is four"; "4"] in
  Py.contains "SOLVED"
    (Py.upper (fst (Demo.scripted answers
                      (iteration_prompt DEFAULT_SOLVER_CONFIG state)))) = false /\
  Demo.never_parses
    (fst (Demo.scripted answers (iteration_prompt DEFAULT_SOLVER_CONFIG state)))
  = Unparsed "no state found" /\
  solve_step (logged (@Demo.scripted)) DEFAULT_SOLVER_CONFIG
             Demo.never_parses give_up_state (answers, []) state
  = Continue ([], [] ++ [iteration_prompt DEFAULT_SOLVER_CONFIG state;
                         correction_prompt DEFAULT_SOLVER_CONFIG "four" "no state found";
                         fallback_prompt DEFAULT_SOLVER_CONFIG])
             (give_up_state state "four").
Proof.
  split; [reflexivity|]. split; [reflexivity|].
  exact (@one_correction_then_fallback (list string) Demo.scripted
           DEFAULT_SOLVER_CONFIG Demo.never_parses give_up_state
           ["four"; "it is four"; "4"] [] (initial_state "What is 2+2?")
           "no state found" eq_refl eq_refl).
Defined.

End V10Facts.

(* ===================================================================== *)
(** * Final code functional: the [except] branch of [parse_state]          *)
(* ===================================================================== *)

Module FunctionalFacts.
Import Functional.

Section Parser.

Variable Json : Type.
Variable json_loads : string -> string + Json.
Variable create_task : Json -> string + (Task * string).
Variable uuid4 : nat -> string.

Lemma parse_line_other (st : locals Json) (line : string) :
  is_task_line line = false ->
  parse_line json_loads create_task uuid4 st line = Ok st.
Proof.
  unfold is_task_line, parse_line. intros H.
  destruct (String.eqb (Py.strip line) ""); [reflexivity|].
  simpl in H. rewrite H.
  destruct (Py.startswith (Py.strip line) "TOOL:"); [reflexivity|].
  destruct (_ || _); reflexivity.
Qed.

Lemma parse_lines_other (pre : list string) (st : locals Json) :
  forallb (fun l => negb (is_task_line l)) pre = true ->
  parse_lines json_loads create_task uuid4 pre st = Ok st.
Proof.
  induction pre as [|l pre IH]; simpl; intros H; [reflexivity|].
  apply andb_true_iff in H as [Hl Hpre].
  apply negb_true_iff in Hl.
  rewrite (parse_line_other st l Hl). simpl. now apply IH.
Qed.

Lemma parse_lines_app (l1 l2 : list string) (st : locals Json) :
  parse_lines json_loads create_task uuid4 (l1 ++ l2) st =
  (do st' <- parse_lines json_loads create_task uuid4 l1 st;
   parse_lines json_loads create_task uuid4 l2 st').
Proof.
  revert st; induction l1 as [|l l1 IH]; intros st; simpl; [reflexivity|].
  destruct (parse_line json_loads create_task uuid4 st l); simpl; auto.
Qed.

(** A [TASK:] line whose JSON does not parse goes to the handler with
    the locals as they were. *)
Lemma malformed_task_line (st : locals Json) (line : string) :
  is_task_line line = true ->
  json_fails json_loads line = true ->
  exists message,
    parse_line json_loads create_task uuid4 st line = handler st message.
Proof.
  unfold is_task_line, json_fails, parse_line, task_line. intros Ht Hj.
  apply andb_true_iff in Ht as [Hne Ht].
  apply negb_true_iff in Hne. rewrite Hne, Ht.
  destruct (Py.split1_1 "{" (Py.strip line)) as [after|e].
  - destruct (json_loads ("{" +:+ after)) as [message|args];
      [eauto | discriminate].
  - eauto.
Qed.

Lemma state_text_has_marker (response state_text : string) :
  state_text_of response = Ok state_text ->
  Py.contains "NEXT STATE:" response = true.
Proof.
  unfold state_text_of, Py.split1_1, Py.contains.
  destruct (snd (Py.split1 "NEXT STATE:" response)); [reflexivity|discriminate].
Qed.

(** C9: the handler of the [TASK:] branch assigns to [cells[cell_id]].
    When the first [TASK:] line of the state text fails before
    [cell_id] is bound (no brace, or JSON that does not parse),
    [parse_state] leaves by [UnboundLocalError], a [NameError], and
    returns no [Left].  Where [cell_id] is bound by an earlier [TASK:]
    line, the same line replaces the cell stored under that id. *)
Theorem malformed_first_task_line_raises_NameError
        (n : nat) (response state_text : string)
        (pre post : list string) (line : string) :
  state_text_of response = Ok state_text ->
  Py.split_char "010" state_text = pre ++ line :: post ->
  forallb (fun l => negb (is_task_line l)) pre = true ->
  is_task_line line = true ->
  json_fails json_loads line = true ->
  parse_state json_loads create_task uuid4 n response
  = Raise (UnboundLocalError "cell_id")
  /\ is_NameError (UnboundLocalError "cell_id") = true
  /\ forall (st : locals Json) (k : string),
      cell_id st = Some k ->
      exists message,
        parse_line json_loads create_task uuid4 st line =
        Ok (mkLocals (Dict.set (cells st) k (error_cell Json message))
                     (Some k) (drawn st)).
Proof.
  intros Htext Hsplit Hpre Htask Hjson.
  split; [|split; [reflexivity|]].
  - unfold parse_state.
    rewrite (state_text_has_marker _ Htext), Htext.
    cbn [negb bind]. rewrite Hsplit, parse_lines_app.
    rewrite (parse_lines_other _ _ Hpre). cbn [bind parse_lines].
    destruct (malformed_task_line (mkLocals [] None n) line Htask Hjson)
      as [message ->].
    reflexivity.
  - intros st k Hk.
    destruct (malformed_task_line st line Htask Hjson) as [message ->].
    exists message. unfold handler. now rewrite Hk.
Qed.

(** A [TASK:] line whose JSON parses binds [cell_id] to a fresh
    identifier and stores a cell under it, whether or not the task
    can be built. *)
Lemma task_line_binds_cell_id (st : locals Json) (line : string) :
  is_task_line line = true ->
  json_fails json_loads line = false ->
  exists st',
    parse_line json_loads create_task uuid4 st line = Ok st' /\
    cell_id st' = Some (uuid4 (drawn st)) /\
    Dict.mem (cells st') (uuid4 (drawn st)) = true.
Proof.
  unfold is_task_line, json_fails, parse_line, task_line. intros Ht Hj.
  apply andb_true_iff in Ht as [Hne Ht].
  apply negb_true_iff in Hne. rewrite Hne, Ht.
  destruct (Py.split1_1 "{" (Py.strip line)) as [after|e]; [|discriminate].
  destruct (json_loads ("{" +:+ after)) as [message|args]; [discriminate|].
  destruct (create_task args) as [message|[task result]].
  - unfold handler; cbn [cell_id cells drawn].
    eexists; split; [reflexivity|]. cbn [cell_id cells].
    split; [reflexivity|]. unfold Dict.mem. now rewrite DictFacts.get_set_same.
  - eexists; split; [reflexivity|]. cbn [cell_id cells].
    split; [reflexivity|]. unfold Dict.mem. now rewrite DictFacts.get_set_same.
Qed.

End Parser.

Lemma malformed_first_task_line_raises_NameError_witness :
  let response :=
    "Plan." +:+ Py.nl +:+ "NEXT STATE:" +:+ Py.nl +:+ "CELL: a" +:+ Py.nl
    +:+ "  TASK: write the report" +:+ Py.nl +:+ "END STATE" in
  let state_text :=
    Py.nl +:+ "CELL: a" +:+ Py.nl +:+ "  TASK: write the report" +:+ Py.nl in
  state_text_of response = Ok state_text /\
  Py.split_char "010" state_text
  = [""; "CELL: a"] ++ "  TASK: write the report" :: [""] /\
  forallb (fun l => negb (is_task_line l)) [""; "CELL: a"] = true /\
  is_task_line "  TASK: write the report" = true /\
  json_fails Demo.loads "  TASK: write the report" = true /\
  parse_state Demo.loads Demo.build_task Demo.uuid4 0 response
  = Raise (UnboundLocalError "cell_id").
Proof.
  intros response state_text.
  do 5 (split; [reflexivity|]).
  exact (proj1 (@malformed_first_task_line_raises_NameError
                  string Demo.loads Demo.build_task Demo.uuid4 0
                  response state_text
                  [""; "CELL: a"] [""] "  TASK: write the report"
                  eq_refl eq_refl eq_refl eq_refl eq_refl)).
Defined.

(** A well-formed [TASK:] line followed by a malformed one: the cell of
    the first is replaced by the error text of the second. *)
Example second_task_line_overwrites_the_first :
  let response :=
    "NEXT STATE:" +:+ Py.nl +:+ "TASK: {}" +:+ Py.nl
    +:+ "TASK: {oops" +:+ Py.nl +:+ "END STATE" in
  parse_state Demo.loads Demo.build_task Demo.uuid4 0 response
  = Ok (LoopDone
          (mkLocals
             [(Demo.uuid4 0,
               error_cell string "Expecting property name")]
             (Some (Demo.uuid4 0)) 1)).
Proof. reflexivity. Qed.

End FunctionalFacts.

(* ===================================================================== *)
(** * LangGraph v2: the history and the walk along the parents             *)
(* ===================================================================== *)

Module LangGraphFacts.
Import LangGraph.

Section Graph.

Variable Json : Type.
Variable json_loads : string -> option Json.
Variable json_truthy : Json -> bool.
Variable dict_update : Dict.t Json -> Json -> result (Dict.t Json).
Variable LLM : Type.
Variable predict : LLM -> Prompt Json -> string * LLM.

(** ** What each node appends to the history *)









(** ** The walk along [parent_id] *)

Lemma walk_is_truthy (nds : Dict.t (ProjectNode Json)) (start : option string)
      (n : nat) (k : string) :
  walk nds start n = Some k -> truthy (Some k) = true.
Proof.
  destruct n as [|n]; cbn [walk].
  - destruct (truthy start) eqn:E; [|discriminate]. now intros ->.
  - destruct (walk nds start n) as [k0|]; [|discriminate].
    destruct (Dict.get nds k0) as [node|]; [|discriminate].
    destruct (truthy (parent_id node)) eqn:E; [|discriminate]. now intros <-.
Qed.

Lemma walk_shift (nds : Dict.t (ProjectNode Json)) (start : option string)
      (i n : nat) :
  walk nds (walk nds start i) n = walk nds start (i + n).
Proof.
  induction n as [|n IH].
  - rewrite Nat.add_0_r. cbn [walk].
    destruct (walk nds start i) as [k|] eqn:E; [|reflexivity].
    now rewrite (@walk_is_truthy _ _ _ _ E).
  - rewrite Nat.add_succ_r. cbn [walk]. now rewrite IH.
Qed.

Lemma walk_stays_ended (nds : Dict.t (ProjectNode Json)) (start : option string)
      (n m : nat) :
  walk nds start n = None -> walk nds start (n + m) = None.
Proof.
  intros H. induction m as [|m IH].
  - now rewrite Nat.add_0_r.
  - rewrite Nat.add_succ_r. cbn [walk]. now rewrite IH.
Qed.

Lemma walk_period (nds : Dict.t (ProjectNode Json)) (k : string) (p m : nat) :
  walk nds (Some k) p = Some k -> walk nds (Some k) (m * p) = Some k.
Proof.
  intros Hp. induction m as [|m IH].
  - cbn [Nat.mul walk]. now rewrite (@walk_is_truthy _ _ _ _ Hp).
  - cbn [Nat.mul]. now rewrite <- walk_shift, Hp.
Qed.

(** A chain that comes back to a node never ends. *)
Lemma cyclic_walk_never_ends (nds : Dict.t (ProjectNode Json))
      (start : option string) :
  cyclic nds start -> forall n, walk nds start n <> None.
Proof.
  intros (i & j & k & Hij & Hi & Hj) n Hn.
  assert (Hp : walk nds (Some k) (j - i) = Some k).
  { rewrite <- Hi at 1. rewrite walk_shift.
    now replace (i + (j - i)) with j by lia. }
  assert (Hk : forall m, walk nds (Some k) m <> None).
  { intros m Hm.
    pose proof (@walk_period nds k (j - i) m Hp) as Hper.
    pose proof (@walk_stays_ended nds (Some k) m (m * (j - i) - m) Hm) as He.
    replace (m + (m * (j - i) - m)) with (m * (j - i)) in He by nia.
    congruence. }
  destruct (Nat.le_gt_cases n i) as [Hle|Hgt].
  - pose proof (@walk_stays_ended nds start n (i - n) Hn) as He.
    replace (n + (i - n)) with i in He by lia. congruence.
  - apply (Hk (n - i)). rewrite <- Hi, walk_shift.
    now replace (i + (n - i)) with n by lia.
Qed.

Lemma walk_falsy (nds : Dict.t (ProjectNode Json)) (o : option string) (n : nat) :
  truthy o = false -> walk nds o n = None.
Proof.
  intros H. induction n as [|n IH]; cbn [walk]; [now rewrite H | now rewrite IH].
Qed.

Lemma walk_step (nds : Dict.t (ProjectNode Json)) (k : string)
      (node : ProjectNode Json) (n : nat) :
  truthy (Some k) = true ->
  Dict.get nds k = Some node ->
  walk nds (parent_id node) n = walk nds (Some k) (S n).
Proof.
  intros Hk Hget.
  replace (S n) with (1 + n) by reflexivity.
  rewrite <- walk_shift. cbn [walk]. rewrite Hk, Hget.
  destruct (truthy (parent_id node)) eqn:E; [reflexivity|].
  rewrite (@walk_falsy nds (parent_id node) n E).
  symmetry. now apply walk_falsy.
Qed.

Lemma walk_first_steps (nds : Dict.t (ProjectNode Json)) (node_id : option string) :
  (forall n, walk nds node_id n <> None) ->
  exists k node,
    node_id = Some k /\ truthy (Some k) = true /\ Dict.get nds k = Some node /\
    forall n, walk nds (parent_id node) n <> None.
Proof.
  intros H.
  pose proof (H 0) as H0. pose proof (H 1) as H1. cbn [walk] in H0, H1.
  destruct (truthy node_id) eqn:Ht; [|congruence].
  destruct node_id as [k|]; [|discriminate].
  destruct (Dict.get nds k) as [node|] eqn:Hget; [|congruence].
  exists k, node. repeat split; auto.
  intros n. rewrite (@walk_step nds k node n Ht Hget). apply H.
Qed.

Lemma path_loop_never_ends (nds : Dict.t (ProjectNode Json)) (fuel : nat) :
  forall node_id path,
    (forall n, walk nds node_id n <> None) ->
    path_loop fuel nds node_id path = OutOfFuel.
Proof.
  induction fuel as [|fuel IH]; intros node_id path H; [reflexivity|].
  destruct (@walk_first_steps _ _ H) as (k & node & -> & Ht & Hget & Hrest).
  cbn [path_loop]. rewrite Ht, Hget. now apply IH.
Qed.

(** Writing a summary leaves the parents as they are. *)
Lemma walk_after_summary (nds : Dict.t (ProjectNode Json)) (k : string)
      (node : ProjectNode Json) (s : string) (start : option string) (n : nat) :
  Dict.get nds k = Some node ->
  walk (Dict.set nds k (set_summary node s)) start n = walk nds start n.
Proof.
  intros Hget. induction n as [|n IH]; cbn [walk]; [reflexivity|].
  rewrite IH. destruct (walk nds start n) as [k0|]; [|reflexivity].
  destruct (String.eqb k k0) eqn:E.
  - apply String.eqb_eq in E; subst k0.
    rewrite DictFacts.get_set_same, Hget. now destruct node.
  - apply String.eqb_neq in E.
    now rewrite DictFacts.get_set_other.
Qed.

Lemma propagate_loop_never_ends (fuel : nat) :
  forall nds l node_id,
    (forall n, walk nds node_id n <> None) ->
    propagate_loop predict fuel l nds node_id = OutOfFuel.
Proof.
  induction fuel as [|fuel IH]; intros nds l node_id H; [reflexivity|].
  destruct (@walk_first_steps _ _ H) as (k & node & -> & Ht & Hget & Hrest).
  cbn [propagate_loop]. rewrite Ht, Hget.
  destruct (predict l _) as [sm l'].
  apply IH. intros n. rewrite (@walk_after_summary nds k node sm _ n Hget). apply Hrest.
Qed.

(** Where the walk has returned, it has ended at a node without a
    parent, or it never started. *)
Lemma path_loop_returned (nds : Dict.t (ProjectNode Json)) (fuel : nat) :
  forall node_id acc path,
    path_loop fuel nds node_id acc = Returned path ->
    exists visited,
      path = rev (acc ++ visited) /\
      match rev visited with
      | [] => truthy node_id = false
      | root :: _ => truthy (parent_id root) = false
      end.
Proof.
  induction fuel as [|fuel IH]; intros node_id acc path; [discriminate|].
  cbn [path_loop].
  destruct node_id as [k|].
  - destruct (truthy (Some k)) eqn:Ht.
    + destruct (Dict.get nds k) as [node|]; [|discriminate].
      intros H. apply IH in H as (visited & -> & Hshape).
      exists (node :: visited). split; [now rewrite <- app_assoc|].
      cbn [rev]. destruct (rev visited) as [|root rest]; cbn [app]; assumption.
    + intros [= <-]. exists []. now rewrite app_nil_r.
  - intros [= <-]. exists []. now rewrite app_nil_r.
Qed.

(** C10: [get_path_to_current] and the walk of [_propagate_summaries]
    test nothing but the truth value of [node_id].  On a state whose
    chain of parents comes back to a node they do not end, whatever
    the fuel, and raise nothing; where [get_path_to_current] returns,
    the chain has no cycle and the path starts at a node without a
    parent (or the focus is the empty id and the path is empty). *)
Theorem parent_walk_ends_only_without_cycle (state : SystemState Json) :
  (cyclic (nodes state) (Some (current_focus_id state)) ->
   (forall fuel, get_path_to_current fuel state = OutOfFuel) /\
   (forall fuel l, _propagate_summaries predict fuel l state = OutOfFuel))
  /\
  (forall fuel path,
      get_path_to_current fuel state = Returned path ->
      ~ cyclic (nodes state) (Some (current_focus_id state)) /\
      match path with
      | [] => current_focus_id state = EmptyString
      | root :: _ => truthy (parent_id root) = false
      end).
Proof.
  assert (Hcyc : cyclic (nodes state) (Some (current_focus_id state)) ->
                 forall fuel, get_path_to_current fuel state = OutOfFuel).
  { intros Hc fuel. apply path_loop_never_ends.
    now apply cyclic_walk_never_ends. }
  split; [intros Hc; split; [now apply Hcyc|] |].
  - intros fuel l.
    pose proof (@cyclic_walk_never_ends _ _ Hc) as Hinf.
    destruct (@walk_first_steps _ _ Hinf) as (k & node & [= <-] & Ht & Hget & Hrest).
    unfold _propagate_summaries, get_current_node, Dict.getitem.
    rewrite Hget. destruct (predict l _) as [sm l'].
    rewrite propagate_loop_never_ends; [reflexivity|].
    intros n. rewrite (@walk_after_summary _ _ node sm _ n Hget). apply Hrest.
  - intros fuel path Hret. split.
    + intros Hc. rewrite (Hcyc Hc fuel) in Hret. discriminate.
    + unfold get_path_to_current in Hret.
      apply path_loop_returned in Hret as (visited & -> & Hshape).
      cbn [app]. destruct (rev visited) as [|root rest]; [|assumption].
      cbn [truthy] in Hshape.
      destruct (String.eqb (current_focus_id state) "") eqn:E; [|discriminate].
      now apply String.eqb_eq in E.
Qed.

(** On a chain that ends, the walk returns. *)
Lemma path_loop_returns (nds : Dict.t (ProjectNode Json)) (n : nat) :
  forall node_id acc,
    walk nds node_id n = None ->
    (forall m k, walk nds node_id m = Some k -> Dict.get nds k <> None) ->
    exists path, path_loop (S n) nds node_id acc = Returned path.
Proof.
  induction n as [|n IH]; intros node_id acc Hend Hall.
  - cbn [walk] in Hend. cbn [path_loop].
    destruct node_id as [k|]; [|eauto].
    destruct (truthy (Some k)); [discriminate | eauto].
  - cbn [path_loop]. destruct node_id as [k|]; [|eauto].
    destruct (truthy (Some k)) eqn:Ht; [|eauto].
    destruct (Dict.get nds k) as [node|] eqn:Hget.
    + apply IH.
      * now rewrite (@walk_step nds k node n Ht Hget).
      * intros m k' Hm. apply (Hall (S m)).
        now rewrite <- (@walk_step nds k node m Ht Hget).
    + exfalso. apply (Hall 0 k); [|assumption]. cbn [walk]. now rewrite Ht.
Qed.

End Graph.


(** A pass that goes through the recovery prompt has appended its three
    entries when [_update_structure] raises on the recovered text. *)
Example recovered_pass_raises :
  iteration Demo.loads_opt Demo.truthy_text Demo.update_raw (@Demo.script _)
            5 ["add content"; "some prose"; "{fixed}"; "short summary"]
            (create_project string "Write a report")
  = Raised ValueError.
Proof. reflexivity. Qed.


Lemma looped_is_cyclic :
  cyclic (nodes Demo.looped) (Some (current_focus_id Demo.looped)).
Proof.
  exists 0, 2, "a". split; [lia|]. split; reflexivity.
Qed.

Lemma parent_walk_ends_only_without_cycle_witness :
  cyclic (nodes Demo.looped) (Some (current_focus_id Demo.looped)) /\
  (forall fuel, get_path_to_current fuel Demo.looped = OutOfFuel) /\
  (forall fuel l,
      _propagate_summaries (@Demo.script _) fuel l Demo.looped = OutOfFuel).
Proof.
  split; [exact looped_is_cyclic|].
  exact (proj1 (@parent_walk_ends_only_without_cycle string (list string)
                  (@Demo.script _) Demo.looped) looped_is_cyclic).
Defined.

End LangGraphFacts.

(* ===================================================================== *)
(** * [_apply_changes] of v4 on the store: the argument is left alone      *)
(* ===================================================================== *)

Module V4StoreFacts.
Import V4 V4Store.

(** ** Writing and allocating *)

Lemma length_write (h : store) (l : loc) (o : obj) :
  length (write h l o) = length h.
Proof.
  revert l; induction h as [|x h IH]; intros [|l]; simpl; auto.
Qed.

Lemma nth_error_write_same (h : store) (l : loc) (o : obj) :
  l < length h -> nth_error (write h l o) l = Some o.
Proof.
  revert l; induction h as [|x h IH]; intros [|l]; simpl; intros H;
    try lia; auto. apply IH. lia.
Qed.

Lemma nth_error_write_other (h : store) (l l' : loc) (o : obj) :
  l <> l' -> nth_error (write h l o) l' = nth_error h l'.
Proof.
  revert l l'; induction h as [|x h IH]; intros [|l] [|l'] H; simpl;
    auto; try congruence.
Qed.

Lemma write_app_r (h0 ext : store) (l : loc) (o : obj) :
  length h0 <= l -> write (h0 ++ ext) l o = h0 ++ write ext (l - length h0) o.
Proof.
  revert l; induction h0 as [|x h0 IH]; intros l H; simpl in *.
  - now rewrite Nat.sub_0_r.
  - destruct l as [|l]; [lia|]. simpl. f_equal. apply IH. lia.
Qed.

Lemma extends_refl (h : store) : extends h h.
Proof. exists []. now rewrite app_nil_r. Qed.

Lemma extends_trans (h1 h2 h3 : store) :
  extends h1 h2 -> extends h2 h3 -> extends h1 h3.
Proof.
  intros [e1 ->] [e2 ->]. exists (e1 ++ e2). now rewrite app_assoc.
Qed.

Lemma extends_alloc (h : store) (o : obj) : extends h (h ++ [o]).
Proof. now exists [o]. Qed.

Lemma extends_write (h0 h : store) (l : loc) (o : obj) :
  extends h0 h -> length h0 <= l -> extends h0 (write h l o).
Proof.
  intros [ext ->] Hl. eexists. now apply write_app_r.
Qed.

Lemma extends_length (h h' : store) : extends h h' -> length h <= length h'.
Proof. intros [ext ->]. rewrite length_app. lia. Qed.

Lemma extends_nth_error (h h' : store) (l : loc) (o : obj) :
  extends h h' -> nth_error h l = Some o -> nth_error h' l = Some o.
Proof.
  intros [ext ->] H. rewrite nth_error_app1; [assumption|].
  apply nth_error_Some. congruence.
Qed.

Lemma nth_error_alloc (h : store) (o : obj) :
  nth_error (h ++ [o]) (length h) = Some o.
Proof. rewrite nth_error_app2, Nat.sub_diag; auto. Qed.

(** ** The value of a dictionary of cells *)

Lemma view_cells_extends (h h' : store) (entries : Dict.t loc) (cs : Dict.t Cell) :
  extends h h' -> view_cells h entries = Some cs -> view_cells h' entries = Some cs.
Proof.
  intros He. revert cs; induction entries as [|[k l] rest IH]; intros cs; simpl.
  - auto.
  - destruct (nth_error h l) as [[c| |]|] eqn:Hl; try discriminate.
    destruct (view_cells h rest) as [rest'|]; [|discriminate].
    intros [= <-].
    now rewrite (@extends_nth_error _ _ _ _ He Hl), (IH rest' eq_refl).
Qed.

(** Writing an object that is no cell over an object that is no cell. *)
Lemma view_cells_write_other (h : store) (l : loc) (o o' : obj)
      (entries : Dict.t loc) (cs : Dict.t Cell) :
  nth_error h l = Some o' ->
  (forall c, o' <> OCell c) ->
  view_cells h entries = Some cs ->
  view_cells (write h l o) entries = Some cs.
Proof.
  intros Hl Hno. revert cs; induction entries as [|[k c] rest IH]; intros cs; simpl.
  - auto.
  - destruct (nth_error h c) as [[cell| |]|] eqn:Hc; try discriminate.
    destruct (view_cells h rest) as [rest'|]; [|discriminate].
    intros [= <-].
    assert (l <> c) by (intros ->; rewrite Hl in Hc; injection Hc as ->;
                        now apply (Hno cell)).
    now rewrite nth_error_write_other, Hc, (IH rest' eq_refl).
Qed.

(** Writing a cell over a cell keeps every entry a cell. *)
Lemma view_cells_write_cell (h : store) (l : loc) (cell cell' : Cell)
      (entries : Dict.t loc) (cs : Dict.t Cell) :
  nth_error h l = Some (OCell cell) ->
  view_cells h entries = Some cs ->
  exists cs', view_cells (write h l (OCell cell')) entries = Some cs'.
Proof.
  intros Hl. revert cs; induction entries as [|[k c] rest IH]; intros cs; simpl.
  - eauto.
  - destruct (nth_error h c) as [[cell0| |]|] eqn:Hc; try discriminate.
    destruct (view_cells h rest) as [rest'|]; [|discriminate].
    intros _. destruct (IH rest' eq_refl) as [rest'' ->].
    destruct (Nat.eq_dec l c) as [->|Hne].
    + rewrite nth_error_write_same; [eauto|].
      apply nth_error_Some. congruence.
    + rewrite nth_error_write_other, Hc; eauto.
Qed.

Lemma view_cells_set (h : store) (entries : Dict.t loc) (cs : Dict.t Cell)
      (k : string) (c : loc) (cell : Cell) :
  view_cells h entries = Some cs ->
  nth_error h c = Some (OCell cell) ->
  view_cells h (Dict.set entries k c) = Some (Dict.set cs k cell).
Proof.
  intros Hv Hc. revert cs Hv; induction entries as [|[k0 c0] rest IH];
    intros cs; simpl.
  - intros [= <-]. simpl. now rewrite Hc.
  - destruct (nth_error h c0) as [[cell0| |]|] eqn:Hc0; try discriminate.
    destruct (view_cells h rest) as [rest'|] eqn:Hr; [|discriminate].
    intros [= <-]. simpl.
    destruct (String.eqb k0 k); simpl.
    + now rewrite Hc, Hr.
    + now rewrite Hc0, (IH rest' eq_refl).
Qed.

Lemma view_cells_get (h : store) (entries : Dict.t loc) (cs : Dict.t Cell)
      (k : string) (c : loc) :
  view_cells h entries = Some cs ->
  Dict.get entries k = Some c ->
  exists cell, nth_error h c = Some (OCell cell) /\ Dict.get cs k = Some cell.
Proof.
  revert cs; induction entries as [|[k0 c0] rest IH]; intros cs; simpl;
    [discriminate|].
  destruct (nth_error h c0) as [[cell0| |]|] eqn:Hc0; try discriminate.
  destruct (view_cells h rest) as [rest'|] eqn:Hr; [|discriminate].
  intros [= <-]. simpl.
  destruct (String.eqb k0 k).
  - intros [= <-]. eauto.
  - now apply IH.
Qed.


(** ** References that are new with respect to a store *)

Lemma new_in_set (h0 : store) (entries : Dict.t loc) (k : string) (c : loc) :
  new_in h0 entries -> length h0 <= c -> new_in h0 (Dict.set entries k c).
Proof.
  unfold new_in. induction entries as [|[k0 c0] rest IH]; simpl; intros H Hc.
  - now constructor.
  - inversion H; subst. destruct (String.eqb k0 k); constructor; auto.
Qed.

Lemma new_in_get (h0 : store) (entries : Dict.t loc) (k : string) (c : loc) :
  new_in h0 entries -> Dict.get entries k = Some c -> length h0 <= c.
Proof.
  unfold new_in. induction entries as [|[k0 c0] rest IH]; simpl; intros H;
    [discriminate|].
  inversion H; subst. destruct (String.eqb k0 k); [now intros [= <-]|auto].
Qed.


(** ** [deepcopy] *)

Lemma memo_ok_extends (h0 h h' : store) (memo : list (loc * loc)) :
  extends h h' -> memo_ok h0 h memo -> memo_ok h0 h' memo.
Proof.
  intros He H l l' Hg. destruct (H l l' Hg) as (Hl & c & H1 & H2).
  split; [assumption|]. exists c.
  split; eapply extends_nth_error; eauto.
Qed.

Lemma deepcopy_cells_spec (h0 : store) (entries : Dict.t loc) :
  forall h memo cs,
    view_cells h entries = Some cs ->
    memo_ok h0 h memo ->
    length h0 <= length h ->
    exists h' memo' entries',
      deepcopy_cells h memo entries = Some (h', memo', entries') /\
      extends h h' /\ view_cells h' entries' = Some cs /\ new_in h0 entries'.
Proof.
  induction entries as [|[k l] rest IH]; intros h memo cs Hv Hm Hlen.
  - simpl in *. injection Hv as <-.
    exists h, memo, []. repeat split; auto using extends_refl. constructor.
  - simpl in Hv.
    destruct (nth_error h l) as [[c| |]|] eqn:Hl; try discriminate.
    destruct (view_cells h rest) as [rest'|] eqn:Hr; [|discriminate].
    injection Hv as <-. cbn [deepcopy_cells].
    destruct (memo_get memo l) as [l'|] eqn:Hg.
    + destruct (Hm l l' Hg) as (Hnew & c' & H1 & H2).
      rewrite Hl in H1. injection H1 as <-.
      destruct (IH h memo rest' Hr Hm Hlen) as (h' & memo' & rest'' & Hdc & He & Hv' & Hn).
      rewrite Hdc.
      exists h', memo', ((k, l') :: rest''). repeat split; auto.
      * simpl. now rewrite (@extends_nth_error _ _ _ _ He H2), Hv'.
      * constructor; assumption.
    + rewrite Hl. unfold alloc. cbv beta iota.
      assert (He1 : extends h (h ++ [OCell c])) by apply extends_alloc.
      match goal with
      | |- context [deepcopy_cells ?a ?b rest] => set (h1 := a); set (memo1 := b)
      end.
      assert (Hr1 : view_cells h1 rest = Some rest')
        by (eapply view_cells_extends; eauto).
      assert (Hm1 : memo_ok h0 h1 memo1).
      { intros x x' Hx. simpl in Hx.
        destruct (l =? x) eqn:E.
        - apply Nat.eqb_eq in E; subst x. injection Hx as <-.
          split; [assumption|]. exists c. split.
          + eapply extends_nth_error; eauto.
          + apply nth_error_alloc.
        - eapply memo_ok_extends; eauto. }
      assert (Hlen1 : length h0 <= length h1)
        by (unfold h1; rewrite length_app; lia).
      destruct (IH _ _ _ Hr1 Hm1 Hlen1) as (h' & memo' & rest'' & Hdc & He & Hv' & Hn).
      rewrite Hdc.
      exists h', memo', ((k, length h) :: rest''). repeat split; auto.
      * eapply extends_trans; eauto.
      * simpl.
        rewrite (@extends_nth_error _ _ _ _ He (nth_error_alloc h (OCell c))).
        now rewrite Hv'.
      * constructor; assumption.
Qed.

Lemma view_inv (h : store) (state : loc) (st : SystemState) :
  view h state = Some st ->
  exists d entries,
    nth_error h state = Some (OState d (current_cell_id st) (state_metadata st)) /\
    nth_error h d = Some (OCells entries) /\
    view_cells h entries = Some (cells st).
Proof.
  unfold view.
  destruct (nth_error h state) as [[c|e|d cur md]|] eqn:Hs; try discriminate.
  destruct (nth_error h d) as [[c|entries|d' cur' md']|] eqn:Hd; try discriminate.
  destruct (view_cells h entries) as [cs|] eqn:Hv; [|discriminate].
  intros [= <-]. exists d, entries. cbn.
  split; [reflexivity|]. split; [exact Hd | exact Hv].
Qed.

Lemma owned_view (h0 h : store) (state : loc) :
  owned h0 h state -> exists st, view h state = Some st.
Proof.
  intros (d & cur & md & entries & cs & Hs & Hd & Hv & _).
  unfold view. rewrite Hs, Hd, Hv. eauto.
Qed.

Lemma owned_reachable (h0 h : store) (state : loc) :
  owned h0 h state -> Forall (fun l => length h0 <= l) (reachable h state).
Proof.
  intros (d & cur & md & entries & cs & Hs & Hd & Hv & H1 & H2 & H3).
  unfold reachable. rewrite Hs, Hd.
  constructor; [assumption|]. constructor; [assumption|].
  apply Forall_map. exact H3.
Qed.

(** The copy is a state with the same value, made of new objects. *)
Lemma deepcopy_spec (h : store) (state : loc) (st : SystemState) :
  view h state = Some st ->
  exists h' state',
    deepcopy h state = Some (h', state') /\
    extends h h' /\ owned h h' state' /\ view h' state' = Some st.
Proof.
  intros Hview. destruct (@view_inv _ _ _ Hview) as (d & entries & Hs & Hd & Hv).
  unfold deepcopy. rewrite Hs, Hd.
  assert (Hm0 : memo_ok h h []) by (intros l l' Hg; discriminate).
  destruct (@deepcopy_cells_spec h entries h [] (cells st) Hv Hm0 (le_n _))
    as (h1 & memo' & entries' & Hdc & He & Hv' & Hn).
  rewrite Hdc. unfold alloc. cbv beta iota.
  set (h2 := h1 ++ [OCells entries']).
  set (h3 := h2 ++ [OState (length h1) (current_cell_id st) (state_metadata st)]).
  assert (He2 : extends h1 h2) by apply extends_alloc.
  assert (He3 : extends h2 h3) by apply extends_alloc.
  assert (Hd' : nth_error h3 (length h1) = Some (OCells entries')).
  { eapply extends_nth_error; [exact He3|]. apply nth_error_alloc. }
  assert (Hs' : nth_error h3 (length h2) =
                Some (OState (length h1) (current_cell_id st) (state_metadata st)))
    by apply nth_error_alloc.
  assert (Hv3 : view_cells h3 entries' = Some (cells st)).
  { eapply view_cells_extends; [|exact Hv'].
    eapply extends_trans; eauto. }
  pose proof (@extends_length _ _ He) as Hlen1.
  assert (Hlen2 : length h2 = S (length h1))
    by (unfold h2; rewrite length_app; simpl; lia).
  exists h3, (length h2). split; [reflexivity|]. split.
  - eapply extends_trans; [exact He|]. eapply extends_trans; eauto.
  - split.
    + exists (length h1), (current_cell_id st), (state_metadata st), entries', (cells st).
      repeat split; auto; lia.
    + unfold view. rewrite Hs', Hd', Hv3. now destruct st.
Qed.

(** ** The loop *)

Section Apply.

Variable uuid4 : nat -> string.

Lemma apply_change_owned (h0 h : store) (n : nat) (new_state : loc)
      (change : string) :
  extends h0 h -> owned h0 h new_state ->
  exists h' r,
    apply_change uuid4 h n new_state change = Some (h', r) /\
    extends h0 h' /\ owned h0 h' new_state.
Proof.
  intros He Hown.
  pose proof Hown as (d & cur & md & entries & cs & Hs & Hd & Hv & H1 & H2 & H3).
  assert (Hsd : new_state <> d) by (intros ->; congruence).
  unfold apply_change. rewrite Hs, Hd.
  destruct (Py.startswith change "- NEW CELL:").
  { destruct (Py.split1_1 ":" change) as [after|e]; [|eauto].
    unfold alloc. cbv beta iota.
    set (cell := mkCell (uuid4 n) (Py.strip after) [] []).
    set (h1 := h ++ [OCell cell]).
    assert (He1 : extends h h1) by apply extends_alloc.
    assert (Hd1 : nth_error h1 d = Some (OCells entries))
      by (eapply extends_nth_error; eauto).
    assert (Hdlt : d < length h1) by (apply nth_error_Some; congruence).
    do 2 eexists. split; [reflexivity|]. split.
    - apply extends_write; [|assumption]. eapply extends_trans; eauto.
    - exists d, cur, md, (Dict.set entries (uuid4 n) (length h)),
        (Dict.set cs (uuid4 n) cell).
      repeat split; auto.
      + rewrite nth_error_write_other by congruence.
        eapply extends_nth_error; eauto.
      + now apply nth_error_write_same.
      + eapply view_cells_write_other; [exact Hd1 | discriminate |].
        apply view_cells_set.
        * eapply view_cells_extends; eauto.
        * apply nth_error_alloc.
      + apply new_in_set; [assumption|].
        pose proof (@extends_length _ _ He). lia. }
  destruct (Py.startswith change "- MODIFY CELL").
  { destruct (Py.index (Py.split_ws change) 3) as [cell_id|e]; [|eauto].
    destruct (Py.split1_1 ":" change) as [after|e]; [|eauto].
    destruct (Dict.get entries cell_id) as [c|] eqn:Hg; [|eauto].
    destruct (@view_cells_get _ _ _ _ _ Hv Hg) as (cell & Hc & _).
    rewrite Hc.
    destruct (@view_cells_write_cell h c cell (set_content cell (Py.strip after))
                entries cs Hc Hv) as [cs' Hv'].
    do 2 eexists. split; [reflexivity|]. split.
    - apply extends_write; [assumption|]. eapply new_in_get; eauto.
    - exists d, cur, md, entries, cs'.
      repeat split; auto;
        rewrite nth_error_write_other; auto; intros ->; congruence. }
  destruct (Py.startswith change "SET CURRENT:"); [|eauto].
  destruct (Py.split1_1 ":" change) as [after|e]; [|eauto].
  destruct (Dict.mem entries (Py.strip after)); [|eauto].
  assert (Hlt : new_state < length h) by (apply nth_error_Some; congruence).
  do 2 eexists. split; [reflexivity|]. split.
  - now apply extends_write.
  - exists d, (Some (Py.strip after)), md, entries, cs.
    repeat split; auto.
    + now apply nth_error_write_same.
    + now rewrite nth_error_write_other.
    + eapply view_cells_write_other; [exact Hs | discriminate | exact Hv].
Qed.

Lemma apply_loop_owned (h0 : store) (new_state : loc) (changes : list string) :
  forall h n,
    extends h0 h -> owned h0 h new_state ->
    exists h' r,
      apply_loop uuid4 h n new_state changes = Some (h', r) /\
      extends h0 h' /\ owned h0 h' new_state.
Proof.
  induction changes as [|change rest IH]; intros h n He Hown.
  - exists h, (Ok n). auto.
  - cbn [apply_loop].
    destruct (@apply_change_owned h0 h n new_state change He Hown)
      as (h1 & r & Hstep & He1 & Hown1).
    rewrite Hstep.
    destruct r as [n1|e]; [now apply IH | eauto].
Qed.

Lemma new_cell_line_splits (change : string) :
  Py.startswith change "- NEW CELL:" = true ->
  exists after, Py.split1_1 ":" change = Ok after.
Proof.
  intros Hnew. apply PyFacts.prefix_drop in Hnew. rewrite Hnew.
  change ("- NEW CELL:" +:+ Py.drop (String.length "- NEW CELL:") change)
    with ("- NEW CELL:" +:+ Py.drop 11 change).
  rewrite PyFacts.split1_1_New. eauto.
Qed.

Lemma set_current_line_splits (change : string) :
  Py.startswith change "SET CURRENT:" = true ->
  exists after, Py.split1_1 ":" change = Ok after.
Proof.
  intros Hset. apply PyFacts.prefix_drop in Hset. rewrite Hset.
  change ("SET CURRENT:" +:+ Py.drop (String.length "SET CURRENT:") change)
    with ("SET CURRENT:" +:+ Py.drop 12 change).
  rewrite PyFacts.split1_1_Set. eauto.
Qed.

(** One change returns or raises on the store as the text of the
    change decides: it raises, and then [IndexError], exactly on a
    [- MODIFY CELL] line without a fourth word or without a colon. *)
Lemma apply_change_result (h h' : store) (n : nat) (new_state : loc)
      (change : string) (r : result nat) :
  apply_change uuid4 h n new_state change = Some (h', r) ->
  match r with
  | Ok _ => malformed change = false
  | Raise e => e = IndexError /\ malformed change = true
  end.
Proof.
  unfold apply_change, malformed.
  destruct (nth_error h new_state) as [[c0|es0|d cur md]|]; try discriminate.
  destruct (nth_error h d) as [[c1|entries|d1 cur1 md1]|]; try discriminate.
  destruct (Py.startswith change "- NEW CELL:") eqn:Hnew.
  - destruct (new_cell_line_splits _ Hnew) as [after ->].
    unfold alloc. cbv beta iota. intros [= _ <-]. reflexivity.
  - cbn [negb andb].
    destruct (Py.startswith change "- MODIFY CELL") eqn:Hmod.
    + unfold Py.index, Py.split1_1.
      destruct (nth_error (Py.split_ws change) 3) as [cell_id|].
      * destruct (snd (Py.split1 ":" change)) as [after|].
        -- destruct (Dict.get entries cell_id) as [c|].
           ++ destruct (nth_error h c) as [[cell|es2|d2 cur2 md2]|];
                try discriminate.
              intros [= _ <-]. reflexivity.
           ++ intros [= _ <-]. reflexivity.
        -- intros [= _ <-]. auto.
      * intros [= _ <-]. auto.
    + destruct (Py.startswith change "SET CURRENT:") eqn:Hset.
      * destruct (set_current_line_splits _ Hset) as [after ->].
        destruct (Dict.mem entries (Py.strip after)); intros [= _ <-]; reflexivity.
      * intros [= _ <-]. reflexivity.
Qed.

Lemma apply_loop_result (new_state : loc) (changes : list string) :
  forall h n h' r,
    apply_loop uuid4 h n new_state changes = Some (h', r) ->
    match r with
    | Ok _ => existsb malformed changes = false
    | Raise e => e = IndexError /\ existsb malformed changes = true
    end.
Proof.
  induction changes as [|change rest IH]; intros h n h' r; cbn [apply_loop existsb].
  - now intros [= _ <-].
  - destruct (apply_change uuid4 h n new_state change) as [[h1 [n1|e]]|] eqn:Hc;
      [| |discriminate].
    + apply apply_change_result in Hc. cbn in Hc. rewrite Hc. cbn [orb].
      apply IH.
    + apply apply_change_result in Hc. cbn in Hc. destruct Hc as [-> ->].
      intros [= _ <-]. cbn [orb]. auto.
Qed.

(** C8: [_apply_changes] works on a deep copy.  Whatever the response
    -- changes that apply, changes that name no cell, a change that
    raises -- every object of the store the caller passed in is still
    there with the value it had, and the state the caller holds reads
    as before.  A state is returned exactly when no change line is a
    [- MODIFY CELL] line without a fourth word or without a colon, and
    it is then made of objects that did not exist before the call.  On
    such a line the call raises [IndexError] and returns no state. *)
Theorem apply_changes_leaves_its_argument_alone
        (h : store) (n : nat) (state : loc) (response : string)
        (st : SystemState) :
  view h state = Some st ->
  exists h' r,
    _apply_changes uuid4 h n state response = Some (h', r) /\
    extends h h' /\
    view h' state = Some st /\
    (existsb malformed (changes_of response) = false ->
     exists n' new_state st',
       r = Ok (n', new_state) /\
       view h' new_state = Some st' /\
       Forall (fun l => length h <= l) (reachable h' new_state)) /\
    (existsb malformed (changes_of response) = true ->
     r = Raise IndexError).
Proof.
  intros Hview.
  destruct (@deepcopy_spec _ _ _ Hview) as (h1 & new_state & Hcopy & He1 & Hown1 & _).
  destruct (@apply_loop_owned h new_state (changes_of response) h1 n He1 Hown1)
    as (h2 & r & Hloop & He2 & Hown2).
  pose proof (apply_loop_result _ _ _ _ Hloop) as Hres.
  unfold _apply_changes. rewrite Hcopy, Hloop.
  assert (Hkeep : view h2 state = Some st).
  { destruct (@view_inv _ _ _ Hview) as (d & entries & Hs & Hd & Hv).
    unfold view.
    pose proof He2 as He.
    rewrite (@extends_nth_error _ _ _ _ He Hs), (@extends_nth_error _ _ _ _ He Hd),
      (@view_cells_extends _ _ _ _ He Hv).
    now destruct st. }
  pose proof He2 as He.
  exists h2.
  destruct r as [n'|e]; eexists; (split; [reflexivity|]);
    (split; [exact He|]); (split; [exact Hkeep|]).
  - split; [|intros Hm; rewrite Hm in Hres; discriminate].
    intros _. destruct (@owned_view _ _ _ Hown2) as [st' Hst'].
    exists n', new_state, st'. split; [reflexivity|]. split; [exact Hst'|].
    eapply owned_reachable; eauto.
  - destruct Hres as [-> Hm]. split; [|reflexivity].
    intros Hm'. rewrite Hm in Hm'. discriminate.
Qed.

End Apply.

Lemma apply_changes_leaves_its_argument_alone_witness :
  let h := initial_store "q" in
  let response := "- MODIFY CELL" in
  view h 2 = Some (initial_state "q") /\
  existsb malformed (changes_of response) = true /\
  exists h',
    _apply_changes Demo.uuid4 h 0 2 response = Some (h', Raise IndexError) /\
    extends h h' /\
    view h' 2 = Some (initial_state "q").
Proof.
  intros h response.
  assert (H : view h 2 = Some (initial_state "q")) by reflexivity.
  split; [exact H|]. split; [reflexivity|].
  destruct (@apply_changes_leaves_its_argument_alone Demo.uuid4 h 0 2 response
              (initial_state "q") H)
    as (h' & r & Heq & He & Hv & _ & Hraise).
  exists h'. rewrite (Hraise eq_refl) in Heq.
  split; [exact Heq|]. split; [exact He | exact Hv].
Defined.

(** The call on the line that raises, computed: the copy has been
    made, no state is returned, the original is as it was. *)
Example apply_changes_raises_on_the_initial_store :
  _apply_changes Demo.uuid4 (initial_store "q") 0 2 "- MODIFY CELL"
  = Some (initial_store "q" ++
          [OCell (mkCell "initial" "q" [] []);
           OCells [("initial", 3)];
           OState 4 (Some "initial") []],
          Raise IndexError).
Proof. reflexivity. Qed.

(** The same call, computed: the copy is changed, the original is not. *)
Example apply_changes_on_the_initial_store :
  _apply_changes Demo.uuid4 (initial_store "q") 0 2
                 ("- NEW CELL: draft" +:+ Py.nl +:+ "- MODIFY CELL initial : p")
  = Some (initial_store "q" ++
          [OCell (mkCell "initial" "p" [] []);
           OCells [("initial", 3); (Demo.uuid4 0, 6)];
           OState 4 (Some "initial") [];
           OCell (mkCell (Demo.uuid4 0) "draft" [] [])],
          Ok (1, 5)).
Proof. reflexivity. Qed.

End V4StoreFacts.

(* ===================================================================== *)
(** * The store and the values agree                                       *)
(* ===================================================================== *)

(** On a state none of whose cells is stored under two keys,
    [V4Store._apply_changes] computes, object by object, what
    [V4._apply_changes] computes on values. *)
Module V4Refinement.
Import V4 V4Store V4StoreFacts.









Lemma holds_view (h : store) (state : loc) (st : SystemState) :
  holds h state st -> view h state = Some st.
Proof.
  intros (d & entries & Hs & Hd & Hv & _).
  unfold view. rewrite Hs, Hd, Hv. now destruct st.
Qed.




Section Apply.

Variable uuid4 : nat -> string.




End Apply.


End V4Refinement.

(* ===================================================================== *)
(** * More facts about the string and dictionary operations            *)
(* ===================================================================== *)

Module StringFacts.
Import Py.

Lemma append_assoc (a b c : string) : (a +:+ b) +:+ c = a +:+ b +:+ c.
Proof. induction a as [|x a IH]; simpl; [reflexivity | now rewrite IH]. Qed.

Lemma append_nil_r (a : string) : a +:+ "" = a.
Proof. induction a as [|x a IH]; simpl; [reflexivity | now rewrite IH]. Qed.

Lemma split1_spec (sub t : string) :
  forall before after,
    split1 sub t = (before, Some after) -> t = before +:+ sub +:+ after.
Proof.
  induction t as [|c t IH]; intros before after.
  - cbn [split1]. destruct (prefix sub "") eqn:E; [|discriminate].
    intros H; inversion H; subst. now apply PyFacts.prefix_drop.
  - rewrite PyFacts.split1_cons.
    destruct (prefix sub (String c t)) eqn:E.
    + intros H; inversion H; subst. now apply PyFacts.prefix_drop.
    + destruct (split1 sub t) as [b a]. intros H; inversion H; subst.
      cbn [String.append]. f_equal. now apply IH.
Qed.

Lemma contains_occurs (sub t : string) :
  contains sub t = true -> exists a b, t = a +:+ sub +:+ b.
Proof.
  unfold contains. destruct (split1 sub t) as [before [after|]] eqn:E;
    [|discriminate].
  intros _. exists before, after. now apply split1_spec.
Qed.

Lemma contains_refl (sub : string) : contains sub sub = true.
Proof.
  rewrite <- (append_nil_r sub) at 2.
  apply (PyFacts.contains_app sub "" "").
Qed.

Lemma contains_skip (sub x t : string) :
  contains sub t = true -> contains sub (x +:+ t) = true.
Proof.
  intros H. apply contains_occurs in H as (a & b & ->).
  rewrite <- append_assoc. apply PyFacts.contains_app.
Qed.

Lemma contains_keep (sub t y : string) :
  contains sub t = true -> contains sub (t +:+ y) = true.
Proof.
  intros H. apply contains_occurs in H as (a & b & ->).
  rewrite !append_assoc. apply PyFacts.contains_app.
Qed.

Lemma contains_join (sub sep s : string) (l : list string) :
  In s l -> contains sub s = true -> contains sub (join sep l) = true.
Proof.
  intros Hin Hs. induction l as [|s0 l IH]; [destruct Hin|].
  cbn [join]. destruct l as [|s1 l].
  - destruct Hin as [->|[]]. exact Hs.
  - destruct Hin as [->|Hin].
    + now apply contains_keep.
    + apply contains_skip, contains_skip. now apply IH.
Qed.

End StringFacts.

Module DictKeys.
Import Dict.

Lemma keys_set {V : Type} (d : t V) (k : string) (v : V) :
  map fst (set d k v) = if mem d k then map fst d else map fst d ++ [k].
Proof.
  unfold mem. induction d as [|[k' v'] d IH]; simpl; [reflexivity|].
  destruct (String.eqb k' k) eqn:E; simpl; [reflexivity|].
  rewrite IH. now destruct (get d k).
Qed.


Lemma mem_keys {V : Type} (d : t V) (k : string) :
  mem d k = true <-> In k (map fst d).
Proof.
  unfold mem. induction d as [|[k' v'] d IH]; simpl.
  - split; [discriminate | tauto].
  - destruct (String.eqb k' k) eqn:E.
    + apply String.eqb_eq in E. split; auto.
    + apply String.eqb_neq in E. rewrite IH. split; [auto | intros [H|H]; [contradiction | assumption]].
Qed.

End DictKeys.

(* ===================================================================== *)
(** * Final code v4: what [_apply_changes] keeps                       *)
(* ===================================================================== *)

Module V4Invariants.
Import V4.

Lemma ids_match_get (d : Dict.t Cell) (k : string) (c : Cell) :
  forallb (fun kv => String.eqb (fst kv) (id (snd kv))) d = true ->
  Dict.get d k = Some c -> id c = k.
Proof.
  induction d as [|[k' c'] d IH]; simpl; [discriminate|].
  intros H. apply andb_true_iff in H as [Hk Hd].
  destruct (String.eqb k' k) eqn:E.
  - apply String.eqb_eq in E. apply String.eqb_eq in Hk.
    intros [= <-]. congruence.
  - now apply IH.
Qed.

Lemma ids_match_set (d : Dict.t Cell) (k : string) (c : Cell) :
  forallb (fun kv => String.eqb (fst kv) (id (snd kv))) d = true ->
  id c = k ->
  forallb (fun kv => String.eqb (fst kv) (id (snd kv))) (Dict.set d k c) = true.
Proof.
  intros H Hc. induction d as [|[k' c'] d IH]; simpl.
  - rewrite Hc, String.eqb_refl. reflexivity.
  - simpl in H. apply andb_true_iff in H as [Hk Hd].
    destruct (String.eqb k' k) eqn:E; simpl.
    + apply String.eqb_eq in E. subst k'. rewrite Hd, Hc, String.eqb_refl. reflexivity.
    + rewrite Hk. now apply IH.
Qed.

Lemma modify_is_not_set (change : string) :
  Py.startswith change "- MODIFY CELL" = true ->
  Py.startswith change "SET CURRENT:" = false.
Proof.
  unfold Py.startswith. destruct change as [|a change]; [reflexivity|].
  cbn [prefix]. destruct (ascii_dec "-" a) as [<-|]; [reflexivity | discriminate].
Qed.

Section Solver.

Variable LLM : Type.
Variable get_completion : LLM -> string -> string * LLM.
Variable uuid4 : nat -> string.
Variable config : Config.

(** What one change does to the counter, the keys, the focus and the
    metadata. *)
Lemma apply_change_shape (n n' : nat) (state state' : SystemState)
      (change : string) :
  apply_change uuid4 (n, state) change = Ok (n', state') ->
  state_metadata state' = state_metadata state /\
  (if is_new_cell change
   then n' = S n /\
        keys state' = (if Dict.mem (cells state) (uuid4 n)
                       then keys state else keys state ++ [uuid4 n])
   else n' = n /\ keys state' = keys state) /\
  (if Py.startswith change "SET CURRENT:"
   then True else current_cell_id state' = current_cell_id state) /\
  (current_cell_id state' = current_cell_id state \/
   exists k, current_cell_id state' = Some k /\
             Dict.mem (cells state') k = true) /\
  (ids_match state = true -> ids_match state' = true).
Proof.
  unfold V4.apply_change, is_new_cell, keys, ids_match.
  destruct (Py.startswith change "- NEW CELL:") eqn:Hnew.
  - destruct (Py.split1_1 ":" change) as [after|e]; cbn [bind]; [|discriminate].
    intros [= <- <-]. unfold set_cells; cbn [cells current_cell_id state_metadata].
    split; [reflexivity|]. split; [split; [reflexivity | apply DictKeys.keys_set]|].
    split; [now destruct (Py.startswith change "SET CURRENT:")|].
    split; [now left|].
    intros H. now apply ids_match_set.
  - destruct (Py.startswith change "- MODIFY CELL") eqn:Hmod.
    + assert (Hset : Py.startswith change "SET CURRENT:" = false).
      { now apply modify_is_not_set. }
      rewrite Hset.
      destruct (Py.index (Py.split_ws change) 3) as [cell_id|e]; cbn [bind]; [|discriminate].
      destruct (Py.split1_1 ":" change) as [after|e]; cbn [bind]; [|discriminate].
      destruct (Dict.get (cells state) cell_id) as [c|] eqn:Hget.
      * intros [= <- <-]. unfold set_cells; cbn [cells current_cell_id state_metadata].
        split; [reflexivity|]. split.
        { split; [reflexivity|]. rewrite DictKeys.keys_set. unfold Dict.mem. now rewrite Hget. }
        split; [reflexivity|]. split; [now left|].
        intros H. apply ids_match_set; [assumption|].
        cbn [set_content id]. now apply (ids_match_get _ _ H Hget).
      * intros [= <- <-]. repeat split; auto.
    + destruct (Py.startswith change "SET CURRENT:") eqn:Hset.
      * destruct (Py.split1_1 ":" change) as [after|e]; cbn [bind]; [|discriminate].
        destruct (Dict.mem (cells state) (Py.strip after)) eqn:Hm.
        -- intros [= <- <-]. unfold set_current; cbn [cells current_cell_id state_metadata].
           repeat split; auto. right. eauto.
        -- intros [= <- <-]. repeat split; auto.
      * intros [= <- <-]. repeat split; auto.
Qed.

Lemma apply_change_mem (n n' : nat) (state state' : SystemState)
      (change k : string) :
  apply_change uuid4 (n, state) change = Ok (n', state') ->
  Dict.mem (cells state) k = true -> Dict.mem (cells state') k = true.
Proof.
  intros H Hk. apply apply_change_shape in H as (_ & Hkeys & _).
  apply DictKeys.mem_keys. apply DictKeys.mem_keys in Hk.
  fold (keys state) in Hk. fold (keys state').
  destruct (is_new_cell change).
  - destruct Hkeys as [_ ->]. destruct (Dict.mem (cells state) (uuid4 n)); [assumption|].
    apply in_or_app. now left.
  - now destruct Hkeys as [_ ->].
Qed.

Lemma apply_loop_mem (changes : list string) (k : string) :
  forall n state n' state',
    apply_loop uuid4 changes (n, state) = Ok (n', state') ->
    Dict.mem (cells state) k = true -> Dict.mem (cells state') k = true.
Proof.
  induction changes as [|c cs IH]; intros n state n' state'; cbn [V4.apply_loop].
  - now intros [= _ <-].
  - destruct (apply_change uuid4 (n, state) c) as [[n1 s1]|e] eqn:Hc;
      cbn [bind]; [|discriminate].
    intros Hrest Hm. eapply IH; [exact Hrest|].
    eapply apply_change_mem; eauto.
Qed.

(** The loop of [_apply_changes]: identifiers, keys, focus, metadata. *)
Lemma apply_loop_shape (changes : list string) :
  forall n state n' state',
    apply_loop uuid4 changes (n, state) = Ok (n', state') ->
    n' = n + length (filter is_new_cell changes) /\
    state_metadata state' = state_metadata state /\
    (exists added,
        keys state' = keys state ++ added /\
        length added <= n' - n /\
        forall k, In k added -> exists i, n <= i < n' /\ k = uuid4 i) /\
    (forallb (fun c => negb (Py.startswith c "SET CURRENT:")) changes = true ->
     current_cell_id state' = current_cell_id state) /\
    (current_cell_id state' = current_cell_id state \/
     exists k, current_cell_id state' = Some k /\
               Dict.mem (cells state') k = true) /\
    (ids_match state = true -> ids_match state' = true).
Proof.
  induction changes as [|c cs IH]; intros n state n' state'.
  - cbn [V4.apply_loop]. intros [= <- <-]. cbn [filter length].
    split; [lia|]. split; [reflexivity|]. split.
    { exists []. rewrite app_nil_r. split; [reflexivity|]. split; [cbn; lia|].
      intros k []. }
    repeat split; auto.
  - cbn [V4.apply_loop].
    destruct (apply_change uuid4 (n, state) c) as [[n1 s1]|e] eqn:Hc;
      cbn [bind]; [|discriminate].
    intros Hrest.
    apply apply_change_shape in Hc as (Hmeta & Hkeys & Hfocus & Hor & Hids).
    pose proof (IH _ _ _ _ Hrest) as (Hn & Hmeta' & (added & Hk' & Hlen & Hadded) & Hfocus' & Hor' & Hids').
    cbn [filter].
    split.
    { destruct (is_new_cell c); cbn [length]; destruct Hkeys as [-> _]; lia. }
    split; [congruence|].
    split.
    { destruct (is_new_cell c).
      - destruct Hkeys as [-> Hkeys].
        destruct (Dict.mem (cells state) (uuid4 n)).
        + exists added. rewrite Hk', Hkeys. split; [reflexivity|].
          split; [lia|]. intros k Hin. destruct (Hadded k Hin) as (i & Hi & ->).
          exists i. split; [lia | reflexivity].
        + exists (uuid4 n :: added). rewrite Hk', Hkeys, <- app_assoc.
          split; [reflexivity|]. cbn [length] in *. cbn [filter length] in Hn.
          split; [lia|]. intros k [<-|Hin].
          * exists n. split; [lia | reflexivity].
          * destruct (Hadded k Hin) as (i & Hi & ->).
            exists i. split; [lia | reflexivity].
      - destruct Hkeys as [-> Hkeys]. exists added. rewrite Hk', Hkeys.
        split; [reflexivity|]. split; [assumption|]. exact Hadded. }
    split.
    { cbn [forallb]. intros H. apply andb_true_iff in H as [H1 H2].
      apply negb_true_iff in H1. rewrite H1 in Hfocus.
      rewrite (Hfocus' H2). exact Hfocus. }
    split.
    { destruct Hor' as [Heq|Hex]; [|now right].
      rewrite Heq. destruct Hor as [Heq1|(k & Hk & Hm)]; [now left|].
      right. exists k. split; [assumption|].
      eapply apply_loop_mem; eauto. }
    auto.
Qed.

(** X1: [_apply_changes] raises exactly when one of the change lines
    of the response is a [- MODIFY CELL] line without a fourth word or
    without a colon, and what it raises then is [IndexError]; on
    every other response it returns. *)
Theorem apply_changes_raises_exactly_on_malformed_lines
        (n : nat) (state : SystemState) (response : string) :
  match _apply_changes uuid4 n state response with
  | Ok _ => existsb malformed (changes_of response) = false
  | Raise e => e = IndexError /\ existsb malformed (changes_of response) = true
  end.
Proof.
  unfold _apply_changes. generalize (changes_of response) as changes.
  intros changes. revert n state.
  induction changes as [|c cs IH]; intros n state; cbn [V4.apply_loop existsb].
  - reflexivity.
  - destruct (malformed c) eqn:Hm.
    + rewrite (V4Facts.apply_change_raises uuid4 n state c Hm). cbn [bind orb]. auto.
    + destruct (@V4Facts.apply_change_total uuid4 n state c Hm) as (n1 & s1 & -> & _).
      cbn [bind orb]. apply IH.
Qed.

(** X2: [_apply_changes] never deletes or reorders a cell and never
    touches [metadata]: the keys of the result are the keys of the
    argument, in their order, followed by identifiers drawn during
    the call, and the call draws one identifier for each
    [- NEW CELL:] line. *)
Theorem apply_changes_only_appends_cells
        (n n' : nat) (state state' : SystemState) (response : string) :
  _apply_changes uuid4 n state response = Ok (n', state') ->
  n' = n + length (filter is_new_cell (changes_of response)) /\
  state_metadata state' = state_metadata state /\
  exists added,
    keys state' = keys state ++ added /\
    length added <= n' - n /\
    forall k, In k added -> exists i, n <= i < n' /\ k = uuid4 i.
Proof.
  unfold _apply_changes. intros H.
  apply apply_loop_shape in H as (Hn & Hmeta & Hadd & _). auto.
Qed.

Lemma apply_loop_valid (changes : list string) (n n' : nat)
      (state state' : SystemState) :
  apply_loop uuid4 changes (n, state) = Ok (n', state') ->
  valid state = true -> valid state' = true.
Proof.
  intros H Hv. pose proof (apply_loop_shape _ _ _ H) as (_ & _ & _ & _ & Hor & _).
  unfold valid in *. destruct Hor as [->|(k & -> & Hm)]; [|exact Hm].
  destruct (current_cell_id state) as [k|]; [|reflexivity].
  eapply apply_loop_mem; eauto.
Qed.

(** X3: the focus after [_apply_changes] is the focus before it or
    the key of a cell of the result; without a [SET CURRENT:] line it
    is the focus before it (a new cell is never focused), and a focus
    that named a cell still names one. *)
Theorem focus_moves_only_to_a_cell_of_the_result
        (n n' : nat) (state state' : SystemState) (response : string) :
  _apply_changes uuid4 n state response = Ok (n', state') ->
  (forallb (fun c => negb (Py.startswith c "SET CURRENT:"))
           (changes_of response) = true ->
   current_cell_id state' = current_cell_id state) /\
  (current_cell_id state' = current_cell_id state \/
   exists k, current_cell_id state' = Some k /\
             Dict.mem (cells state') k = true) /\
  (valid state = true -> valid state' = true).
Proof.
  unfold _apply_changes. intros H.
  pose proof (apply_loop_shape _ _ _ H) as (_ & _ & _ & Hf & Hor & _).
  split; [assumption|]. split; [assumption|].
  now apply (apply_loop_valid _ _ _ H).
Qed.

(** X4: when every cell is stored under its own [id], the same
    holds after [_apply_changes]. *)
Theorem apply_changes_keeps_each_cell_under_its_id
        (n n' : nat) (state state' : SystemState) (response : string) :
  ids_match state = true ->
  _apply_changes uuid4 n state response = Ok (n', state') ->
  ids_match state' = true.
Proof.
  unfold _apply_changes. intros Hids H.
  apply apply_loop_shape in H as (_ & _ & _ & _ & _ & Hi). auto.
Qed.

(** X5: every state the loop of [solve] reaches keeps the focus on a
    cell and each cell under its own id; its first cell is the cell
    [initial] of the query, and every other key is an identifier
    drawn during the run. *)
Theorem solve_keeps_the_query_cell_first
        (k : nat) (w w' : World LLM) (query : string) (state : SystemState) :
  iterate get_completion uuid4 config k w (initial_state query)
  = Some (w', state) ->
  valid state = true /\ ids_match state = true /\
  exists added,
    keys state = "initial" :: added /\
    forall key, In key added ->
                exists i, drawn w <= i < drawn w' /\ key = uuid4 i.
Proof.
  assert (G : forall k w s w' s',
             iterate get_completion uuid4 config k w s = Some (w', s') ->
             (valid s = true -> valid s' = true) /\
             (ids_match s = true -> ids_match s' = true) /\
             drawn w <= drawn w' /\
             exists added,
               keys s' = keys s ++ added /\
               forall key, In key added ->
                           exists i, drawn w <= i < drawn w' /\ key = uuid4 i).
  { clear. intros k. induction k as [|k IH]; intros w s w' s'; cbn [iterate].
    - intros [= <- <-]. repeat split; auto.
      exists []. rewrite app_nil_r. split; [reflexivity | intros key []].
    - unfold solve_step.
      destruct (get_completion (llm w) (iteration_prompt config s)) as [response l].
      destruct (Py.contains "STATUS: SOLVED" response); [discriminate|].
      destruct (_apply_changes uuid4 (drawn w) s response) as [[n s1]|e] eqn:Ha;
        [|discriminate].
      intros Hit. apply IH in Hit as (Hv & Hi & Hd & added' & Hk' & Hadd').
      cbn [drawn] in *. unfold _apply_changes in Ha.
      pose proof (apply_loop_valid _ _ _ Ha) as Hv1.
      apply apply_loop_shape in Ha
        as (Hn & _ & (added & Hk & Hlen & Hadd) & _ & _ & Hi1).
      split; [auto|]. split; [auto|]. split; [lia|].
      exists (added ++ added'). rewrite Hk', Hk, <- app_assoc.
      split; [reflexivity|].
      intros key Hin. apply in_app_or in Hin as [Hin|Hin].
      + destruct (Hadd key Hin) as (i & Hi' & ->). exists i. split; [lia | reflexivity].
      + destruct (Hadd' key Hin) as (i & Hi' & ->). exists i. split; [lia | reflexivity]. }
  intros H. apply G in H as (Hv & Hi & _ & added & Hk & Hadd).
  split; [now apply Hv|]. split; [now apply Hi|].
  exists added. split; [exact Hk | exact Hadd].
Qed.

End Solver.

(** ** The [- MODIFY CELL] line *)

Lemma split_ws_run (w : string) :
  forall cur s,
    plain_id w = true ->
    Py.split_ws_aux (Some cur) (w +:+ s) = Py.split_ws_aux (Some (cur +:+ w)) s.
Proof.
  induction w as [|a w IH]; intros cur s H.
  - now rewrite StringFacts.append_nil_r.
  - cbn [plain_id] in H. apply andb_true_iff in H as [H Hw].
    apply andb_true_iff in H as [Hsp _]. apply negb_true_iff in Hsp.
    cbn [String.append Py.split_ws_aux]. rewrite Hsp.
    rewrite (IH _ _ Hw). now rewrite StringFacts.append_assoc.
Qed.


Lemma split_ws_modify (x : string) :
  Py.split_ws ("- MODIFY CELL " +:+ x)
  = "-" :: "MODIFY" :: "CELL" :: Py.split_ws_aux None x.
Proof. reflexivity. Qed.

Lemma split1_plain (w rest : string) :
  plain_id w = true ->
  Py.split1 ":" (w +:+ String ":" rest) = (w, Some rest).
Proof.
  induction w as [|a w IH]; intros H.
  - cbn. now destruct rest.
  - cbn [plain_id] in H. apply andb_true_iff in H as [H Hw].
    apply andb_true_iff in H as [_ Hc]. apply negb_true_iff in Hc.
    cbn [String.append]. rewrite PyFacts.split1_cons.
    cbn [prefix]. destruct (ascii_dec ":" a) as [<-|_]; [discriminate|].
    now rewrite (IH Hw).
Qed.


Lemma split1_modify (x : string) :
  Py.split1 ":" ("- MODIFY CELL " +:+ x)
  = let (before, after) := Py.split1 ":" x in
    ("- MODIFY CELL " +:+ before, after).
Proof.
  cbn. now destruct (Py.split1 ":" x).
Qed.

Lemma plain_id_colon (cid : string) : plain_id (cid +:+ ":") = false.
Proof.
  induction cid as [|a cid IH]; [reflexivity|].
  cbn [String.append plain_id]. rewrite IH. apply andb_false_r.
Qed.

Lemma plain_keys_mem (d : Dict.t Cell) (k : string) :
  forallb plain_id (map fst d) = true -> plain_id k = false ->
  Dict.get d k = None.
Proof.
  induction d as [|[k' c] d IH]; cbn [map fst forallb Dict.get]; [reflexivity|].
  intros H Hk. apply andb_true_iff in H as [Hk' Hd].
  destruct (String.eqb k' k) eqn:E; [|now apply IH].
  apply String.eqb_eq in E. congruence.
Qed.

Section Modify.

Variable uuid4 : nat -> string.

(** X6: a change written as the process prompt asks for it,
    [- MODIFY CELL <id>: <new_content>], with an [<id>] that contains
    neither white space nor a colon, is looked up under its fourth
    word, which is the id with the colon attached.  On a state whose
    keys contain neither a colon nor white space, as those [solve]
    builds, such a line changes nothing, whether or not [<id>] names
    a cell. *)
Theorem modify_line_of_the_prompt_format_changes_nothing
        (n : nat) (state : SystemState) (cid text : string) :
  plain_id cid = true ->
  forallb plain_id (keys state) = true ->
  apply_change uuid4 (n, state) ("- MODIFY CELL " +:+ cid +:+ ": " +:+ text)
  = Ok (n, state).
Proof.
  intros Hcid Hkeys.
  assert (Hidx : Py.index (Py.split_ws ("- MODIFY CELL " +:+ cid +:+ ": " +:+ text)) 3
                 = Ok (cid +:+ ":")).
  { rewrite split_ws_modify. unfold Py.index. cbn [nth_error].
    destruct cid as [|a cid]; [reflexivity|].
    cbn [plain_id] in Hcid. apply andb_true_iff in Hcid as [H Hw].
    apply andb_true_iff in H as [Ha _]. apply negb_true_iff in Ha.
    cbn [String.append Py.split_ws_aux]. rewrite Ha.
    rewrite (split_ws_run _ _ _ Hw). reflexivity. }
  assert (Hsplit : Py.split1_1 ":" ("- MODIFY CELL " +:+ cid +:+ ": " +:+ text)
                   = Ok (" " +:+ text)).
  { unfold Py.split1_1. rewrite split1_modify.
    change (cid +:+ ": " +:+ text) with (cid +:+ String ":" (" " +:+ text)).
    now rewrite (split1_plain _ _ Hcid). }
  unfold V4.apply_change.
  change (Py.startswith ("- MODIFY CELL " +:+ cid +:+ ": " +:+ text) "- NEW CELL:")
    with false.
  rewrite (PyFacts.startswith_app "- MODIFY CELL" (" " +:+ cid +:+ ": " +:+ text)
           : Py.startswith ("- MODIFY CELL " +:+ cid +:+ ": " +:+ text)
                           "- MODIFY CELL" = true).
  rewrite Hidx, Hsplit. cbn [bind].
  now rewrite (@plain_keys_mem _ _ Hkeys (plain_id_colon cid)).
Qed.


End Modify.

Lemma apply_changes_only_appends_cells_witness :
  let state := initial_state "q" in
  let response := "- NEW CELL: draft" +:+ Py.nl +:+ "SET CURRENT: initial" in
  let state' :=
    set_cells state
      (Dict.set (cells state) (Demo.uuid4 0)
         (mkCell (Demo.uuid4 0) "draft" [] [])) in
  _apply_changes Demo.uuid4 0 state response = Ok (1, state') /\
  1 = 0 + length (filter is_new_cell (changes_of response)) /\
  state_metadata state' = state_metadata state /\
  exists added,
    keys state' = keys state ++ added /\
    length added <= 1 - 0 /\
    forall k, In k added -> exists i, 0 <= i < 1 /\ k = Demo.uuid4 i.
Proof.
  intros state response state'.
  split; [reflexivity|].
  exact (@apply_changes_only_appends_cells Demo.uuid4 0 1 state state' response
           eq_refl).
Defined.

Lemma focus_moves_only_to_a_cell_of_the_result_witness :
  let state := initial_state "q" in
  let response := "- NEW CELL: draft" in
  let state' :=
    set_cells state
      (Dict.set (cells state) (Demo.uuid4 0)
         (mkCell (Demo.uuid4 0) "draft" [] [])) in
  _apply_changes Demo.uuid4 0 state response = Ok (1, state') /\
  forallb (fun c => negb (Py.startswith c "SET CURRENT:"))
          (changes_of response) = true /\
  valid state = true /\
  current_cell_id state' = current_cell_id state /\
  valid state' = true.
Proof.
  intros state response state'.
  split; [reflexivity|]. split; [reflexivity|]. split; [reflexivity|].
  split.
  - exact (proj1 (@focus_moves_only_to_a_cell_of_the_result Demo.uuid4 0 1
                    state state' response eq_refl) eq_refl).
  - reflexivity.
Defined.

Lemma apply_changes_keeps_each_cell_under_its_id_witness :
  let state := initial_state "q" in
  let response := "- NEW CELL: draft" +:+ Py.nl +:+ "- MODIFY CELL initial : done" in
  let state' :=
    mkSystemState
      [("initial", mkCell "initial" "done" [] []);
       (Demo.uuid4 0, mkCell (Demo.uuid4 0) "draft" [] [])]
      (Some "initial") [] in
  ids_match state = true /\
  _apply_changes Demo.uuid4 0 state response = Ok (1, state') /\
  ids_match state' = true.
Proof.
  intros state response state'.
  split; [reflexivity|]. split; [reflexivity|].
  exact (@apply_changes_keeps_each_cell_under_its_id Demo.uuid4 0 1
           state state' response eq_refl eq_refl).
Defined.

Lemma solve_keeps_the_query_cell_first_witness :
  let w := mkWorld ["- NEW CELL: draft"; "SET CURRENT: initial"] 0 in
  let w' := mkWorld (@nil string) 1 in
  let state :=
    mkSystemState
      [("initial", mkCell "initial" "q" [] []);
       (Demo.uuid4 0, mkCell (Demo.uuid4 0) "draft" [] [])]
      (Some "initial") [] in
  iterate (@Demo.scripted) Demo.uuid4 DEFAULT_SOLVER_CONFIG 2 w
          (initial_state "q") = Some (w', state) /\
  valid state = true /\ ids_match state = true /\
  exists added,
    keys state = "initial" :: added /\
    forall key, In key added ->
                exists i, drawn w <= i < drawn w' /\ key = Demo.uuid4 i.
Proof.
  intros w w' state.
  split; [reflexivity|].
  exact (@solve_keeps_the_query_cell_first (list string) (@Demo.scripted)
           Demo.uuid4 DEFAULT_SOLVER_CONFIG 2 w w' "q" state eq_refl).
Defined.

Lemma modify_line_of_the_prompt_format_changes_nothing_witness :
  plain_id "initial" = true /\
  forallb plain_id (keys (initial_state "q")) = true /\
  apply_change Demo.uuid4 (0, initial_state "q")
               ("- MODIFY CELL " +:+ "initial" +:+ ": " +:+ "the answer is 4")
  = Ok (0, initial_state "q").
Proof.
  split; [reflexivity|]. split; [reflexivity|].
  exact (@modify_line_of_the_prompt_format_changes_nothing Demo.uuid4 0
           (initial_state "q") "initial" "the answer is 4" eq_refl eq_refl).
Defined.


End V4Invariants.

(* ===================================================================== *)
(** * Final code v4: what [format_state] shows                         *)
(* ===================================================================== *)

Module V4Format.
Import V4 V4Nested.

(** The default templates render a cell as the line [Cell <id>:]
    followed by the line of its content. *)
Lemma cell_block_in_focus (k text : string) :
  Py.contains ("Cell " +:+ k +:+ ":" +:+ Py.nl +:+ "        " +:+ text)
              (current_focus_template DEFAULT_SOLVER_CONFIG k text) = true.
Proof.
  cbn [current_focus_template DEFAULT_SOLVER_CONFIG Py.join].
  do 4 apply StringFacts.contains_skip.
  replace (("        Cell " +:+ k +:+ ":") +:+ Py.nl +:+ ("        " +:+ text)
           +:+ Py.nl +:+ "    ")
    with ("        " +:+ ("Cell " +:+ k +:+ ":" +:+ Py.nl +:+ "        " +:+ text)
          +:+ Py.nl +:+ "    ").
  - apply StringFacts.contains_skip, StringFacts.contains_keep, StringFacts.contains_refl.
  - cbn [String.append]. rewrite !StringFacts.append_assoc. reflexivity.
Qed.

Lemma cell_block_in_list (k text : string) :
  Py.contains ("Cell " +:+ k +:+ ":" +:+ Py.nl +:+ "        " +:+ text)
              (cell_format_template DEFAULT_SOLVER_CONFIG k text) = true.
Proof.
  cbn [cell_format_template DEFAULT_SOLVER_CONFIG Py.join].
  do 2 apply StringFacts.contains_skip.
  replace (("        Cell " +:+ k +:+ ":") +:+ Py.nl +:+ ("        " +:+ text)
           +:+ Py.nl +:+ "    ")
    with ("        " +:+ ("Cell " +:+ k +:+ ":" +:+ Py.nl +:+ "        " +:+ text)
          +:+ Py.nl +:+ "    ").
  - apply StringFacts.contains_skip, StringFacts.contains_keep, StringFacts.contains_refl.
  - cbn [String.append]. rewrite !StringFacts.append_assoc. reflexivity.
Qed.

Lemma get_of_cells (cs : Dict.t Cell) (k : string) :
  Dict.get (map (fun kv => (fst kv, @inl Cell SystemState (snd kv))) cs) k
  = option_map (@inl Cell SystemState) (Dict.get cs k).
Proof.
  induction cs as [|[k' c] cs IH]; cbn [map fst snd Dict.get]; [reflexivity|].
  destruct (String.eqb k' k); [reflexivity | exact IH].
Qed.

(** On a state that holds [Cell] objects only, [format_state] returns,
    and what it returns is the text of [V4.format_state]. *)
Lemma format_state_of_cells (s : V4.SystemState) (config : Config) :
  format_state (of_cells s) config = Ok (V4.format_state s config).
Proof.
  unfold format_state, V4.format_state, of_cells.
  cbn [cells current_cell_id].
  assert (Hlist :
            map (fun kv => cell_format_template config (fst kv) (shown (snd kv)))
                (filter (fun kv => differs (fst kv) (V4.current_cell_id s))
                        (map (fun kv => (fst kv, @inl Cell SystemState (snd kv)))
                             (V4.cells s)))
            = map (fun kv => cell_format_template config (fst kv) (content (snd kv)))
                  (filter (fun kv => differs (fst kv) (V4.current_cell_id s))
                          (V4.cells s))).
  { induction (V4.cells s) as [|[k c] cs IH]; cbn [map filter fst snd]; [reflexivity|].
    destruct (differs k (V4.current_cell_id s)); cbn [map fst snd shown];
      now rewrite IH. }
  rewrite Hlist.
  destruct (V4.current_cell_id s) as [cid|]; [|reflexivity].
  destruct (truthy (Some cid)); [|reflexivity].
  rewrite get_of_cells.
  destruct (Dict.get (V4.cells s) cid); reflexivity.
Qed.



(** The same state with the focus on the nested state. *)
Example format_state_raises_on_a_nested_focus :
  let plan :=
    mkSystemState [("initial", inl (mkCell "initial" "outline" [] []))]
                  (Some "initial") [] in
  format_state
    (mkSystemState
       [("initial", inl (mkCell "initial" "What is 2+2?" [] []));
        ("plan", inr plan)]
       (Some "plan") [])
    DEFAULT_SOLVER_CONFIG
  = Raise (AttributeError "content").
Proof. reflexivity. Qed.

End V4Format.

(* ===================================================================== *)
(** * Final code v10: what ends a run, and what a pass sends           *)
(* ===================================================================== *)

Module V10Pass.
Import V10.

Lemma upper_app (a b : string) :
  Py.upper (a +:+ b) = Py.upper a +:+ Py.upper b.
Proof.
  induction a as [|c a IH]; [reflexivity|].
  cbn [String.append Py.upper]. now rewrite IH, StringFacts.append_assoc.
Qed.

Section Solver.

Variable LLM : Type.
Variable get_completion : LLM -> string -> string * LLM.
Variable config : Config.
Variable _try_parse_state : string -> parse_result.
Variable _create_fallback_state : SystemState -> string -> SystemState.

(** X9: [solve] of v10 looks for the letters SOLVED anywhere in the
    upper-cased response.  A response with a word that contains them
    in any case, say "unsolved", ends the run in that pass, and the
    response is what [solve] returns. *)
Theorem a_word_with_solved_in_it_ends_the_run
        (fuel : nat) (l : LLM) (state : SystemState) (a word b : string) :
  fst (get_completion l (iteration_prompt config state)) = a +:+ word +:+ b ->
  Py.upper word = "SOLVED" ->
  solve_loop get_completion config _try_parse_state _create_fallback_state
             (S fuel) l state
  = Returned (a +:+ word +:+ b,
              snd (get_completion l (iteration_prompt config state))).
Proof.
  intros Hr Hw. cbn [solve_loop]. unfold solve_step.
  destruct (get_completion l (iteration_prompt config state)) as [r l1].
  cbn [fst snd] in *. subst r.
  rewrite !upper_app, Hw, PyFacts.contains_app. reflexivity.
Qed.

(** X10: [solve] of v10 never reads the key [solution_prompt] of
    its configuration: replacing it changes nothing in any run. *)
Theorem solution_prompt_is_never_used
        (other : string -> string) (fuel : nat) (l : LLM) (query : string) :
  solve get_completion
        (mkConfig (main_prompt config) (correction_prompt config)
                  (fallback_prompt config) other)
        _try_parse_state _create_fallback_state fuel l query
  = solve get_completion config _try_parse_state _create_fallback_state
          fuel l query.
Proof.
  unfold solve. generalize (initial_state query) as state. revert l.
  induction fuel as [|fuel IH]; intros l state; [reflexivity|].
  cbn [solve_loop].
  change (solve_step get_completion
            (mkConfig (main_prompt config) (correction_prompt config)
               (fallback_prompt config) other)
            _try_parse_state _create_fallback_state l state)
    with (solve_step get_completion config _try_parse_state
            _create_fallback_state l state).
  destruct (solve_step get_completion config _try_parse_state
              _create_fallback_state l state) as [r l'|l' state'];
    [reflexivity | apply IH].
Qed.

(** X11: what [solve] of v10 returns is an answer of the model to
    an iteration prompt, unchanged, and its upper-case form contains
    SOLVED. *)
Theorem solve_returns_a_raw_response
        (fuel : nat) (l l' : LLM) (query answer : string) :
  solve get_completion config _try_parse_state _create_fallback_state
        fuel l query = Returned (answer, l') ->
  Py.contains "SOLVED" (Py.upper answer) = true /\
  exists l0 state,
    get_completion l0 (iteration_prompt config state) = (answer, l').
Proof.
  unfold solve. generalize (initial_state query) as state. revert l.
  induction fuel as [|fuel IH]; intros l state; [discriminate|].
  cbn [solve_loop].
  destruct (solve_step get_completion config _try_parse_state
              _create_fallback_state l state) as [r l1|l1 state1] eqn:Hs.
  - intros [= <- <-]. unfold solve_step in Hs.
    destruct (get_completion l (iteration_prompt config state)) as [r0 l0] eqn:Hg.
    destruct (Py.contains "SOLVED" (Py.upper r0)) eqn:Hc.
    + injection Hs as <- <-. split; [exact Hc | eauto].
    + destruct (_try_parse_state r0); [discriminate|].
      destruct (get_completion l0 _) as [r2 l2].
      destruct (_try_parse_state r2); [discriminate|].
      destruct (get_completion l2 _) as [r3 l3].
      destruct (_try_parse_state r3); discriminate.
  - apply IH.
Qed.

(** X12: one pass of the loop of v10 asks the model once, twice or
    three times.  The first prompt is the iteration prompt; the
    others can only be a correction prompt or the fallback prompt.  A
    pass that returns has asked once. *)
Theorem a_pass_asks_the_model_at_most_three_times
        (l : LLM) (log : list string) (state : SystemState) :
  match solve_step (logged get_completion) config _try_parse_state
                   _create_fallback_state (l, log) state with
  | Return _ (_, log') => log' = log ++ [iteration_prompt config state]
  | Continue (_, log') _ =>
      exists sent,
        log' = log ++ iteration_prompt config state :: sent /\
        length sent <= 2 /\
        forall p, In p sent ->
                  p = fallback_prompt config \/
                  exists response issues,
                    p = correction_prompt config response issues
  end.
Proof.
  unfold solve_step, logged. cbn [fst snd].
  destruct (get_completion l (iteration_prompt config state)) as [r l1].
  destruct (Py.contains "SOLVED" (Py.upper r)); [reflexivity|].
  destruct (_try_parse_state r) as [s1|i1].
  { exists []. split; [reflexivity|]. split; [cbn; lia | intros p []]. }
  cbn [fst snd].
  destruct (get_completion l1 (correction_prompt config r i1)) as [r2 l2].
  destruct (_try_parse_state r2) as [s2|i2].
  { exists [correction_prompt config r i1]. rewrite <- app_assoc.
    split; [reflexivity|]. split; [cbn; lia|].
    intros p [<-|[]]. right. eauto. }
  cbn [fst snd].
  destruct (get_completion l2 (fallback_prompt config)) as [r3 l3].
  assert (G : exists sent,
             ((log ++ [iteration_prompt config state])
                ++ [correction_prompt config r i1]) ++ [fallback_prompt config]
             = log ++ iteration_prompt config state :: sent /\
             length sent <= 2 /\
             forall p, In p sent ->
                       p = fallback_prompt config \/
                       exists response issues,
                         p = correction_prompt config response issues).
  { exists [correction_prompt config r i1; fallback_prompt config].
    rewrite <- !app_assoc. split; [reflexivity|]. split; [cbn; lia|].
    intros p [<-|[<-|[]]]; [right; eauto | now left]. }
  destruct (_try_parse_state r3); exact G.
Qed.

(** X13: the iteration prompt of v10 shows every cell of the state:
    the line [Cell <id>:], with [(CURRENT)] after the id of the
    focus, followed by the content. *)
Theorem the_prompt_shows_every_cell
        (state : SystemState) (k text : string) :
  In (k, text) (cells state) ->
  Py.contains ("Cell " +:+ k
               +:+ (if is_current k (current_cell_id state)
                    then " (CURRENT)" else "")
               +:+ ":" +:+ Py.nl +:+ text)
              (iteration_prompt config state) = true.
Proof.
  intros Hin. unfold iteration_prompt, _format_state.
  do 4 apply StringFacts.contains_skip.
  apply StringFacts.contains_join
    with (s := Py.nl +:+ "Cell " +:+ k
               +:+ (if is_current k (current_cell_id state)
                    then " (CURRENT)" else "")
               +:+ ":" +:+ Py.nl +:+ text).
  - apply (in_map (fun kv => Py.nl +:+ "Cell " +:+ fst kv
                     +:+ (if is_current (fst kv) (current_cell_id state)
                          then " (CURRENT)" else "")
                     +:+ ":" +:+ Py.nl +:+ snd kv) _ (k, text) Hin).
  - apply StringFacts.contains_skip, StringFacts.contains_refl.
Qed.

End Solver.

Lemma a_word_with_solved_in_it_ends_the_run_witness :
  let answer := "The problem is " +:+ "unsolved" +:+ " so far." in
  let state := initial_state "What is 2+2?" in
  fst (Demo.constant answer tt (iteration_prompt DEFAULT_SOLVER_CONFIG state))
  = "The problem is " +:+ "unsolved" +:+ " so far." /\
  Py.upper "solved" = "SOLVED" /\
  solve_loop (Demo.constant answer) DEFAULT_SOLVER_CONFIG Demo.never_parses
             give_up_state 1 tt state
  = Returned (answer, tt).
Proof.
  intros answer state.
  split; [reflexivity|]. split; [reflexivity|].
  exact (@a_word_with_solved_in_it_ends_the_run unit (Demo.constant answer)
           DEFAULT_SOLVER_CONFIG Demo.never_parses give_up_state 0 tt state
           "The problem is un" "solved" " so far." eq_refl eq_refl).
Defined.

Lemma solve_returns_a_raw_response_witness :
  solve (@Demo.scripted) DEFAULT_SOLVER_CONFIG Demo.never_parses give_up_state
        2 ["four"; "it is four"; "4"; "Solved: 4"] "What is 2+2?"
  = Returned ("Solved: 4", []) /\
  Py.contains "SOLVED" (Py.upper "Solved: 4") = true.
Proof.
  split; [reflexivity|].
  exact (proj1 (@solve_returns_a_raw_response (list string) (@Demo.scripted)
                  DEFAULT_SOLVER_CONFIG Demo.never_parses give_up_state
                  2 ["four"; "it is four"; "4"; "Solved: 4"] []
                  "What is 2+2?" "Solved: 4" eq_refl)).
Defined.

Lemma the_prompt_shows_every_cell_witness :
  let state := initial_state "What is 2+2?" in
  In ("initial", "What is 2+2?") (cells state) /\
  Py.contains ("Cell " +:+ "initial" +:+ " (CURRENT)" +:+ ":" +:+ Py.nl
               +:+ "What is 2+2?")
              (iteration_prompt DEFAULT_SOLVER_CONFIG state) = true.
Proof.
  intros state.
  assert (Hin : In ("initial", "What is 2+2?") (cells state)) by (left; reflexivity).
  split; [exact Hin|].
  exact (@the_prompt_shows_every_cell DEFAULT_SOLVER_CONFIG state
           "initial" "What is 2+2?" Hin).
Defined.

End V10Pass.

(* ===================================================================== *)
(** * Final code functional: the tasks and the loop of [parse_state]   *)
(* ===================================================================== *)

Module TaskFacts.
Import Functional FunctionalTasks.

Section State.

Variable Json : Type.

Lemma tasks_of_keys (cs : Dict.t (CellContent Json)) (k : string) :
  In k (map fst (tasks_of cs)) -> In k (map fst cs).
Proof.
  induction cs as [|[k' cell] cs IH]; cbn [tasks_of map fst]; [auto|].
  destruct (content cell); cbn [map fst In]; intuition.
Qed.

Lemma tasks_of_NoDup (cs : Dict.t (CellContent Json)) :
  NoDup (map fst cs) -> NoDup (map fst (tasks_of cs)).
Proof.
  induction cs as [|[k' cell] cs IH]; cbn [tasks_of map fst]; [auto|].
  intros H. inversion H as [|? ? Hn Hd]; subst.
  destruct (content cell); cbn [map fst]; auto.
  constructor; auto. intros Hin. apply Hn. now apply tasks_of_keys.
Qed.

Lemma tasks_of_length (cs : Dict.t (CellContent Json)) :
  length (tasks_of cs) <= length cs.
Proof.
  induction cs as [|[k' cell] cs IH]; cbn [tasks_of length]; [lia|].
  destruct (content cell); cbn [length]; lia.
Qed.

Lemma get_of_In {V : Type} (d : Dict.t V) (k : string) (v : V) :
  NoDup (map fst d) -> In (k, v) d -> Dict.get d k = Some v.
Proof.
  induction d as [|[k' v'] d IH]; cbn [map fst Dict.get]; [intros _ []|].
  intros H [Heq|Hin].
  - injection Heq as -> ->. now rewrite String.eqb_refl.
  - inversion H as [|? ? Hn Hd]; subst.
    destruct (String.eqb k' k) eqn:E; [|now apply IH].
    apply String.eqb_eq in E. subst k'. exfalso. apply Hn.
    now apply (in_map fst _ (k, v)).
Qed.

Lemma status_eqb_eq (a b : TaskStatus) : status_eqb a b = true -> a = b.
Proof. destruct a, b; (reflexivity || discriminate). Qed.

(** X14: [get_next_tasks] never lists a task together with one of
    its dependencies: a dependency has to be [COMPLETED], and what is
    listed is [PENDING].  In particular a task that depends on itself
    is never ready. *)
Theorem ready_tasks_do_not_depend_on_each_other
        (state : SystemState Json) (k1 k2 : string) (t1 t2 : Task) :
  NoDup (map fst (cells state)) ->
  In (k1, t1) (get_next_tasks state) ->
  In (k2, t2) (get_next_tasks state) ->
  ~ In k2 (dependencies t1).
Proof.
  unfold get_next_tasks. intros Hnd H1 H2 Hdep.
  apply filter_In in H1 as [_ H1]. apply filter_In in H2 as [Hin2 H2].
  cbn [snd] in *.
  apply andb_true_iff in H1 as [_ Hdeps].
  apply andb_true_iff in H2 as [Hp2 _].
  rewrite forallb_forall in Hdeps. specialize (Hdeps k2 Hdep).
  unfold dependency_met in Hdeps.
  pose proof (@tasks_of_NoDup (cells state) Hnd) as Hnd'.
  unfold get_tasks in *.
  rewrite (@get_of_In _ (tasks_of (cells state)) k2 t2 Hnd' Hin2) in Hdeps.
  apply status_eqb_eq in Hdeps. apply status_eqb_eq in Hp2. congruence.
Qed.

Lemma filter_length_le {A : Type} (f : A -> bool) (l : list A) :
  length (filter f l) <= length l.
Proof.
  induction l as [|a l IH]; cbn [filter length]; [lia|].
  destruct (f a); cbn [length]; lia.
Qed.

Lemma filter_length_imp {A : Type} (f g : A -> bool) (l : list A) :
  (forall a, f a = true -> g a = true) ->
  length (filter f l) <= length (filter g l).
Proof.
  intros H. induction l as [|a l IH]; cbn [filter length]; [lia|].
  destruct (f a) eqn:F.
  - rewrite (H a F). cbn [length]. lia.
  - destruct (g a); cbn [length]; lia.
Qed.

(** X15: in the report of [list_tasks], the three counts and the
    number of blocked tasks add up to the number of tasks,
    [next_up] never lists more tasks than are pending, and there are
    at most as many tasks as cells. *)
Theorem task_report_counts_every_task_once (state : SystemState Json) :
  let report := list_tasks state in
  pending report + in_progress report + completed report
  + count_status BLOCKED (get_tasks state)
  = length (get_tasks state) /\
  length (next_up report) <= pending report /\
  length (get_tasks state) <= length (cells state).
Proof.
  cbv zeta. unfold list_tasks. cbn [pending in_progress completed next_up].
  split; [|split].
  - unfold count_status. induction (get_tasks state) as [|[k t] l IH];
      cbn [filter length snd]; [reflexivity|].
    destruct (status t); cbn [status_eqb length]; lia.
  - rewrite length_map. unfold get_next_tasks, count_status.
    apply filter_length_imp. intros a Ha.
    now apply andb_true_iff in Ha as [Ha _].
  - apply tasks_of_length.
Qed.

End State.

Lemma ready_tasks_do_not_depend_on_each_other_witness :
  let survey := mkTask "survey" 1%Z COMPLETED [] "2024-01-01" in
  let write := mkTask "write" 1%Z PENDING ["a"] "2024-01-01" in
  let plan := mkTask "plan" 1%Z PENDING [] "2024-01-01" in
  let review := mkTask "review" 1%Z PENDING ["d"; "a"] "2024-01-01" in
  let state :=
    mkSystemState
      [("a", mkCellContent (ATask string survey) None);
       ("b", mkCellContent (ATask string write) None);
       ("c", mkCellContent (ATask string plan) None);
       ("d", mkCellContent (ATask string review) None);
       ("e", mkCellContent (Text string "notes") None)]
      [] (Some "a") in
  NoDup (map fst (cells state)) /\
  get_next_tasks state = [("b", write); ("c", plan)] /\
  In ("b", write) (get_next_tasks state) /\
  In ("c", plan) (get_next_tasks state) /\
  ~ In "c" (dependencies write) /\
  In "d" (dependencies review) /\
  ~ In ("d", review) (get_next_tasks state).
Proof.
  intros survey write plan review state.
  assert (Hnd : NoDup (map fst (cells state))).
  { repeat constructor; cbn; intuition discriminate. }
  assert (Hb : In ("b", write) (get_next_tasks state)) by (left; reflexivity).
  assert (Hc : In ("c", plan) (get_next_tasks state))
    by (right; left; reflexivity).
  split; [exact Hnd|]. split; [reflexivity|].
  split; [exact Hb|]. split; [exact Hc|].
  split.
  - exact (@ready_tasks_do_not_depend_on_each_other string state "b" "c"
             write plan Hnd Hb Hc).
  - split; [left; reflexivity|].
    intros Hd.
    exact (@ready_tasks_do_not_depend_on_each_other string state "d" "d"
             review review Hnd Hd Hd (or_introl eq_refl)).
Defined.

End TaskFacts.

Module ParserInvariants.
Import Functional.

Section Parser.

Variable Json : Type.
Variable json_loads : string -> string + Json.
Variable create_task : Json -> string + (Task * string).
Variable uuid4 : nat -> string.

(** The cells the loop writes: a task with the result of the tool, or
    the text of an error. *)
Lemma parse_line_shape (st st' : locals Json) (line : string) :
  parse_line json_loads create_task uuid4 st line = Ok st' ->
  (st' = st /\ is_task_line line = false) \/
  (is_task_line line = true /\
   exists k cell,
     cell_id st' = Some k /\
     cells st' = Dict.set (cells st) k cell /\
     ((cell_id st = Some k /\ drawn st' = drawn st) \/
      (k = uuid4 (drawn st) /\ drawn st' = S (drawn st))) /\
     ((exists message, cell = error_cell Json message) \/
      (exists text args task result,
           json_loads text = inr args /\
           create_task args = inr (task, result) /\
           cell = mkCellContent (ATask Json task) (Some result)))).
Proof.
  destruct (is_task_line line) eqn:Ht.
  - intros H. right. split; [reflexivity|].
    unfold parse_line in H. unfold is_task_line in Ht.
    apply andb_true_iff in Ht as [Hne Ht]. apply negb_true_iff in Hne.
    rewrite Hne, Ht in H. unfold task_line in H.
    destruct (Py.split1_1 "{" (Py.strip line)) as [after|e].
    + destruct (json_loads ("{" +:+ after)) as [message|args] eqn:Hjson.
      * unfold handler in H. destruct (cell_id st) as [k|] eqn:Hk; [|discriminate].
        injection H as <-. cbn [cell_id cells drawn].
        exists k, (error_cell Json message). repeat split; eauto.
      * destruct (create_task args) as [message|[task result]] eqn:Hcreate.
        -- unfold handler in H. cbn [cell_id cells drawn] in H.
           injection H as <-. cbn [cell_id cells drawn].
           exists (uuid4 (drawn st)), (error_cell Json message).
           repeat split; eauto.
        -- injection H as <-. cbn [cell_id cells drawn].
           exists (uuid4 (drawn st)), (mkCellContent (ATask Json task) (Some result)).
           split; [reflexivity|]. split; [reflexivity|]. split; [now right|].
           right. exists ("{" +:+ after), args, task, result. auto.
    + unfold handler in H. destruct (cell_id st) as [k|] eqn:Hk; [|discriminate].
      injection H as <-. cbn [cell_id cells drawn].
      exists k, (error_cell Json "list index out of range"). repeat split; eauto.
  - rewrite (FunctionalFacts.parse_line_other json_loads create_task uuid4 st line Ht).
    intros [= <-]. now left.
Qed.

Lemma parse_line_raises (st : locals Json) (line : string) (e : exn) :
  parse_line json_loads create_task uuid4 st line = Raise e ->
  e = UnboundLocalError "cell_id" /\ cell_id st = None.
Proof.
  unfold parse_line.
  destruct (String.eqb (Py.strip line) ""); [discriminate|].
  destruct (Py.startswith (Py.strip line) "TASK:").
  - unfold task_line.
    assert (Hh : forall m, handler st m = Raise e ->
                           e = UnboundLocalError "cell_id" /\ cell_id st = None).
    { intros m. unfold handler. destruct (cell_id st); [discriminate|].
      intros [= <-]. auto. }
    destruct (Py.split1_1 "{" (Py.strip line)) as [after|e0]; [|apply Hh].
    destruct (json_loads ("{" +:+ after)) as [message|args]; [apply Hh|].
    destruct (create_task args) as [message|[task result]]; [|discriminate].
    unfold handler. cbn [cell_id]. discriminate.
  - destruct (Py.startswith (Py.strip line) "TOOL:"); [discriminate|].
    destruct (_ || _); discriminate.
Qed.

(** X16: the loop of [parse_state] can raise nothing but the
    [UnboundLocalError] of [cell_id], and only while no [TASK:] line
    has bound [cell_id]; once it is bound it stays bound and the loop
    runs to its end. *)
Theorem parse_loop_raises_only_before_an_id_is_bound
        (lines : list string) (st : locals Json) :
  match parse_lines json_loads create_task uuid4 lines st with
  | Ok st' => cell_id st <> None -> cell_id st' <> None
  | Raise e => e = UnboundLocalError "cell_id" /\ cell_id st = None
  end.
Proof.
  revert st. induction lines as [|line lines IH]; intros st; cbn [parse_lines].
  - auto.
  - destruct (parse_line json_loads create_task uuid4 st line) as [st1|e] eqn:Hl;
      cbn [bind].
    + specialize (IH st1).
      assert (Hkeep : cell_id st <> None -> cell_id st1 <> None).
      { apply parse_line_shape in Hl as [[-> _]|(_ & k & cell & -> & _)];
          [auto | discriminate]. }
      destruct (parse_lines json_loads create_task uuid4 lines st1) as [st2|e].
      * auto.
      * destruct IH as [-> Hnone]. split; [reflexivity|].
        destruct (cell_id st); [|reflexivity].
        exfalso. apply Hkeep; [discriminate | assumption].
    + now apply parse_line_raises in Hl.
Qed.

(** What the loop has built so far: every cell under an identifier
    drawn since [n], and of one of the two shapes. *)
Lemma parse_lines_inv (n : nat) (lines : list string) :
  forall st st',
    parse_lines json_loads create_task uuid4 lines st = Ok st' ->
    n <= drawn st ->
    (forall k, cell_id st = Some k -> exists i, n <= i < drawn st /\ k = uuid4 i) ->
    (forall k cell, In (k, cell) (cells st) ->
       (exists i, n <= i < drawn st /\ k = uuid4 i) /\
       ((exists message, cell = error_cell Json message) \/
        (exists text args task result,
           json_loads text = inr args /\
           create_task args = inr (task, result) /\
           cell = mkCellContent (ATask Json task) (Some result)))) ->
    drawn st <= drawn st' <= drawn st + length (filter is_task_line lines) /\
    (forall k cell, In (k, cell) (cells st') ->
       (exists i, n <= i < drawn st' /\ k = uuid4 i) /\
       ((exists message, cell = error_cell Json message) \/
        (exists text args task result,
           json_loads text = inr args /\
           create_task args = inr (task, result) /\
           cell = mkCellContent (ATask Json task) (Some result)))).
Proof.
  induction lines as [|line lines IH]; intros st st'; cbn [parse_lines].
  - intros [= <-] Hn Hid Hcells. cbn [filter length]. split; [lia | exact Hcells].
  - destruct (parse_line json_loads create_task uuid4 st line) as [st1|e] eqn:Hl;
      cbn [bind]; [|discriminate].
    intros Hrest Hn Hid Hcells.
    apply parse_line_shape in Hl
      as [[-> Hnt]|(Ht & k & cell & Hk & Hc & Hdrawn & Hshape)].
    + cbn [filter]. rewrite Hnt. now apply IH.
    + cbn [filter]. rewrite Ht. cbn [length].
      assert (Hki : exists i, n <= i < drawn st1 /\ k = uuid4 i).
      { destruct Hdrawn as [[Hold ->]|[-> ->]].
        - now apply Hid.
        - exists (drawn st). split; [lia | reflexivity]. }
      assert (Hle : drawn st <= drawn st1 <= S (drawn st)).
      { destruct Hdrawn as [[_ ->]|[_ ->]]; lia. }
      destruct (IH st1 st' Hrest) as [Hd Hall].
      * lia.
      * intros k0 Hk0. rewrite Hk in Hk0. injection Hk0 as <-. exact Hki.
      * intros k0 cell0 Hin. rewrite Hc in Hin.
        assert (Hcase : (k0 = k /\ cell0 = cell) \/ In (k0, cell0) (cells st)).
        { clear - Hin. induction (cells st) as [|[k' c'] d IHd]; cbn [Dict.set] in Hin.
          - destruct Hin as [[= <- <-]|[]]. now left.
          - destruct (String.eqb k' k) eqn:E.
            + destruct Hin as [[= <- <-]|Hin].
              * apply String.eqb_eq in E. now left.
              * right. now right.
            + destruct Hin as [Heq|Hin]; [right; now left|].
              destruct (IHd Hin) as [?|?]; [now left | right; now right]. }
        destruct Hcase as [[-> ->]|Hold]; [split; assumption|].
        destruct (Hcells _ _ Hold) as [(i & Hi & ->) Hs]. split; [|exact Hs].
        exists i. split; [lia | reflexivity].
      * split; [lia | exact Hall].
Qed.

(** X17: when the listed part of [parse_state] reaches the end of
    its loop, every cell it has built is stored under an identifier
    drawn during the call and is either the text of an error or a
    task that the task-building statements returned, with the result
    of the tool, for arguments [json.loads] returned.  Where these
    statements fail on every argument, as with [create_task] of the
    listing, every cell is the text of an error. *)
Theorem parse_state_stores_only_task_and_error_cells
        (n : nat) (response : string) (st : locals Json) :
  parse_state json_loads create_task uuid4 n response = Ok (LoopDone st) ->
  n <= drawn st /\
  (forall k cell, In (k, cell) (cells st) ->
     (exists i, n <= i < drawn st /\ k = uuid4 i) /\
     ((exists message, cell = error_cell Json message) \/
      (exists text args task result,
          json_loads text = inr args /\
          create_task args = inr (task, result) /\
          cell = mkCellContent (ATask Json task) (Some result)))) /\
  ((forall args, exists message, create_task args = inl message) ->
   forall k cell, In (k, cell) (cells st) ->
                  exists message, cell = error_cell Json message).
Proof.
  unfold parse_state.
  destruct (negb (Py.contains "NEXT STATE:" response)); [discriminate|].
  destruct (state_text_of response) as [state_text|e]; cbn [bind]; [|discriminate].
  destruct (parse_lines json_loads create_task uuid4
              (Py.split_char "010" state_text) (mkLocals [] None n))
    as [st1|e] eqn:Hp; cbn [bind]; [|discriminate].
  intros [= <-].
  destruct (@parse_lines_inv n _ _ _ Hp) as [Hd Hall]; cbn [drawn cell_id cells].
  - lia.
  - discriminate.
  - intros k cell [].
  - cbn [drawn] in Hd. split; [lia|]. split; [exact Hall|].
    intros Hfail k cell Hin.
    destruct (Hall k cell Hin) as [_ [Herr|(text & args & task & result & _ & Hc & _)]];
      [exact Herr|].
    destruct (Hfail args) as [message Hm]. congruence.
Qed.

End Parser.

Lemma parse_state_stores_only_task_and_error_cells_witness :
  let response :=
    "NEXT STATE:" +:+ Py.nl +:+ "TASK: {}" +:+ Py.nl +:+ "END STATE" in
  let st :=
    mkLocals
      [(Demo.uuid4 0, error_cell string "'description'")]
      (Some (Demo.uuid4 0)) 1 in
  parse_state Demo.loads Demo.build_task Demo.uuid4 0 response
  = Ok (LoopDone st) /\
  (forall args, exists message, Demo.build_task args = inl message) /\
  forall k cell, In (k, cell) (cells st) ->
                 exists message, cell = error_cell string message.
Proof.
  intros response st.
  assert (Hfail : forall args, exists message, Demo.build_task args = inl message).
  { intros args. unfold Demo.build_task.
    destruct (Py.contains _ args); eauto. }
  split; [reflexivity|]. split; [exact Hfail|].
  exact (proj2 (proj2 (@parse_state_stores_only_task_and_error_cells string
                         Demo.loads Demo.build_task Demo.uuid4 0 response st
                         eq_refl)) Hfail).
Defined.

End ParserInvariants.

(* ===================================================================== *)
(** * LangGraph v2: the path, the recovery and the tree                *)
(* ===================================================================== *)

Module TreeFacts.
Import LangGraph.

Section Graph.

Variable Json : Type.
Variable json_loads : string -> option Json.
Variable json_truthy : Json -> bool.
Variable dict_update : Dict.t Json -> Json -> result (Dict.t Json).
Variable LLM : Type.
Variable predict : LLM -> Prompt Json -> string * LLM.

Lemma path_loop_chain (nds : Dict.t (ProjectNode Json)) (fuel : nat) :
  forall node_id acc path,
    path_loop fuel nds node_id acc = Returned path ->
    exists visited,
      path = rev (acc ++ visited) /\ chain nds node_id visited /\
      length visited < fuel.
Proof.
  induction fuel as [|fuel IH]; intros node_id acc path; [discriminate|].
  cbn [path_loop].
  destruct node_id as [k|].
  - destruct (truthy (Some k)) eqn:Ht.
    + destruct (Dict.get nds k) as [node|] eqn:Hget; [|discriminate].
      intros H. apply IH in H as (visited & -> & Hchain & Hlen).
      exists (node :: visited). split; [now rewrite <- app_assoc|].
      split; [|cbn [length]; lia].
      cbn [chain]. exists k. auto.
    + intros [= <-]. exists []. rewrite app_nil_r.
      split; [reflexivity|]. split; [exact Ht | cbn; lia].
  - intros [= <-]. exists []. rewrite app_nil_r.
    split; [reflexivity|]. split; [reflexivity | cbn; lia].
Qed.

Lemma chain_path_loop (nds : Dict.t (ProjectNode Json))
      (visited : list (ProjectNode Json)) :
  forall node_id acc fuel,
    chain nds node_id visited ->
    length visited < fuel ->
    path_loop fuel nds node_id acc = Returned (rev (acc ++ visited)).
Proof.
  induction visited as [|node rest IH]; intros node_id acc fuel Hc Hlen;
    (destruct fuel as [|fuel]; [cbn in Hlen; lia|]); cbn [path_loop].
  - cbn [chain] in Hc. rewrite app_nil_r.
    destruct node_id as [k|]; [now rewrite Hc | reflexivity].
  - cbn [chain] in Hc. destruct Hc as (k & -> & Ht & Hget & Hrest).
    rewrite Ht, Hget. cbn [length] in Hlen.
    rewrite (IH _ (acc ++ [node]) fuel Hrest) by lia.
    now rewrite <- app_assoc.
Qed.

(** X18: [get_path_to_current] returns [path] (with enough fuel)
    exactly when [path], read backwards, is the chain of nodes from
    the focus along [parent_id] up to a node without a parent. *)
Theorem path_is_the_chain_of_parents
        (state : SystemState Json) (path : list (ProjectNode Json)) :
  (exists fuel, get_path_to_current fuel state = Returned path) <->
  chain (nodes state) (Some (current_focus_id state)) (rev path).
Proof.
  unfold get_path_to_current. split.
  - intros [fuel H]. apply path_loop_chain in H as (visited & -> & Hc & _).
    cbn [app]. now rewrite rev_involutive.
  - intros Hc. exists (S (length (rev path))).
    rewrite (@chain_path_loop _ _ _ [] _ Hc) by lia.
    cbn [app]. now rewrite rev_involutive.
Qed.

Lemma walk_first (nds : Dict.t (ProjectNode Json)) (node_id : option string)
      (n : nat) (k : string) :
  walk nds node_id (S n) = Some k ->
  exists k0 node,
    node_id = Some k0 /\ truthy (Some k0) = true /\
    Dict.get nds k0 = Some node /\
    walk nds (parent_id node) n = Some k.
Proof.
  intros H.
  destruct (truthy node_id) eqn:Ht.
  - destruct node_id as [k0|]; [|discriminate].
    destruct (Dict.get nds k0) as [node|] eqn:Hget.
    + exists k0, node. repeat split; auto.
      now rewrite (@LangGraphFacts.walk_step Json nds k0 node n Ht Hget).
    + assert (H1 : walk nds (Some k0) 1 = None).
      { cbn [walk]. now rewrite Ht, Hget. }
      pose proof (@LangGraphFacts.walk_stays_ended Json nds (Some k0) 1 n H1) as He.
      cbn [Nat.add] in He. congruence.
  - rewrite (@LangGraphFacts.walk_falsy Json nds node_id (S n) Ht) in H.
    discriminate.
Qed.

Lemma path_loop_dangling (nds : Dict.t (ProjectNode Json)) (k : string) (n : nat) :
  forall node_id acc fuel,
    walk nds node_id n = Some k ->
    Dict.get nds k = None ->
    n < fuel ->
    path_loop fuel nds node_id acc = Raised (KeyError k).
Proof.
  induction n as [|n IH]; intros node_id acc fuel Hw Hget Hlt;
    (destruct fuel as [|fuel]; [lia|]); cbn [path_loop].
  - cbn [walk] in Hw. destruct (truthy node_id) eqn:Ht; [|discriminate].
    subst node_id. now rewrite Ht, Hget.
  - apply walk_first in Hw as (k0 & node & -> & Ht & Hg & Hw).
    rewrite Ht, Hg. apply IH; [assumption | assumption | lia].
Qed.

(** X19: when the chain of parents from the focus reaches an id that
    is no key of [nodes], [get_path_to_current] raises the
    [KeyError] of that id. *)
Theorem dangling_parent_raises_KeyError
        (state : SystemState Json) (n fuel : nat) (k : string) :
  walk (nodes state) (Some (current_focus_id state)) n = Some k ->
  Dict.get (nodes state) k = None ->
  n < fuel ->
  get_path_to_current fuel state = Raised (KeyError k).
Proof.
  intros Hw Hget Hlt. unfold get_path_to_current.
  now apply path_loop_dangling with (n := n).
Qed.


Lemma same_place_refl (n : ProjectNode Json) : same_place n n.
Proof. repeat split. Qed.

Lemma same_tree_refl (nds : Dict.t (ProjectNode Json)) : same_tree nds nds.
Proof.
  split; [reflexivity|]. intros k n' H. exists n'.
  split; [assumption | apply same_place_refl].
Qed.

Lemma same_tree_trans (a b c : Dict.t (ProjectNode Json)) :
  same_tree a b -> same_tree b c -> same_tree a c.
Proof.
  intros [Hk1 H1] [Hk2 H2]. split; [congruence|].
  intros k n' Hget.
  destruct (H2 k n' Hget) as (nb & Hb & (Hi2 & Hg2 & Hp2)).
  destruct (H1 k nb Hb) as (na & Ha & (Hi1 & Hg1 & Hp1)).
  exists na. split; [assumption|]. repeat split; congruence.
Qed.

Lemma same_tree_set (nds : Dict.t (ProjectNode Json))
      (k : string) (node node' : ProjectNode Json) :
  Dict.get nds k = Some node ->
  same_place node node' ->
  same_tree nds (Dict.set nds k node').
Proof.
  intros Hget Hsp. split.
  - rewrite DictKeys.keys_set. unfold Dict.mem. now rewrite Hget.
  - intros k' n'. destruct (String.eqb k k') eqn:E.
    + apply String.eqb_eq in E. subst k'. rewrite DictFacts.get_set_same.
      intros [= <-]. exists node. auto.
    + apply String.eqb_neq in E. rewrite DictFacts.get_set_other by assumption.
      intros H. exists n'. split; [assumption | apply same_place_refl].
Qed.

Lemma propagate_loop_same_tree (fuel : nat) :
  forall l nds node_id l' nds',
    propagate_loop predict fuel l nds node_id = Returned (l', nds') ->
    same_tree nds nds'.
Proof.
  induction fuel as [|fuel IH]; intros l nds node_id l' nds'; [discriminate|].
  cbn [propagate_loop].
  destruct node_id as [k|]; [|intros [= _ <-]; apply same_tree_refl].
  destruct (truthy (Some k)); [|intros [= _ <-]; apply same_tree_refl].
  destruct (Dict.get nds k) as [parent|] eqn:Hget; [|discriminate].
  destruct (predict l _) as [sm l1]. intros H. apply IH in H.
  eapply same_tree_trans; [|exact H].
  apply same_tree_set with (node := parent); [assumption|].
  destruct parent. repeat split.
Qed.

(** X21: one pass through the five nodes of the graph never moves
    the focus and never adds, removes, renames or re-parents a node:
    the result has the keys of the argument, in their order, and each
    node keeps its id, goal and parent. *)
Theorem a_pass_keeps_the_focus_and_the_tree
        (fuel : nat) (l l' : LLM) (state state' : SystemState Json) :
  iteration json_loads json_truthy dict_update predict fuel l state
  = Returned (l', state') ->
  current_focus_id state' = current_focus_id state /\
  same_tree (nodes state) (nodes state').
Proof.
  unfold iteration.
  destruct (_analyze_current_state predict fuel l state) as [[l1 s1]| |] eqn:Ha;
    [|discriminate|discriminate].
  assert (H1 : current_focus_id s1 = current_focus_id state /\ nodes s1 = nodes state).
  { unfold _analyze_current_state in Ha.
    destruct (get_current_node state); [|discriminate].
    destruct (get_path_to_current fuel state); [|discriminate|discriminate].
    destruct (predict l _) as [answer lafter]. injection Ha as _ <-. auto. }
  destruct H1 as [Hf1 Hn1].
  destruct (_generate_content predict l1 s1) as [[l2 s2]|e] eqn:Hg; [|discriminate].
  assert (H2 : current_focus_id s2 = current_focus_id s1 /\ nodes s2 = nodes s1).
  { unfold _generate_content in Hg.
    destruct (get_current_node s1); cbn [bind] in Hg; [|discriminate].
    destruct (predict l1 _) as [answer lafter]. injection Hg as _ <-. auto. }
  destruct H2 as [Hf2 Hn2].
  destruct (_parse_content json_loads predict l2 s2) as [l3 s3] eqn:Hp.
  assert (H3 : current_focus_id s3 = current_focus_id s2 /\ nodes s3 = nodes s2).
  { unfold _parse_content in Hp.
    destruct (last_generation_of (rev (history s2))) as [g|];
      [|injection Hp as _ <-; auto].
    destruct (String.eqb g ""); [injection Hp as _ <-; auto|].
    destruct (json_loads g); [injection Hp as _ <-; auto|].
    destruct (predict l2 _) as [answer lafter]. injection Hp as _ <-. auto. }
  destruct H3 as [Hf3 Hn3].
  destruct (_update_structure json_truthy dict_update s3) as [s4|e] eqn:Hu;
    [|discriminate].
  assert (H4 : current_focus_id s4 = current_focus_id s3 /\
               same_tree (nodes s3) (nodes s4)).
  { unfold _update_structure in Hu.
    destruct (last_parsed_of (rev (history s3))) as [v|];
      [|injection Hu as <-; split; [reflexivity | apply same_tree_refl]].
    destruct (value_truthy json_truthy v);
      [|injection Hu as <-; split; [reflexivity | apply same_tree_refl]].
    unfold get_current_node, Dict.getitem in Hu.
    destruct (Dict.get (nodes s3) (current_focus_id s3)) as [current|] eqn:Hget;
      cbn [bind] in Hu; [|discriminate].
    destruct (update dict_update (content current) v) as [c|e];
      cbn [bind] in Hu; [|discriminate].
    injection Hu as <-. cbn [set_nodes current_focus_id nodes].
    split; [reflexivity|].
    apply same_tree_set with (node := current); [assumption|].
    destruct current. repeat split. }
  destruct H4 as [Hf4 Ht4].
  intros Hprop. unfold _propagate_summaries in Hprop.
  unfold get_current_node, Dict.getitem in Hprop.
  destruct (Dict.get (nodes s4) (current_focus_id s4)) as [current|] eqn:Hget;
    [|discriminate].
  destruct (predict l3 _) as [sm l4].
  destruct (propagate_loop predict fuel l4 _ (parent_id current))
    as [[l5 nds5]| |] eqn:Hloop; [|discriminate|discriminate].
  injection Hprop as _ <-. cbn [set_nodes current_focus_id nodes].
  split; [congruence|].
  rewrite Hn3, Hn2, Hn1 in Ht4.
  eapply same_tree_trans; [exact Ht4|].
  eapply same_tree_trans;
    [|exact (@propagate_loop_same_tree _ _ _ _ _ _ Hloop)].
  apply same_tree_set with (node := current); [assumption|].
  destruct current. repeat split.
Qed.

Lemma propagate_loop_off_the_walk (k : string) (fuel : nat) :
  forall l nds node_id l' nds',
    propagate_loop predict fuel l nds node_id = Returned (l', nds') ->
    (forall n, walk nds node_id n <> Some k) ->
    Dict.get nds' k = Dict.get nds k.
Proof.
  induction fuel as [|fuel IH]; intros l nds node_id l' nds'; [discriminate|].
  cbn [propagate_loop].
  destruct node_id as [k0|]; [|now intros [= _ <-]].
  destruct (truthy (Some k0)) eqn:Ht; [|now intros [= _ <-]].
  destruct (Dict.get nds k0) as [parent|] eqn:Hget; [|discriminate].
  destruct (predict l _) as [sm l1]. intros H Hoff.
  assert (Hne : k0 <> k).
  { intros ->. apply (Hoff 0). cbn [walk]. now rewrite Ht. }
  rewrite (IH _ _ _ _ _ H).
  - now apply DictFacts.get_set_other.
  - intros n.
    rewrite (@LangGraphFacts.walk_after_summary Json nds k0 parent sm _ n Hget).
    rewrite (@LangGraphFacts.walk_step Json nds k0 parent n Ht Hget).
    apply Hoff.
Qed.

(** X22: [_propagate_summaries] rewrites summaries only on the way
    from the focus to the root: a node that is not the focus and not
    on the chain of its parents keeps its summary. *)
Theorem summaries_change_only_on_the_way_to_the_root
        (fuel : nat) (l l' : LLM) (state state' : SystemState Json) (k : string) :
  _propagate_summaries predict fuel l state = Returned (l', state') ->
  current_focus_id state <> "" ->
  k <> current_focus_id state ->
  (forall n, walk (nodes state) (Some (current_focus_id state)) n <> Some k) ->
  option_map (@summary Json) (Dict.get (nodes state') k)
  = option_map (@summary Json) (Dict.get (nodes state) k).
Proof.
  unfold _propagate_summaries, get_current_node, Dict.getitem.
  destruct (Dict.get (nodes state) (current_focus_id state)) as [current|] eqn:Hget;
    [|discriminate].
  destruct (predict l _) as [sm l1].
  destruct (propagate_loop predict fuel l1 _ (parent_id current))
    as [[l2 nds2]| |] eqn:Hloop; [|discriminate|discriminate].
  intros [= _ <-] Hfocus Hne Hoff. cbn [set_nodes nodes]. f_equal.
  rewrite (@propagate_loop_off_the_walk k _ _ _ _ _ _ Hloop).
  - apply DictFacts.get_set_other. congruence.
  - intros n.
    rewrite (@LangGraphFacts.walk_after_summary Json _ _ current sm _ n Hget).
    assert (Ht : truthy (Some (current_focus_id state)) = true).
    { cbn [truthy]. apply negb_true_iff, String.eqb_neq. exact Hfocus. }
    rewrite (@LangGraphFacts.walk_step Json _ _ current n Ht Hget). apply Hoff.
Qed.

End Graph.

Lemma path_is_the_chain_of_parents_witness :
  let intro := mkProjectNode "intro" "introduction" [] "" [] (Some "root") in
  let method := mkProjectNode "method" "method" [] "" [] (Some "root") in
  let root :=
    mkProjectNode "root" "report" [] "" [("intro", intro); ("method", method)]
                  None in
  (exists fuel, get_path_to_current fuel Demo.family = Returned [root; intro]) /\
  chain (nodes Demo.family) (Some "intro") (rev [root; intro]).
Proof.
  intros intro method root.
  assert (H : exists fuel,
             get_path_to_current fuel Demo.family = Returned [root; intro])
    by (exists 3; reflexivity).
  split; [exact H|].
  exact (proj1 (@path_is_the_chain_of_parents string Demo.family
                  [root; intro]) H).
Defined.

Lemma dangling_parent_raises_KeyError_witness :
  walk (nodes Demo.orphan) (Some (current_focus_id Demo.orphan)) 1 = Some "gone" /\
  Dict.get (nodes Demo.orphan) "gone" = None /\
  1 < 2 /\
  get_path_to_current 2 Demo.orphan = Raised (KeyError "gone").
Proof.
  assert (Hlt : 1 < 2) by lia.
  split; [reflexivity|]. split; [reflexivity|]. split; [exact Hlt|].
  exact (@dangling_parent_raises_KeyError string Demo.orphan 1 2 "gone"
           eq_refl eq_refl Hlt).
Defined.


Lemma a_pass_keeps_the_focus_and_the_tree_witness :
  let s := create_project string "Write a report" in
  let s' :=
    mkSystemState
      [("root", mkProjectNode "root" "Write a report" [] "short summary" [] None)]
      "root"
      [Analysis string "add content"; Generation string "{}";
       Parsing "success" (Loaded "{}")] in
  iteration Demo.loads_opt Demo.truthy_text Demo.update_raw (@Demo.script _)
            5 ["add content"; "{}"; "short summary"] s
  = Returned ([], s') /\
  current_focus_id s' = current_focus_id s /\
  same_tree (nodes s) (nodes s').
Proof.
  intros s s'.
  split; [reflexivity|].
  exact (@a_pass_keeps_the_focus_and_the_tree string Demo.loads_opt
           Demo.truthy_text Demo.update_raw (list string) (@Demo.script _)
           5 ["add content"; "{}"; "short summary"] [] s s' eq_refl).
Defined.

Lemma summaries_change_only_on_the_way_to_the_root_witness :
  exists state',
    _propagate_summaries (@Demo.script _) 3 ["first"; "second"] Demo.family
    = Returned ([], state') /\
    current_focus_id Demo.family <> "" /\
    "method" <> current_focus_id Demo.family /\
    (forall n, walk (nodes Demo.family)
                    (Some (current_focus_id Demo.family)) n <> Some "method") /\
    option_map (@summary string) (Dict.get (nodes state') "method")
    = option_map (@summary string) (Dict.get (nodes Demo.family) "method").
Proof.
  assert (Hf : current_focus_id Demo.family <> "") by discriminate.
  assert (Hne : "method" <> current_focus_id Demo.family) by discriminate.
  assert (Hoff : forall n, walk (nodes Demo.family)
                                (Some (current_focus_id Demo.family)) n
                           <> Some "method").
  { intros [|[|n]]; [discriminate | discriminate |].
    pose proof (@LangGraphFacts.walk_stays_ended string (nodes Demo.family)
                  (Some (current_focus_id Demo.family)) 2 n eq_refl) as He.
    change (2 + n) with (S (S n)) in He. rewrite He. discriminate. }
  eexists. split; [reflexivity|].
  split; [exact Hf|]. split; [exact Hne|]. split; [exact Hoff|].
  exact (@summaries_change_only_on_the_way_to_the_root string (list string)
           (@Demo.script _) 3 ["first"; "second"] [] Demo.family _ "method"
           eq_refl Hf Hne Hoff).
Defined.

End TreeFacts.
